(** * devploy-backend: build and publish pipeline

    A shallow embedding of [src/index.ts] (the webhook-driven pipeline) and
    of the two earlier revisions of the server that still carry the publish
    resolver ([app.get("*")]).

    Layout: the JavaScript value helpers, then one module per component of
    the server (detector, executor, object store, record store, pipeline,
    webhook adapter, resolver, manual deploy), the run against a record
    store that can reject a write, and the routes of [GET]; then the
    lemmas: first the properties the specification states, then further
    properties of the stages, of a run, of the manual deploy and of the
    resolver. *)

From Stdlib Require Import ZArith Ascii String List Lia.
From stdpp Require Import base option list sorting gmap sets strings pretty.

Local Open Scope string_scope.
Local Open Scope Z_scope.
Set Warnings "-register-all,-clear-no-such-hyp".

(* ================================================================== *)
(** ** JavaScript values *)
(* ================================================================== *)

Module Js.

(** The values [JSON.parse] can produce. Objects are finite maps. *)
Inductive json : Type :=
| JNull
| JBool (b : bool)
| JNum (n : Z)        (* integers stand for all numbers: only zero is falsy *)
| JStr (s : string)
| JArr (l : list json)
| JObj (m : gmap string json).

(** A JavaScript expression either yields a value or throws. The thrown
    value is kept as the text that [console.log] or [toString] shows. *)
Inductive completion (A : Type) : Type :=
| Normal (a : A)
| Throw (e : string).
Arguments Normal {A} a.
Arguments Throw {A} e.

(** Truthiness of a string: only the empty string is falsy. *)
Definition truthy_str (s : string) : bool :=
  match s with
  | EmptyString => false
  | String _ _ => true
  end.

(** Truthiness of a parsed value. Objects and arrays are always truthy. *)
Definition truthy (v : json) : bool :=
  match v with
  | JNull => false
  | JBool b => b
  | JNum n => negb (n =? 0)
  | JStr s => truthy_str s
  | JArr _ => true
  | JObj _ => true
  end.

(** Truthiness of a possibly [undefined] value. *)
Definition truthy_opt (v : option json) : bool :=
  match v with
  | Some v => truthy v
  | None => false
  end.

(** [a || b] on strings. *)
Definition or_str (a b : string) : string :=
  if truthy_str a then a else b.

(** [a || b] where [a] may be [undefined]. *)
Definition or_default (a : option string) (b : string) : string :=
  match a with
  | Some s => or_str s b
  | None => b
  end.

(** [o.k] for an own data property [k] that no prototype defines: the
    member of an object, [undefined] on any other non-null value, and a
    [TypeError] on [null]. *)
Definition get (o : json) (k : string) : completion (option json) :=
  match o with
  | JNull => Throw ("TypeError: Cannot read properties of null (reading '" ++ k ++ "')")
  | JObj m => Normal (m !! k)
  | _ => Normal None
  end.

(** [o?.k] where [o] may be [undefined]: short-circuits on [null] and
    [undefined]. *)
Definition get_opt (o : option json) (k : string) : option json :=
  match o with
  | Some (JObj m) => m !! k
  | _ => None
  end.

(** [s.split(sep)[0]] for a one-character separator: the text before the
    first separator, the whole string when there is none. *)
Fixpoint split_head (sep : ascii) (s : string) : string :=
  match s with
  | EmptyString => EmptyString
  | String c r => if Ascii.eqb c sep then EmptyString else String c (split_head sep r)
  end.

(** [s.replace(pat, rep)] with a string pattern: the first occurrence of
    [pat] is replaced, the rest of [s] is kept. [rep] holds no [$]. *)
Fixpoint replace (pat rep s : string) : string :=
  if String.prefix pat s
  then rep ++ String.substring (String.length pat) (String.length s - String.length pat) s
  else match s with
       | EmptyString => EmptyString
       | String c r => String c (replace pat rep r)
       end.

End Js.

(* ================================================================== *)
(** ** Toolchain detector *)
(* ================================================================== *)

Module Detector.
Import Js.

Record Framework : Type := mkFramework {
  name : string;
  buildCommand : string;
  outDir : string;
}.

Definition NextJs : Framework := mkFramework "Next.js" "npm run build" ".next".
Definition Vite : Framework := mkFramework "Vite" "npm run build" "dist".
Definition CRA : Framework := mkFramework "CRA" "npm run build" "dist".
Definition Vue : Framework := mkFramework "Vue" "npm run build" "dist".
Definition Astro : Framework := mkFramework "Astro" "npm run build" "dist".
Definition Svelte : Framework := mkFramework "Svelte" "npm run build" "dist".
Definition Unknown : Framework := mkFramework "Unknown" "npm run build" "dist".

Section WithFs.
(** [path.join] and [fs.existsSync], as the process sees them when the
    detector runs. *)
Variable path_join : string -> string -> string.
Variable existsSync : string -> bool.

(** [pkgJson.dependencies?.k], given the value of [pkgJson.dependencies]. *)
Definition dep (deps : option json) (k : string) : bool :=
  truthy_opt (get_opt deps k).

(** [detectFramework] of [src/index.ts]. Reading [pkgJson.dependencies]
    throws when [pkgJson] is [null]; every rule after that is total. *)
Definition detectFramework (pkgJson : json) (folder : string)
  : completion Framework :=
  match get pkgJson "dependencies", get pkgJson "devDependencies" with
  | Throw e, _ => Throw e
  | _, Throw e => Throw e
  | Normal deps, Normal devDeps =>
      if dep deps "next" || dep devDeps "next" then Normal NextJs
      else if dep deps "vite" || existsSync (path_join folder "vite.config.js")
      then Normal Vite
      else if dep deps "react" && existsSync (path_join folder "public")
      then Normal CRA
      else if dep deps "vue" && existsSync (path_join folder "vue.config.js")
      then Normal Vue
      else Normal Unknown
  end.

(** [detectFramework] of the earlier revision, with two more rules. *)
Definition detectFramework_rev2 (pkgJson : json) (folder : string)
  : completion Framework :=
  match get pkgJson "dependencies", get pkgJson "devDependencies" with
  | Throw e, _ => Throw e
  | _, Throw e => Throw e
  | Normal deps, Normal devDeps =>
      if dep deps "next" || dep devDeps "next" then Normal NextJs
      else if dep deps "vite" || existsSync (path_join folder "vite.config.js")
      then Normal Vite
      else if dep deps "react" && existsSync (path_join folder "public")
      then Normal CRA
      else if dep deps "vue" && existsSync (path_join folder "vue.config.js")
      then Normal Vue
      else if dep deps "astro" && existsSync (path_join folder "astro.config.mjs")
      then Normal Astro
      else if dep deps "svelte" && existsSync (path_join folder "svelte.config.js")
      then Normal Svelte
      else Normal Unknown
  end.
End WithFs.

End Detector.

(* ================================================================== *)
(** ** Build executor *)
(* ================================================================== *)

Module Executor.
Import Js.

(** The [Error] that [child_process.exec] hands to its callback when the
    child could not be spawned, was killed, or exited with a nonzero
    code. *)
Record ExecException : Type := mkExecException {
  message : string;
  code : option Z;
  killed : bool;
  signal : option string;
}.

(** The three arguments of the callback of [exec]. [err] is [null]
    exactly when the child ran and exited with code 0. *)
Record ExecCallback : Type := mkExecCallback {
  err : option ExecException;
  stdout : string;
  stderr : string;
}.

(** How the promise of [execPromise] settles. *)
Inductive settled : Type :=
| Resolved (value : string)
| Rejected (reason : string).

(** The body of the callback in [execPromise]. *)
Definition settle (cb : ExecCallback) : settled :=
  match err cb with
  | Some e => Rejected (or_str (stderr cb) (message e))
  | None => Resolved (stdout cb)
  end.

(** [execPromise(cmd)], given what [exec] does with a command line. *)
Definition execPromise (exec : string -> ExecCallback) (cmd : string) : settled :=
  settle (exec cmd).

(** [await execPromise(cmd)] inside a [try] block. *)
Definition await (s : settled) : completion string :=
  match s with
  | Resolved v => Normal v
  | Rejected r => Throw r
  end.

End Executor.

(* ================================================================== *)
(** ** Object store (Cloudflare R2 through the S3 client) *)
(* ================================================================== *)

Module R2.
Import Js.

(** A stored object: what [PutObject] writes and [GetObject] returns. *)
Record Object : Type := mkObject {
  Body : list Byte.byte;
  ContentType : option string;
}.

(** The commands the server sends with [s3.send]. The bucket is always
    [process.env.R2_BUCKET_NAME] and is left out. *)
Inductive Command : Type :=
| ListObjectsV2Command (Prefix : string)
| DeleteObjectCommand (Key : string)
| PutObjectCommand (Key : string) (body : list Byte.byte) (contentType : string)
| GetObjectCommand (Key : string).

(** One [ListObjectsV2] response holds at most this many keys, the default
    and the largest value of [MaxKeys]; the keys after them come with a
    [ContinuationToken]. The server sets neither and does not read
    [IsTruncated], so it only ever sees the first page. *)
Definition MaxKeys : nat := 1000.

Definition has_prefix (prefix key : string) : Prop :=
  Is_true (String.prefix prefix key).

(** The keys of the bucket that start with [prefix], in the order the
    store lists them (binary order of the key). *)
Definition keys_with_prefix (b : gmap string Object) (prefix : string) : list string :=
  merge_sort String.le (filter (has_prefix prefix) (elements (dom b))).

(** The keys on the first page of a listing. *)
Definition first_page (b : gmap string Object) (prefix : string) : list string :=
  take MaxKeys (keys_with_prefix b prefix).

(** [Contents] of the response to [ListObjectsV2Command {Prefix}]:
    [undefined] when no key matches, the first page otherwise. *)
Definition list_contents (b : gmap string Object) (prefix : string)
  : option (list string) :=
  match first_page b prefix with
  | [] => None
  | keys => Some keys
  end.

(** The effect of a command on the bucket. *)
Definition apply (c : Command) (b : gmap string Object) : gmap string Object :=
  match c with
  | PutObjectCommand k body ct => <[k := mkObject body (Some ct)]> b
  | DeleteObjectCommand k => delete k b
  | ListObjectsV2Command _ => b
  | GetObjectCommand _ => b
  end.

(** The keys of the project's artifact namespace, as a set. *)
Definition namespace (b : gmap string Object) (prefix : string) : gset string :=
  filter (has_prefix prefix) (dom b).

End R2.

(* ================================================================== *)
(** ** Record store (the [projects] and [builds] tables) *)
(* ================================================================== *)

Module Db.

(** A row of [projects]. *)
Record Project : Type := mkProject {
  project_id : Z;
  project_name : string;
  description : option string;
  project_repo_url : string;
  live_url : option string;
  deploy_status : string;
  userId : string;
}.

(** A row of [builds]; the two timestamps play no part in the pipeline
    and are left out. *)
Record Build : Type := mkBuild {
  id : Z;
  projectId : Z;
  build_status : string;
  build_number : Z;
  build_url : string;
  build_log : string;
}.

(** The values of an [insert]: every column but the generated [id]. *)
Record NewBuild : Type := mkNewBuild {
  new_projectId : Z;
  new_build_status : string;
  new_build_number : Z;
  new_build_url : string;
  new_build_log : string;
}.

(** The [builds] table with its identity sequence. *)
Record Builds : Type := mkBuilds {
  rows : list Build;
  next_id : Z;
}.

(** The writes the server issues against [builds]. *)
Inductive Write : Type :=
| Insert (row : Build)
| SetStatus (build_id : Z) (status : string).

(** [db.insert(builds).values(v).returning()]: the row gets the next
    value of the identity sequence. *)
Definition insert (v : NewBuild) (t : Builds) : Build * Builds :=
  let row := mkBuild (next_id t) (new_projectId v) (new_build_status v)
               (new_build_number v) (new_build_url v) (new_build_log v) in
  (row, mkBuilds (rows t ++ [row]) (next_id t + 1)).

Definition set_status (status : string) (r : Build) : Build :=
  mkBuild (id r) (projectId r) status (build_number r) (build_url r) (build_log r).

(** [db.update(builds).set({build_status}).where(eq(builds.id, i))]. *)
Definition update_status (i : Z) (status : string) (t : Builds) : Builds :=
  mkBuilds (map (fun r => if id r =? i then set_status status r else r) (rows t))
           (next_id t).

(** [db.select().from(projects).where(eq(projects.repo_url, url))]. *)
Definition select_by_repo_url (url : string) (ps : list Project) : list Project :=
  filter (fun p => project_repo_url p = url) ps.

(** The row with a given id, if any. *)
Definition find (i : Z) (t : Builds) : option Build :=
  List.find (fun r => id r =? i) (rows t).

(** The identity sequence is ahead of every stored id. *)
Definition well_formed (t : Builds) : Prop :=
  Forall (fun r => id r < next_id t) (rows t).

End Db.

(* ================================================================== *)
(** ** Build pipeline *)
(* ================================================================== *)

Module Pipeline.
Import Js.
Export R2 Db.

(** A directory entry of the build output: [readdirSync] with
    [withFileTypes], the children of a directory being what the nested
    [readdirSync] returns and the content what [readFileSync] returns. *)
Inductive entry : Type :=
| File (name : string) (content : list Byte.byte)
| Dir (name : string) (children : list entry).

(** An argument of [console.log]. *)
Inductive LogArg : Type :=
| Text (s : string)
| Rows (l : list Build).

(** Everything outside the process that a run reads. Each field answers
    the call of the same name at the moment the pipeline makes it. *)
Record Env : Type := mkEnv {
  now : Z;                                       (* Date.now() *)
  BASE_URL : string;                             (* process.env.BASE_URL in a template *)
  path_join : string -> string -> string;        (* path.join *)
  mime_lookup : string -> option string;         (* mime.lookup, false as None *)
  clone : string -> string -> completion unit;   (* simpleGit().clone *)
  readFileSync : string -> completion string;    (* fs.readFileSync(p, "utf-8") *)
  JSON_parse : string -> completion json;        (* JSON.parse *)
  existsSync : string -> bool;                   (* fs.existsSync *)
  exec : string -> Executor.ExecCallback;        (* child_process.exec *)
  readdirSync : string -> completion (list entry);  (* fs.readdirSync *)
  rmSync : string -> completion unit;            (* fs.rmSync *)
  s3_fault : nat -> option string;               (* the n-th request to the store fails *)
}.

(** The state a run changes. [s3_log] and [db_log] record the requests
    in the order they were sent. *)
Record World : Type := mkWorld {
  bucket : gmap string Object;
  s3_log : list Command;
  builds : Builds;
  db_log : list Write;
  console : list (list LogArg);
}.

(** Asynchronous code between [await]s: a state transformer that may
    throw. *)
Definition M (A : Type) : Type := World -> completion A * World.

#[export] Instance M_ret : MRet M := fun A a w => (Normal a, w).
#[export] Instance M_bind : MBind M := fun A B f m w =>
  match m w with
  | (Normal a, w') => f a w'
  | (Throw e, w') => (Throw e, w')
  end.

(** A call that reads the environment only. *)
Definition lift {A : Type} (c : completion A) : M A := fun w => (c, w).

(** [try { body } catch (err) { handler }]. *)
Definition try_catch {A : Type} (body : M A) (handler : string -> M A) : M A := fun w =>
  match body w with
  | (Normal a, w') => (Normal a, w')
  | (Throw e, w') => handler e w'
  end.

Definition console_log (args : list LogArg) : M unit := fun w =>
  (Normal tt, mkWorld (bucket w) (s3_log w) (builds w) (db_log w) (console w ++ [args])).

(** The files of a tree, at any depth. *)
Fixpoint count_files (e : entry) : nat :=
  match e with
  | File _ _ => 1
  | Dir _ children => list_sum (map count_files children)
  end.

(** The paths of the files of a tree, relative to the directory that
    holds the entry, with [/] between the names. *)
Fixpoint rel_paths (e : entry) : list string :=
  match e with
  | File name _ => [name]
  | Dir name children =>
      map (fun p => name ++ "/" ++ p) (concat (map rel_paths children))
  end.

Definition count_files_in (l : list entry) : nat := list_sum (map count_files l).
Definition rel_paths_in (l : list entry) : list string := concat (map rel_paths l).

(** The key of a request that names one. *)
Definition command_key (c : Command) : string :=
  match c with
  | ListObjectsV2Command p => p
  | DeleteObjectCommand k => k
  | PutObjectCommand k _ _ => k
  | GetObjectCommand k => k
  end.

Definition is_put (c : Command) : bool :=
  match c with
  | PutObjectCommand _ _ _ => true
  | _ => false
  end.

(** The bucket after the store has carried out a list of requests. *)
Definition apply_all (cs : list Command) (b : gmap string Object) : gmap string Object :=
  foldl (fun b c => R2.apply c b) b cs.

(** [needle] occurs in [s]. *)
Fixpoint occurs_in (needle s : string) : bool :=
  String.prefix needle s ||
  match s with
  | EmptyString => false
  | String _ r => occurs_in needle r
  end.

Section WithEnv.
Variable env : Env.

(** [await s3.send(c)]: the request is sent; the store carries it out
    unless this request is one that fails. *)
Definition s3_send (c : Command) : M unit := fun w =>
  match s3_fault env (length (s3_log w)) with
  | Some e =>
      (Throw e, mkWorld (bucket w) (s3_log w ++ [c]) (builds w) (db_log w) (console w))
  | None =>
      (Normal tt,
       mkWorld (R2.apply c (bucket w)) (s3_log w ++ [c]) (builds w) (db_log w) (console w))
  end.

(** [await s3.send(new ListObjectsV2Command({Prefix}))]. *)
Definition s3_list (prefix : string) : M (option (list string)) := fun w =>
  match s3_send (ListObjectsV2Command prefix) w with
  | (Normal _, w') => (Normal (list_contents (bucket w) prefix), w')
  | (Throw e, w') => (Throw e, w')
  end.

(** The two writes to [builds], as a store that accepts them carries them
    out; [Fallible] has the writes that the store can reject. *)
Definition db_insert (v : NewBuild) : M Build := fun w =>
  let '(row, t) := Db.insert v (builds w) in
  (Normal row, mkWorld (bucket w) (s3_log w) t (db_log w ++ [Insert row]) (console w)).

Definition db_update_status (i : Z) (status : string) : M unit := fun w =>
  (Normal tt,
   mkWorld (bucket w) (s3_log w) (Db.update_status i status (builds w))
           (db_log w ++ [SetStatus i status]) (console w)).

(** The [for] loop of [deleteFolderFromR2]. *)
Fixpoint delete_each (keys : list string) : M unit :=
  match keys with
  | [] => mret tt
  | k :: rest =>
      s3_send (DeleteObjectCommand k);;
      console_log [Text ("❌ Deleted: " ++ k)];;
      delete_each rest
  end.

Definition deleteFolderFromR2 (prefix : string) : M unit :=
  contents ← s3_list prefix;
  match contents with
  | None | Some [] =>
      console_log [Text ("ℹ️ No previous build to delete for: " ++ prefix)]
  | Some keys =>
      console_log [Text ("🗑️ Deleting old files in R2: " ++ prefix)];;
      delete_each keys
  end.

(** The body of the [for] loop of [uploadDirToR2] for one entry; a
    directory recurses with its name appended to [subdomain]. *)
Fixpoint upload_entry (subdomain : string) (e : entry) : M unit :=
  match e with
  | Dir name children =>
      (fix upload_each (l : list entry) : M unit :=
         match l with
         | [] => mret tt
         | x :: rest => upload_entry (subdomain ++ "/" ++ name) x;; upload_each rest
         end) children
  | File name content =>
      let key := subdomain ++ "/" ++ name in
      let contentType := or_default (mime_lookup env name) "application/octet-stream" in
      s3_send (PutObjectCommand key content contentType)
  end.

(** The [for] loop of [uploadDirToR2] over the entries of a directory. *)
Fixpoint upload_each (subdomain : string) (l : list entry) : M unit :=
  match l with
  | [] => mret tt
  | x :: rest => upload_entry subdomain x;; upload_each subdomain rest
  end.

Definition uploadDirToR2 (dirPath subdomain : string) : M unit :=
  entries ← lift (readdirSync env dirPath);
  upload_each subdomain entries.

(** The [PutObject] requests that uploading a tree sends, in order. *)
Fixpoint puts_of (subdomain : string) (e : entry) : list Command :=
  match e with
  | Dir name children =>
      concat (map (puts_of (subdomain ++ "/" ++ name)) children)
  | File name content =>
      [PutObjectCommand (subdomain ++ "/" ++ name) content
         (or_default (mime_lookup env name) "application/octet-stream")]
  end.

Definition puts_of_all (subdomain : string) (l : list entry) : list Command :=
  concat (map (puts_of subdomain) l).

(** Sending a list of requests one after the other. *)
Fixpoint send_all (cs : list Command) : M unit :=
  match cs with
  | [] => mret tt
  | c :: rest => s3_send c;; send_all rest
  end.

(** The steps of the [try] block before the first request to the
    store: clone, read and parse the manifest, detect, install, build. *)
Definition prepare (repo_url tempFolder : string) : completion Detector.Framework :=
  match clone env repo_url tempFolder with
  | Throw e => Throw e
  | Normal _ =>
  match readFileSync env (path_join env tempFolder "package.json") with
  | Throw e => Throw e
  | Normal text =>
  match JSON_parse env text with
  | Throw e => Throw e
  | Normal pkgJson =>
  match Detector.detectFramework (path_join env) (existsSync env) pkgJson tempFolder with
  | Throw e => Throw e
  | Normal fw =>
  match Executor.await
          (Executor.execPromise (exec env) ("cd " ++ tempFolder ++ " && npm install")) with
  | Throw e => Throw e
  | Normal _ =>
  match Executor.await
          (Executor.execPromise (exec env)
             ("cd " ++ tempFolder ++ " && " ++ Detector.buildCommand fw)) with
  | Throw e => Throw e
  | Normal _ => Normal fw
  end end end end end end.

(** The [try] block of [startBuild]. *)
Definition build_and_publish (buildId : Z) (projectName repo_url tempFolder : string)
  : M unit :=
  console_log [Text "⏳ Cloning..."];;
  lift (clone env repo_url tempFolder);;
  let pkgPath := path_join env tempFolder "package.json" in
  text ← lift (readFileSync env pkgPath);
  pkgJson ← lift (JSON_parse env text);
  fw ← lift (Detector.detectFramework (path_join env) (existsSync env) pkgJson tempFolder);
  lift (Executor.await
          (Executor.execPromise (exec env) ("cd " ++ tempFolder ++ " && npm install")));;
  lift (Executor.await
          (Executor.execPromise (exec env)
             ("cd " ++ tempFolder ++ " && " ++ Detector.buildCommand fw)));;
  deleteFolderFromR2 (projectName ++ "/");;
  uploadDirToR2 (path_join env tempFolder (Detector.outDir fw)) projectName;;
  lift (rmSync env tempFolder);;
  db_update_status buildId "success";;
  console_log [Text "🎉 Build Successful!"].

Definition tempFolder_of (projectName : string) : string :=
  "./tmp/" ++ pretty (now env) ++ "-" ++ projectName.

(** [startBuild(projectId, projectName, repo_url)], run to the end,
    against a record store that accepts its three writes. *)
Definition startBuild (projectId : Z) (projectName repo_url : string) : M unit :=
  inserted ← db_insert (mkNewBuild projectId "pending" 1
                          ("https://" ++ projectName ++ BASE_URL env) "");
  console_log [Text "🆕 Build record created:"; Rows [inserted]];;
  let buildId := Db.id inserted in
  let tempFolder := tempFolder_of projectName in
  console_log [Text ("📁 temp folder: " ++ tempFolder)];;
  try_catch
    (build_and_publish buildId projectName repo_url tempFolder)
    (fun err =>
       console_log [Text "❌ Build Failed"; Text err];;
       db_update_status buildId "failed").

End WithEnv.

End Pipeline.

(* ================================================================== *)
(** ** Webhook adapter *)
(* ================================================================== *)

Module Webhook.
Import Js.
Export Pipeline.

(** What [c.json] is given. *)
Record JsonResponse : Type := mkJsonResponse {
  success : bool;
  message : string;
}.

(** A call of [startBuild] that the handler starts and does not await. *)
Record Task : Type := mkTask {
  task_projectId : Z;
  task_projectName : string;
  task_repo_url : string;
}.

(** The handler of [POST /api/webhook] up to its [return], for a payload
    whose [repository.clone_url] is the string [repo_url]: the response,
    and the calls of [startBuild] it has started. *)
Definition handler (projects : list Project) (repo_url : string)
  : M (JsonResponse * list Task) :=
  console_log [Text "📩 Webhook received"];;
  let project := select_by_repo_url repo_url projects in
  match project with
  | [] => mret (mkJsonResponse false "Project not registered", [])
  | p :: _ =>
      console_log [Text "🚀 Starting build for project:"; Text (project_name p)];;
      mret (mkJsonResponse true "Build started",
            [mkTask (project_id p) (project_name p) repo_url])
  end.

(** The detached task, run to its end. *)
Definition run_task (env : Env) (t : Task) : M unit :=
  startBuild env (task_projectId t) (task_projectName t) (task_repo_url t).

Fixpoint run_tasks (env : Env) (ts : list Task) : M unit :=
  match ts with
  | [] => mret tt
  | t :: rest => run_task env t;; run_tasks env rest
  end.

(** A whole webhook request: the response is fixed when the handler
    returns; the started tasks run afterwards and nothing reads how
    they end. *)
Definition post_webhook (env : Env) (projects : list Project) (repo_url : string)
  : M JsonResponse := fun w =>
  match handler projects repo_url w with
  | (Normal (response, tasks), w1) => (Normal response, snd (run_tasks env tasks w1))
  | (Throw e, w1) => (Throw e, w1)
  end.

End Webhook.

(* ================================================================== *)
(** ** Publish resolver (the two revisions that serve artifacts) *)
(* ================================================================== *)

Module Resolver.
Import Js.
Export R2.

(** What the handler of [GET *] returns. *)
Inductive Response : Type :=
| ObjectResponse (body : list Byte.byte) (content_type : string)
    (* new Response(body, {headers: {"Content-Type": content_type}}) *)
| TextResponse (text : string) (status : Z).
    (* c.text(text, status) *)

(** [c.req.path === "/" ? "/index.html" : c.req.path]. *)
Definition reqPath (path : string) : string :=
  if String.eqb path "/" then "/index.html" else path.

(** First revision: [host.split(".")[0]]. *)
Definition subdomain_rev1 (host : string) : string :=
  split_head "." host.

(** Second revision: [host.replace(`.${domainRoot}`, "")]. *)
Definition subdomain_rev2 (domainRoot host : string) : string :=
  replace ("." ++ domainRoot) "" host.

Definition domainRoot : string := "devploy-backend.avijit.site".

(** [await s3.send(new GetObjectCommand({Key}))]: the stored object, or
    an exception when the request fails or the key is absent. *)
Definition s3_get (fault : option string) (b : gmap string Object) (key : string)
  : completion Object :=
  match fault with
  | Some e => Throw e
  | None =>
      match b !! key with
      | Some o => Normal o
      | None => Throw "NoSuchKey: The specified key does not exist."
      end
  end.

Section Serve.
(** How the revision at hand derives the namespace from the host. *)
Variable subdomain_of : string -> string.

Definition key_of (host : option string) (path : string) : string :=
  subdomain_of (or_default host "") ++ reqPath path.

(** The handler of [GET *]. [host] is the [Host] header, if any. *)
Definition serve (fault : option string) (b : gmap string Object)
    (host : option string) (path : string) : Response :=
  match s3_get fault b (key_of host path) with
  | Normal result =>
      ObjectResponse (Body result) (or_default (ContentType result) "text/html")
  | Throw _ => TextResponse "Not Found" 404
  end.
End Serve.

(** The handler of [GET *] in the two revisions; [Routes] has the routes
    of [GET] that stand before it. *)
Definition serve_rev1 := serve subdomain_rev1.
Definition serve_rev2 := serve (subdomain_rev2 domainRoot).

End Resolver.

(* ================================================================== *)
(** ** Manual deploy *)
(* ================================================================== *)

Module Deploy.
Import Js.
Export Pipeline.

(** What [c.json] is given by [POST /api/deploy]; a field that the handler
    leaves out is [None]. *)
Record DeployResponse : Type := mkDeployResponse {
  success : bool;
  message : string;
  url : option string;
  error : option string;
}.

(** What [await c.req.json()] hands to the handler. The model covers a
    body that is not JSON, the JSON value [null], and an object whose
    [repositoryUrl] and [applicationName] are strings; a body of another
    shape is outside it. *)
Inductive RequestBody : Type :=
| NotJson (e : string)   (* the promise rejects with [e] *)
| NullBody               (* the body is the JSON value null *)
| Fields (repositoryUrl applicationName : string).

(** What destructuring [null] throws. *)
Definition destructure_null : string :=
  "TypeError: Cannot destructure property 'repositoryUrl' of 'body' as it is null.".

Section WithEnv.
Variable env : Env.

(** The [try] block of the handler in [src/index.ts]. *)
Definition build_and_upload (repositoryUrl applicationName folder : string)
  : M DeployResponse :=
  lift (clone env repositoryUrl folder);;
  text ← lift (readFileSync env (path_join env folder "package.json"));
  pkgJson ← lift (JSON_parse env text);
  fw ← lift (Detector.detectFramework (path_join env) (existsSync env) pkgJson folder);
  lift (Executor.await
          (Executor.execPromise (exec env) ("cd " ++ folder ++ " && npm install")));;
  lift (Executor.await
          (Executor.execPromise (exec env)
             ("cd " ++ folder ++ " && " ++ Detector.buildCommand fw)));;
  deleteFolderFromR2 env (applicationName ++ "/");;
  uploadDirToR2 env (path_join env folder (Detector.outDir fw)) applicationName;;
  lift (rmSync env folder);;
  mret (mkDeployResponse true "Deployment successful"
          (Some ("https://" ++ applicationName ++ BASE_URL env)) None).

(** The handler in [src/index.ts] from [const folder] on, the two fields
    of the body being strings: the [try] block and its [catch]. *)
Definition deploy_fields (repositoryUrl applicationName : string) : M DeployResponse :=
  let folder := "./tmp/" ++ pretty (now env) ++ "-" ++ applicationName in
  try_catch
    (build_and_upload repositoryUrl applicationName folder)
    (fun err => mret (mkDeployResponse false "Deployment failed" None (Some err))).

(** The handler of [POST /api/deploy] in [src/index.ts]. Its first two
    statements stand before the [try]: [await c.req.json()] rejects on a
    body that is not JSON, and the destructuring throws on [null]. *)
Definition deploy (body : RequestBody) : M DeployResponse :=
  match body with
  | NotJson e => lift (Throw e)
  | NullBody => lift (Throw destructure_null)
  | Fields repositoryUrl applicationName => deploy_fields repositoryUrl applicationName
  end.

(** The [try] block of the handler in the first revision: one command for
    install and build, the output always in [dist], no detection and no
    delete stage. Its [execPromise] resolves without a value; nothing reads
    the value. *)
Definition build_and_upload_rev1 (repositoryUrl applicationName folder : string)
  : M DeployResponse :=
  let buildPath := folder ++ "/dist" in
  lift (clone env repositoryUrl folder);;
  lift (Executor.await
          (Executor.execPromise (exec env)
             ("cd " ++ folder ++ " && npm install && npm run build")));;
  uploadDirToR2 env buildPath applicationName;;
  lift (rmSync env folder);;
  mret (mkDeployResponse true "Deployment successful"
          (Some ("http://" ++ applicationName ++ BASE_URL env)) None).

(** The handler of [POST /api/deploy] in the first revision, which also
    parses and destructures the body before anything else. [r2_settings]
    are the four settings of the store as [console.log] shows them; the
    line of [console.error] is kept with those of [console.log]. *)
Definition deploy_rev1 (r2_settings : list string) (body : RequestBody)
  : M DeployResponse :=
  match body with
  | NotJson e => lift (Throw e)
  | NullBody => lift (Throw destructure_null)
  | Fields repositoryUrl applicationName =>
      console_log (map Text r2_settings);;
      let folder := "./tmp/" ++ pretty (now env) ++ "-" ++ applicationName in
      try_catch
        (build_and_upload_rev1 repositoryUrl applicationName folder)
        (fun err =>
           console_log [Text "Deployment Error:"; Text err];;
           mret (mkDeployResponse false "Deployment failed" None None))
  end.

End WithEnv.

End Deploy.

(* ================================================================== *)
(** ** The pipeline as a list of requests *)
(* ================================================================== *)

Module Refinement.
Import Js.
Export Pipeline.

(** Two states that differ in the console only. *)
Definition agree (w v : World) : Prop :=
  bucket w = bucket v /\ s3_log w = s3_log v /\
  builds w = builds v /\ db_log w = db_log v.

(** Two runs that ended the same way, in states that agree. *)
Definition agree_run {A : Type} (r s : completion A * World) : Prop :=
  r.1 = s.1 /\ agree r.2 s.2.

(** The row that [startBuild] inserts. *)
Definition pending_row (env : Env) (projectId : Z) (projectName : string) (w : World)
  : Build :=
  mkBuild (next_id (builds w)) projectId "pending" 1
          ("https://" ++ projectName ++ BASE_URL env) "".

(** The state in which [startBuild] enters its [try] block. *)
Definition try_entry (env : Env) (projectId : Z) (projectName : string) (w : World)
  : World :=
  let row := pending_row env projectId projectName w in
  mkWorld (bucket w) (s3_log w)
          (mkBuilds (rows (builds w) ++ [row]) (next_id (builds w) + 1))
          (db_log w ++ [Insert row])
          ((console w ++ [[Text "🆕 Build record created:"; Rows [row]]]) ++
           [[Text ("📁 temp folder: " ++ tempFolder_of env projectName)]]).

(** The [catch] block of [startBuild]. *)
Definition on_failure (buildId : Z) (err : string) : M unit :=
  console_log [Text "❌ Build Failed"; Text err];;
  db_update_status buildId "failed".

(** The status that a run writes last, given how its [try] block ended. *)
Definition final_status (c : completion unit) : string :=
  match c with
  | Normal _ => "success"
  | Throw _ => "failed"
  end.

(** The requests of [deleteFolderFromR2] when none of them fails. *)
Definition delete_requests (prefix : string) (b : gmap string Object) : list Command :=
  ListObjectsV2Command prefix :: map DeleteObjectCommand (first_page b prefix).

(** The [try] block of [startBuild] without its log lines, each loop
    written as the list of requests it sends. *)
Definition publish (env : Env) (buildId : Z) (projectName repo_url tempFolder : string)
  : M unit := fun w =>
  (fw ← lift (prepare env repo_url tempFolder);
   send_all env (delete_requests (projectName ++ "/") (bucket w));;
   entries ← lift (readdirSync env (path_join env tempFolder (Detector.outDir fw)));
   send_all env (puts_of_all env projectName entries);;
   lift (rmSync env tempFolder);;
   db_update_status buildId "success") w.

(** One of the stages before the first request to the store fails, the
    stages before it having gone through. *)
Inductive prepare_fails (env : Env) (repo_url tempFolder : string) : string -> Prop :=
| clone_fails (e : string) :
    clone env repo_url tempFolder = Throw e ->
    prepare_fails env repo_url tempFolder e
| manifest_read_fails (e : string) :
    clone env repo_url tempFolder = Normal tt ->
    readFileSync env (path_join env tempFolder "package.json") = Throw e ->
    prepare_fails env repo_url tempFolder e
| manifest_parse_fails (text e : string) :
    clone env repo_url tempFolder = Normal tt ->
    readFileSync env (path_join env tempFolder "package.json") = Normal text ->
    JSON_parse env text = Throw e ->
    prepare_fails env repo_url tempFolder e
| detection_fails (text : string) (pkgJson : json) (e : string) :
    clone env repo_url tempFolder = Normal tt ->
    readFileSync env (path_join env tempFolder "package.json") = Normal text ->
    JSON_parse env text = Normal pkgJson ->
    Detector.detectFramework (path_join env) (existsSync env) pkgJson tempFolder = Throw e ->
    prepare_fails env repo_url tempFolder e
| install_fails (text : string) (pkgJson : json) (fw : Detector.Framework) (e : string) :
    clone env repo_url tempFolder = Normal tt ->
    readFileSync env (path_join env tempFolder "package.json") = Normal text ->
    JSON_parse env text = Normal pkgJson ->
    Detector.detectFramework (path_join env) (existsSync env) pkgJson tempFolder
      = Normal fw ->
    Executor.execPromise (exec env) ("cd " ++ tempFolder ++ " && npm install")
      = Executor.Rejected e ->
    prepare_fails env repo_url tempFolder e
| build_fails (text : string) (pkgJson : json) (fw : Detector.Framework)
    (out e : string) :
    clone env repo_url tempFolder = Normal tt ->
    readFileSync env (path_join env tempFolder "package.json") = Normal text ->
    JSON_parse env text = Normal pkgJson ->
    Detector.detectFramework (path_join env) (existsSync env) pkgJson tempFolder
      = Normal fw ->
    Executor.execPromise (exec env) ("cd " ++ tempFolder ++ " && npm install")
      = Executor.Resolved out ->
    Executor.execPromise (exec env)
      ("cd " ++ tempFolder ++ " && " ++ Detector.buildCommand fw) = Executor.Rejected e ->
    prepare_fails env repo_url tempFolder e.

(** How [publish] ends, stage by stage: the stage that fails first decides
    the exception, and the state is the one that stage left. *)
Inductive publish_outcome (env : Env) (buildId : Z) (projectName repo_url tempFolder : string)
    (v : World) : completion unit -> World -> Prop :=
| prepare_failed (e : string) :
    prepare env repo_url tempFolder = Throw e ->
    publish_outcome env buildId projectName repo_url tempFolder v (Throw e) v
| delete_failed (fw : Detector.Framework) (e : string) (v1 : World) :
    prepare env repo_url tempFolder = Normal fw ->
    send_all env (delete_requests (projectName ++ "/") (bucket v)) v = (Throw e, v1) ->
    publish_outcome env buildId projectName repo_url tempFolder v (Throw e) v1
| readdir_failed (fw : Detector.Framework) (e : string) (v1 : World) :
    prepare env repo_url tempFolder = Normal fw ->
    send_all env (delete_requests (projectName ++ "/") (bucket v)) v = (Normal tt, v1) ->
    readdirSync env (path_join env tempFolder (Detector.outDir fw)) = Throw e ->
    publish_outcome env buildId projectName repo_url tempFolder v (Throw e) v1
| upload_failed (fw : Detector.Framework) (entries : list entry) (e : string)
    (v1 v2 : World) :
    prepare env repo_url tempFolder = Normal fw ->
    send_all env (delete_requests (projectName ++ "/") (bucket v)) v = (Normal tt, v1) ->
    readdirSync env (path_join env tempFolder (Detector.outDir fw)) = Normal entries ->
    send_all env (puts_of_all env projectName entries) v1 = (Throw e, v2) ->
    publish_outcome env buildId projectName repo_url tempFolder v (Throw e) v2
| cleanup_failed (fw : Detector.Framework) (entries : list entry) (e : string)
    (v1 v2 : World) :
    prepare env repo_url tempFolder = Normal fw ->
    send_all env (delete_requests (projectName ++ "/") (bucket v)) v = (Normal tt, v1) ->
    readdirSync env (path_join env tempFolder (Detector.outDir fw)) = Normal entries ->
    send_all env (puts_of_all env projectName entries) v1 = (Normal tt, v2) ->
    rmSync env tempFolder = Throw e ->
    publish_outcome env buildId projectName repo_url tempFolder v (Throw e) v2
| published (fw : Detector.Framework) (entries : list entry) (v1 v2 : World) :
    prepare env repo_url tempFolder = Normal fw ->
    send_all env (delete_requests (projectName ++ "/") (bucket v)) v = (Normal tt, v1) ->
    readdirSync env (path_join env tempFolder (Detector.outDir fw)) = Normal entries ->
    send_all env (puts_of_all env projectName entries) v1 = (Normal tt, v2) ->
    rmSync env tempFolder = Normal tt ->
    publish_outcome env buildId projectName repo_url tempFolder v (Normal tt)
      (db_update_status buildId "success" v2).2.

End Refinement.

(* ================================================================== *)
(** ** Concrete runs *)
(* ================================================================== *)

Module Examples.
Import Js.
Export Refinement.

(** A child process that exits with code 0 and prints nothing. *)
Definition quiet_exec (cmd : string) : Executor.ExecCallback :=
  Executor.mkExecCallback None "" "".

(** A build output with two files, one of them in a subdirectory. *)
Definition site : list entry :=
  [File "index.html" []; Dir "assets" [File "app.js" []]].

(** An environment in which every stage goes through: an empty manifest,
    so the fallback toolchain and [dist]. *)
Definition env_ok : Env :=
  mkEnv 1700000000000 ".example.com"
    (fun a b => a ++ "/" ++ b) (fun _ => None)
    (fun _ _ => Normal tt) (fun _ => Normal "{}") (fun _ => Normal (JObj ∅))
    (fun _ => false) quiet_exec
    (fun _ => Normal site) (fun _ => Normal tt) (fun _ => None).


(** The build leaves no output directory, so [readdirSync] throws after
    the delete stage and before the first upload. *)
Definition env_no_output : Env :=
  mkEnv 1700000000000 ".example.com"
    (fun a b => a ++ "/" ++ b) (fun _ => None)
    (fun _ _ => Normal tt) (fun _ => Normal "{}") (fun _ => Normal (JObj ∅))
    (fun _ => false) quiet_exec
    (fun _ => Throw "ENOENT: no such file or directory, scandir") (fun _ => Normal tt)
    (fun _ => None).

Definition repo : string := "https://github.com/acme/app.git".

(** A bucket that holds [n] objects of an earlier build of project [app]. *)
Definition old_key (n : nat) : string := "app/old-" ++ pretty n.
Definition old_object : Object := mkObject [] (Some "text/html").
Definition old_bucket (n : nat) : gmap string Object :=
  list_to_map (map (fun i => (old_key i, old_object)) (seq 0 n)).

(** The project registered for [repo]. *)
Definition acme : Project :=
  mkProject 7 "app" None repo None "pending" "user-1".

(** A fresh server in front of that bucket. *)
Definition world_with (n : nat) : World :=
  mkWorld (old_bucket n) [] (mkBuilds [] 1) [] [].

End Examples.

(* ================================================================== *)
(** ** The build output as a list of files *)
(* ================================================================== *)

Module Site.
Import Js.
Export Refinement.

(** A file of the build output: its path relative to the output
    directory, its own name (the last component of the path) and its
    bytes. *)
Record Artifact : Type := mkArtifact {
  rel_path : string;
  file_name : string;
  file_content : list Byte.byte;
}.

(** The files of a tree, in the order [uploadDirToR2] walks it. *)
Fixpoint files (e : entry) : list Artifact :=
  match e with
  | File name content => [mkArtifact name name content]
  | Dir name children =>
      map (fun a => mkArtifact (name ++ "/" ++ rel_path a) (file_name a) (file_content a))
          (concat (map files children))
  end.

Definition files_in (l : list entry) : list Artifact := concat (map files l).

(** The object that [uploadDirToR2] stores for a file: its bytes, and
    the content type looked up from its name. *)
Definition stored_as (env : Env) (a : Artifact) : Object :=
  mkObject (file_content a)
           (Some (or_default (mime_lookup env (file_name a)) "application/octet-stream")).

(** The request that [uploadDirToR2] sends for a file. *)
Definition put_of (env : Env) (subdomain : string) (a : Artifact) : Command :=
  PutObjectCommand (subdomain ++ "/" ++ rel_path a) (file_content a)
    (or_default (mime_lookup env (file_name a)) "application/octet-stream").

(** Two states with the same bucket and the same requests sent. *)
Definition same_store (w v : World) : Prop :=
  bucket w = bucket v /\ s3_log w = s3_log v.

(** What [startBuild] and the manual deploy have in common: the stages
    from the clone to the removal of the temporary folder, each loop
    written as the list of requests it sends. *)
Definition replace_artifacts (env : Env) (projectName repo_url tempFolder : string)
  : M unit := fun w =>
  (fw ← lift (prepare env repo_url tempFolder);
   send_all env (delete_requests (projectName ++ "/") (bucket w));;
   entries ← lift (readdirSync env (path_join env tempFolder (Detector.outDir fw)));
   send_all env (puts_of_all env projectName entries);;
   lift (rmSync env tempFolder)) w.

(** The environment of [env_ok] with a store whose request number [n]
    fails. *)
Definition env_store_fails_at (n : nat) : Env :=
  mkEnv 1700000000000 ".example.com"
    (fun a b => a ++ "/" ++ b) (fun _ => None)
    (fun _ _ => Normal tt) (fun _ => Normal "{}") (fun _ => Normal (JObj ∅))
    (fun _ => false) Examples.quiet_exec
    (fun _ => Normal Examples.site) (fun _ => Normal tt)
    (fun i => if Nat.eqb i n then Some "InternalError: We encountered an internal error"
              else None).


End Site.

(* ================================================================== *)
(** ** A record store that can reject a write *)
(* ================================================================== *)

(** [Pipeline.startBuild] is the run against a record store that carries
    out every write. This module is the run as the code has it: each
    [await db...] can reject, the insert stands before the [try], and the
    two updates stand inside the [try] and inside the [catch]. *)
Module Fallible.
Import Js.
Export Site.

(** The record store as a run meets it: the rows of [projects], in the
    order a select returns them, and the writes that it does not carry out
    for a reason of its own (the connection, a timeout), with its answer. *)
Record Store : Type := mkStore {
  projects : list Project;
  db_fault : Write -> option string;
}.

(** A byte that continues a character of a UTF-8 text. *)
Definition is_continuation (c : ascii) : bool :=
  let n := nat_of_ascii c in (128 <=? n)%nat && (n <? 192)%nat.

(** The length of a UTF-8 text in characters, which is what
    [varchar(n)] counts. *)
Fixpoint char_length (s : string) : nat :=
  match s with
  | EmptyString => 0
  | String c r => ((if is_continuation c then 0 else 1) + char_length r)%nat
  end.

(** The answer of the store to a write that it does not carry out.
    [build_url] is [varchar(255)], [projectId] references [projects.id];
    the status texts fit [varchar(50)]. *)
Definition rejects (st : Store) (wr : Write) : option string :=
  match db_fault st wr with
  | Some e => Some e
  | None =>
      match wr with
      | Insert row =>
          if (255 <? char_length (build_url row))%nat
          then Some "error: value too long for type character varying(255)"
          else if decide (Db.projectId row ∈ map project_id (projects st))
          then None
          else Some "error: insert or update on table builds violates foreign key constraint"
      | SetStatus _ _ => None
      end
  end.

(** [await db.insert(builds).values(v).returning()]. A rejected insert
    leaves the rows as they are; whether it uses up a value of the
    identity sequence is not modelled, and nothing below depends on it. *)
Definition db_insert (st : Store) (v : NewBuild) : M Build := fun w =>
  let '(row, t) := Db.insert v (builds w) in
  match rejects st (Insert row) with
  | Some e => (Throw e, w)
  | None =>
      (Normal row,
       mkWorld (bucket w) (s3_log w) t (db_log w ++ [Insert row]) (console w))
  end.

(** [await db.update(builds).set({build_status}).where(eq(builds.id, i))];
    a rejected update changes nothing. *)
Definition db_update_status (st : Store) (i : Z) (status : string) : M unit := fun w =>
  match rejects st (SetStatus i status) with
  | Some e => (Throw e, w)
  | None => Pipeline.db_update_status i status w
  end.

(** The [try] block of [startBuild]. *)
Definition build_and_publish (st : Store) (env : Env) (buildId : Z)
    (projectName repo_url tempFolder : string) : M unit :=
  console_log [Text "⏳ Cloning..."];;
  lift (clone env repo_url tempFolder);;
  let pkgPath := path_join env tempFolder "package.json" in
  text ← lift (readFileSync env pkgPath);
  pkgJson ← lift (JSON_parse env text);
  fw ← lift (Detector.detectFramework (path_join env) (existsSync env) pkgJson tempFolder);
  lift (Executor.await
          (Executor.execPromise (exec env) ("cd " ++ tempFolder ++ " && npm install")));;
  lift (Executor.await
          (Executor.execPromise (exec env)
             ("cd " ++ tempFolder ++ " && " ++ Detector.buildCommand fw)));;
  deleteFolderFromR2 env (projectName ++ "/");;
  uploadDirToR2 env (path_join env tempFolder (Detector.outDir fw)) projectName;;
  lift (rmSync env tempFolder);;
  db_update_status st buildId "success";;
  console_log [Text "🎉 Build Successful!"].

(** [startBuild(projectId, projectName, repo_url)], run to the end or to
    the exception that leaves it. *)
Definition startBuild (st : Store) (env : Env) (projectId : Z)
    (projectName repo_url : string) : M unit :=
  inserted ← db_insert st (mkNewBuild projectId "pending" 1
                             ("https://" ++ projectName ++ BASE_URL env) "");
  console_log [Text "🆕 Build record created:"; Rows [inserted]];;
  let buildId := Db.id inserted in
  let tempFolder := tempFolder_of env projectName in
  console_log [Text ("📁 temp folder: " ++ tempFolder)];;
  try_catch
    (build_and_publish st env buildId projectName repo_url tempFolder)
    (fun err =>
       console_log [Text "❌ Build Failed"; Text err];;
       db_update_status st buildId "failed").

(** The row that the insert of a run creates. *)
Definition new_row (env : Env) (projectId : Z) (projectName : string) (status : string)
    (w : World) : Build :=
  mkBuild (next_id (builds w)) projectId status 1
          ("https://" ++ projectName ++ BASE_URL env) "".

(** A call of [startBuild] with the store and the environment it meets. *)
Record Run : Type := mkRun {
  run_store : Store;
  run_env : Env;
  run_projectId : Z;
  run_projectName : string;
  run_repo_url : string;
}.

(** Runs one after the other, each from the state the one before left,
    whether it returned or threw. *)
Fixpoint run_all (runs : list Run) (w : World) : World :=
  match runs with
  | [] => w
  | r :: rest =>
      run_all rest
        (startBuild (run_store r) (run_env r) (run_projectId r) (run_projectName r)
           (run_repo_url r) w).2
  end.

(** The detached task of the webhook. *)
Definition run_task (st : Store) (env : Env) (t : Webhook.Task) : M unit :=
  startBuild st env (Webhook.task_projectId t) (Webhook.task_projectName t)
    (Webhook.task_repo_url t).

Fixpoint run_tasks (st : Store) (env : Env) (ts : list Webhook.Task) : M unit :=
  match ts with
  | [] => mret tt
  | t :: rest => run_task st env t;; run_tasks st env rest
  end.

(** A whole webhook request, for a payload whose [repository.clone_url]
    is the string [repo_url] and a select that the store answers: the
    response is fixed when the handler returns; the started task runs
    afterwards, and nothing in the server reads how it ends. *)
Definition post_webhook (st : Store) (env : Env) (repo_url : string)
  : M Webhook.JsonResponse := fun w =>
  match Webhook.handler (projects st) repo_url w with
  | (Normal (response, tasks), w1) => (Normal response, snd (run_tasks st env tasks w1))
  | (Throw e, w1) => (Throw e, w1)
  end.

(** A store that holds the project of [Examples.acme] and carries out
    every write it can. *)
Definition store_ok : Store := mkStore [Examples.acme] (fun _ => None).

(** The same store, out of reach for every update of a status. *)
Definition store_updates_fail : Store :=
  mkStore [Examples.acme]
    (fun wr => match wr with
               | SetStatus _ _ => Some "NeonDbError: fetch failed"
               | Insert _ => None
               end).

(** A project name of 250 characters. *)
Definition long_name : string :=
  Eval vm_compute in fold_right String.append "" (repeat "abcdefghij" 25).

End Fallible.

(* ================================================================== *)
(** ** The routes of [GET] *)
(* ================================================================== *)

Module Routes.
Import Js.
Export Resolver.

(** What a [GET] is answered with. *)
Inductive Reply : Type :=
| HealthReply                 (* c.json({success: true}) *)
| Served (r : Response).      (* what the handler of [GET *] returns *)

(** First revision: [GET *] is the only route of [GET]. *)
Definition get_rev1 (fault : option string) (b : gmap string Object)
    (host : option string) (path : string) : Reply :=
  Served (serve_rev1 fault b host path).

(** Second revision: [GET /health] is registered before [GET *] and
    answers without calling the next handler, so the resolver never sees
    that path. *)
Definition get_rev2 (fault : option string) (b : gmap string Object)
    (host : option string) (path : string) : Reply :=
  if String.eqb path "/health" then HealthReply
  else Served (serve_rev2 fault b host path).

End Routes.

(* ================================================================== *)
(** ** Facts about strings *)
(* ================================================================== *)

Module StringFacts.

Lemma append_nil (b : string) : "" ++ b = b.
Proof. reflexivity. Qed.

Lemma append_cons (x : ascii) (a b : string) : String x a ++ b = String x (a ++ b).
Proof. reflexivity. Qed.

Lemma append_assoc (a b c : string) : (a ++ b) ++ c = a ++ (b ++ c).
Proof.
  induction a as [|x a IH]; [reflexivity|].
  rewrite !append_cons. now rewrite IH.
Qed.

Lemma prefix_append (a b : string) : String.prefix a (a ++ b) = true.
Proof.
  induction a as [|x a IH].
  - rewrite append_nil. now destruct b.
  - rewrite append_cons. simpl.
    destruct (ascii_dec x x) as [_|ne]; [exact IH | now destruct ne].
Qed.

Lemma prefix_nil_r (a : string) : String.prefix a "" = true -> a = "".
Proof. destruct a; simpl; [reflexivity | discriminate]. Qed.

Lemma prefix_cons_inv (x y : ascii) (a s : string) :
  String.prefix (String x a) (String y s) = true -> x = y /\ String.prefix a s = true.
Proof. simpl. destruct (ascii_dec x y); [auto | discriminate]. Qed.

Lemma prefix_cons_ne (x y : ascii) (a s : string) :
  x <> y -> String.prefix (String x a) (String y s) = false.
Proof. intros ne. simpl. destruct (ascii_dec x y); [contradiction | reflexivity]. Qed.

Lemma substring_all (s : string) : String.substring 0 (String.length s) s = s.
Proof. induction s as [|x s IH]; simpl; [reflexivity | now rewrite IH]. Qed.

Lemma substring_skip (a s : string) (n : nat) :
  String.substring (String.length a) n (a ++ s) = String.substring 0 n s.
Proof.
  induction a as [|x a IH]; [reflexivity|].
  rewrite append_cons. exact IH.
Qed.

Lemma length_append (a b : string) :
  String.length (a ++ b) = (String.length a + String.length b)%nat.
Proof.
  induction a as [|x a IH]; [reflexivity|].
  rewrite append_cons. simpl. now rewrite IH.
Qed.

End StringFacts.

(* ================================================================== *)
(** ** Facts about requests to the store *)
(* ================================================================== *)

Module StoreFacts.
Import Js Refinement.

Lemma agree_refl (w : World) : agree w w.
Proof. repeat split. Qed.

Lemma bind_unfold {A B : Type} (m : M A) (f : A -> M B) (w : World) :
  (m ≫= f) w =
  match m w with
  | (Normal a, w') => f a w'
  | (Throw e, w') => (Throw e, w')
  end.
Proof. reflexivity. Qed.

(** The delete stage sends no upload. *)
Lemma delete_requests_no_put (prefix : string) (b : gmap string Object) :
  Forall (fun c => is_put c = false) (delete_requests prefix b).
Proof.
  unfold delete_requests. constructor; [reflexivity|].
  apply Forall_forall. intros c (k & -> & _)%list_elem_of_fmap. reflexivity.
Qed.

(** Induction on a tree, with the hypothesis for every child. *)
Lemma entry_nested_ind (P : entry -> Prop)
    (HFile : forall name content, P (File name content))
    (HDir : forall name children, Forall P children -> P (Dir name children)) :
  forall e, P e.
Proof.
  refine (fix rec (e : entry) : P e :=
            match e with
            | File name content => HFile name content
            | Dir name children =>
                HDir name children
                  ((fix all (l : list entry) : Forall P l :=
                      match l with
                      | [] => @List.Forall_nil _ P
                      | x :: rest => @List.Forall_cons _ P x rest (rec x) (all rest)
                      end) children)
            end).
Qed.

Section WithEnv.
Variable env : Env.

Lemma s3_send_agree (c : Command) (w v : World) :
  agree w v -> agree_run (s3_send env c w) (s3_send env c v).
Proof.
  intros (Hb & Hl & Ht & Hd). unfold s3_send. rewrite Hl.
  destruct (s3_fault env _); repeat split; simpl; congruence.
Qed.

Lemma console_log_agree (args : list LogArg) (w : World) :
  agree (console_log args w).2 w.
Proof. repeat split. Qed.

Lemma send_all_agree (cs : list Command) (w v : World) :
  agree w v -> agree_run (send_all env cs w) (send_all env cs v).
Proof.
  revert w v. induction cs as [|c cs IH]; intros w v Hwv; simpl.
  - split; [reflexivity | exact Hwv].
  - rewrite !bind_unfold.
    destruct (s3_send_agree c w v Hwv) as [Hr Ha].
    destruct (s3_send env c w) as [[[]|e] w1], (s3_send env c v) as [[[]|e'] v1];
      simpl in *; try discriminate.
    + apply IH, Ha.
    + split; [exact Hr | exact Ha].
Qed.

(** The loop of [deleteFolderFromR2] sends one [DeleteObject] per key;
    the log lines in between do not reach the store. *)
Lemma delete_each_send_all (keys : list string) (w v : World) :
  agree w v ->
  agree_run (delete_each env keys w) (send_all env (map DeleteObjectCommand keys) v).
Proof.
  revert w v. induction keys as [|k keys IH]; intros w v Hwv; simpl.
  - split; [reflexivity | exact Hwv].
  - rewrite !bind_unfold.
    destruct (s3_send_agree (DeleteObjectCommand k) w v Hwv) as [Hr Ha].
    destruct (s3_send env _ w) as [[[]|e] w1], (s3_send env _ v) as [[[]|e'] v1];
      simpl in *; try discriminate.
    + apply IH. destruct Ha as (? & ? & ? & ?). repeat split; simpl; assumption.
    + split; [exact Hr | exact Ha].
Qed.

Lemma send_all_app (cs ds : list Command) (w : World) :
  send_all env (cs ++ ds) w = (send_all env cs;; send_all env ds) w.
Proof.
  revert w. induction cs as [|c cs IH]; intros w; simpl.
  - reflexivity.
  - rewrite !bind_unfold. destruct (s3_send env c w) as [[[]|e] w1]; [|reflexivity].
    rewrite IH. reflexivity.
Qed.

(** Uploading an entry is sending its [PutObject] requests in order. *)
Lemma upload_entry_send_all (e : entry) :
  forall (subdomain : string) (w : World),
    upload_entry env subdomain e w = send_all env (puts_of env subdomain e) w.
Proof.
  induction e as [name content | name children IH] using entry_nested_ind;
    intros subdomain w.
  - simpl. rewrite bind_unfold. destruct (s3_send env _ w) as [[[]|e] w1]; reflexivity.
  - simpl. revert w. induction IH as [|x rest Hx _ IHrest]; intros w.
    + reflexivity.
    + simpl. rewrite send_all_app, !bind_unfold, Hx.
      destruct (send_all env _ w) as [[[]|e] w1]; [apply IHrest | reflexivity].
Qed.

Lemma upload_each_send_all (subdomain : string) (l : list entry) (w : World) :
  upload_each env subdomain l w = send_all env (puts_of_all env subdomain l) w.
Proof.
  revert w. induction l as [|x rest IH]; intros w; simpl.
  - reflexivity.
  - unfold puts_of_all. simpl. rewrite send_all_app, !bind_unfold, upload_entry_send_all.
    destruct (send_all env _ w) as [[[]|e] w1]; [apply IH | reflexivity].
Qed.

Lemma s3_send_frame (c : Command) (w : World) :
  builds (s3_send env c w).2 = builds w /\
  db_log (s3_send env c w).2 = db_log w /\
  console (s3_send env c w).2 = console w.
Proof. unfold s3_send. destruct (s3_fault env _); auto. Qed.

Lemma send_all_frame (cs : list Command) (w : World) :
  builds (send_all env cs w).2 = builds w /\
  db_log (send_all env cs w).2 = db_log w /\
  console (send_all env cs w).2 = console w.
Proof.
  revert w. induction cs as [|c cs IH]; intros w; simpl; [auto|].
  rewrite bind_unfold. pose proof (s3_send_frame c w) as (Hb & Hd & Hc).
  destruct (s3_send env c w) as [[[]|e] w1]; simpl in *; [|auto].
  destruct (IH w1) as (? & ? & ?). repeat split; congruence.
Qed.

(** When every request is accepted, the store has carried all of them out. *)
Lemma send_all_normal (cs : list Command) (w w' : World) :
  send_all env cs w = (Normal tt, w') ->
  bucket w' = apply_all cs (bucket w) /\ s3_log w' = (s3_log w ++ cs)%list.
Proof.
  revert w. induction cs as [|c cs IH]; intros w; simpl.
  - intros [= <-]. now rewrite app_nil_r.
  - rewrite bind_unfold. unfold s3_send at 1.
    destruct (s3_fault env _); [discriminate|].
    intros H. apply IH in H as [Hb Hl]. simpl in *.
    split; [exact Hb | now rewrite Hl, <- app_assoc].
Qed.

(** When a request fails, the ones before it were carried out, the failing
    one and the ones after it were not. *)
Lemma send_all_throw (cs : list Command) (w w' : World) (e : string) :
  send_all env cs w = (Throw e, w') ->
  exists done c rest,
    cs = (done ++ c :: rest)%list /\
    bucket w' = apply_all done (bucket w) /\
    s3_log w' = (s3_log w ++ done ++ [c])%list /\
    s3_fault env (length (s3_log w) + length done) = Some e.
Proof.
  revert w. induction cs as [|c cs IH]; intros w; simpl.
  - discriminate.
  - rewrite bind_unfold. unfold s3_send at 1.
    destruct (s3_fault env _) as [e'|] eqn:Hf.
    + intros [= <- <-]. exists [], c, cs. simpl.
      rewrite Nat.add_0_r. auto.
    + intros H. apply IH in H as (done & c' & rest & -> & Hb & Hl & Hfault).
      simpl in *. exists (c :: done), c', rest. simpl.
      repeat split; [exact Hb | now rewrite Hl, <- app_assoc |].
      rewrite length_app in Hfault. simpl in Hfault.
      now replace (length (s3_log w) + S (length done))%nat
        with (length (s3_log w) + 1 + length done)%nat by lia.
Qed.

(** Without faults every request goes through. *)
Lemma send_all_no_fault (cs : list Command) (w : World) :
  (forall n, s3_fault env n = None) ->
  send_all env cs w =
  (Normal tt,
   mkWorld (apply_all cs (bucket w)) (s3_log w ++ cs) (builds w) (db_log w) (console w)).
Proof.
  intros Hnone. revert w. induction cs as [|c cs IH]; intros w; simpl.
  - rewrite app_nil_r. now destruct w.
  - rewrite bind_unfold. unfold s3_send at 1. rewrite Hnone, IH. simpl.
    now rewrite <- app_assoc.
Qed.

Lemma agree_bind {A B : Type} (m m' : M A) (f f' : A -> M B) (w v : World) :
  agree_run (m w) (m' v) ->
  (forall a w1 v1, agree w1 v1 -> agree_run (f a w1) (f' a v1)) ->
  agree_run ((m ≫= f) w) ((m' ≫= f') v).
Proof.
  intros [Hr Ha] Hf. rewrite !bind_unfold.
  destruct (m w) as [[a|e] w1], (m' v) as [[a'|e'] v1]; simpl in *; try discriminate.
  - injection Hr as <-. apply Hf, Ha.
  - injection Hr as <-. split; [reflexivity | exact Ha].
Qed.

Lemma lift_agree {A : Type} (c : completion A) (w v : World) :
  agree w v -> agree_run (lift c w) (lift c v).
Proof. intros H. split; [reflexivity | exact H]. Qed.

Lemma console_log_agree_run (args : list LogArg) (w v : World) :
  agree w v -> agree_run (console_log args w) ((mret tt : M unit) v).
Proof. intros (? & ? & ? & ?). repeat split; assumption. Qed.

(** [deleteFolderFromR2] sends the listing and one [DeleteObject] for
    every key of its first page. *)
Lemma deleteFolderFromR2_send_all (prefix : string) (w v : World) :
  agree w v ->
  agree_run (deleteFolderFromR2 env prefix w)
            (send_all env (delete_requests prefix (bucket v)) v).
Proof.
  intros Hwv. unfold deleteFolderFromR2, delete_requests, s3_list. simpl send_all.
  rewrite !bind_unfold.
  destruct (s3_send_agree (ListObjectsV2Command prefix) w v Hwv) as [Hr Ha].
  destruct (s3_send env _ w) as [[[]|e] w1], (s3_send env _ v) as [[[]|e'] v1];
    simpl in *; try discriminate; [|split; [exact Hr | exact Ha]].
  assert (Hb : bucket w = bucket v) by apply Hwv.
  unfold list_contents. rewrite Hb.
  destruct (first_page (bucket v) prefix) as [|k keys] eqn:Hpage.
  - simpl. now apply console_log_agree_run.
  - rewrite bind_unfold. simpl console_log.
    apply delete_each_send_all.
    destruct Ha as (? & ? & ? & ?). repeat split; assumption.
Qed.

End WithEnv.
End StoreFacts.

(* ================================================================== *)
(** ** The [try] block refines to its list of requests *)
(* ================================================================== *)

Module PublishFacts.
Import Js Refinement StoreFacts.

Section WithEnv.
Variable env : Env.

Lemma db_update_status_agree (i : Z) (status : string) (w v : World) :
  agree w v -> agree_run (db_update_status i status w) (db_update_status i status v).
Proof.
  intros (Hb & Hl & Ht & Hd). unfold db_update_status.
  repeat split; simpl; congruence.
Qed.

Lemma uploadDirToR2_send_all (dirPath subdomain : string) (w v : World) :
  agree w v ->
  agree_run (uploadDirToR2 env dirPath subdomain w)
            ((entries ← lift (readdirSync env dirPath);
              send_all env (puts_of_all env subdomain entries)) v).
Proof.
  intros Hwv. unfold uploadDirToR2.
  apply agree_bind; [now apply lift_agree|].
  intros entries w1 v1 H1. rewrite upload_each_send_all. now apply send_all_agree.
Qed.

Lemma bind_assoc {A B C : Type} (m : M A) (f : A -> M B) (g : B -> M C) (w : World) :
  ((m ≫= f) ≫= g) w = (m ≫= (fun x => f x ≫= g)) w.
Proof. rewrite !bind_unfold. now destruct (m w) as [[a|e] w1]. Qed.

Lemma bind_lift {A B : Type} (c : completion A) (f : A -> M B) (w : World) :
  (lift c ≫= f) w = match c with Normal a => f a w | Throw e => (Throw e, w) end.
Proof. now destruct c. Qed.

Lemma bind_console_log {B : Type} (args : list LogArg) (f : unit -> M B) (w : World) :
  (console_log args ≫= f) w =
  f tt (mkWorld (bucket w) (s3_log w) (builds w) (db_log w) (console w ++ [args])).
Proof. reflexivity. Qed.

Lemma build_and_publish_publish (buildId : Z) (projectName repo_url tempFolder : string)
    (w v : World) :
  agree w v ->
  agree_run (build_and_publish env buildId projectName repo_url tempFolder w)
            (publish env buildId projectName repo_url tempFolder v).
Proof.
  intros Hwv. unfold build_and_publish, publish, prepare.
  rewrite bind_console_log.
  set (w0 := mkWorld _ _ _ _ _).
  assert (H0 : agree w0 v) by (destruct Hwv as (? & ? & ? & ?); repeat split; assumption).
  clearbody w0. clear Hwv w.
  rewrite !bind_lift.
  destruct (clone env repo_url tempFolder) as [[]|e]; [|split; [reflexivity | exact H0]].
  cbv beta iota; try rewrite !bind_lift.
  destruct (readFileSync env _) as [text|e]; [|split; [reflexivity | exact H0]].
  cbv beta iota; try rewrite !bind_lift.
  destruct (JSON_parse env text) as [pkgJson|e]; [|split; [reflexivity | exact H0]].
  cbv beta iota; try rewrite !bind_lift.
  destruct (Detector.detectFramework _ _ pkgJson tempFolder) as [fw|e];
    [|split; [reflexivity | exact H0]].
  cbv beta iota; try rewrite !bind_lift.
  destruct (Executor.await _) as [out1|e]; [|split; [reflexivity | exact H0]].
  cbv beta iota; try rewrite !bind_lift.
  destruct (Executor.await _) as [out2|e]; [|split; [reflexivity | exact H0]].
  cbv beta iota; try rewrite !bind_lift; cbv beta iota.
  apply agree_bind; [now apply deleteFolderFromR2_send_all|].
  intros [] w1 v1 H1.
  unfold uploadDirToR2. rewrite bind_assoc, !bind_lift.
  destruct (readdirSync env _) as [entries|e]; [|split; [reflexivity | exact H1]].
  apply agree_bind; [rewrite upload_each_send_all; now apply send_all_agree|].
  intros [] w2 v2 H2.
  apply agree_bind; [now apply lift_agree|].
  intros [] w3 v3 H3.
  destruct H3 as (Hb & Hl & Ht & Hd).
  repeat split; simpl; congruence.
Qed.

End WithEnv.
End PublishFacts.

(* ================================================================== *)
(** ** Facts about the bucket *)
(* ================================================================== *)

Module BucketFacts.
Import Js Refinement.

Lemma apply_all_app (cs ds : list Command) (b : gmap string Object) :
  apply_all (cs ++ ds) b = apply_all ds (apply_all cs b).
Proof. unfold apply_all. apply foldl_app. Qed.

(** Deleting a list of keys removes exactly those keys. *)
Lemma lookup_apply_all_delete (keys : list string) (b : gmap string Object) (k : string) :
  apply_all (map DeleteObjectCommand keys) b !! k =
  if decide (k ∈ keys) then None else b !! k.
Proof.
  revert b. induction keys as [|x keys IH]; intros b; simpl.
  - reflexivity.
  - change (apply_all (DeleteObjectCommand x :: map DeleteObjectCommand keys) b)
      with (apply_all (map DeleteObjectCommand keys) (delete x b)).
    rewrite IH. destruct (decide (k ∈ keys)) as [Hin|Hnin].
    + rewrite decide_True; [reflexivity | now right].
    + destruct (decide (k = x)) as [->|Hne].
      * rewrite decide_True; [apply lookup_delete_eq | now left].
      * rewrite decide_False; [now apply lookup_delete_ne|].
        intros [->|?]%elem_of_cons; contradiction.
Qed.

(** The sorted listing holds the keys of the namespace, each once. *)
Lemma elem_of_keys_with_prefix (b : gmap string Object) (prefix k : string) :
  k ∈ keys_with_prefix b prefix <-> k ∈ namespace b prefix.
Proof.
  unfold keys_with_prefix, namespace.
  rewrite merge_sort_Permutation, list_elem_of_filter, elem_of_filter, elem_of_elements.
  reflexivity.
Qed.

Lemma length_keys_with_prefix (b : gmap string Object) (prefix : string) :
  length (keys_with_prefix b prefix) = size (namespace b prefix).
Proof.
  unfold keys_with_prefix, namespace.
  rewrite merge_sort_Permutation. unfold size, set_size. simpl.
  apply Permutation_length, NoDup_Permutation.
  - apply NoDup_filter, NoDup_elements.
  - apply NoDup_elements.
  - intros k. now rewrite list_elem_of_filter, !elem_of_elements, elem_of_filter.
Qed.

Lemma first_page_all (b : gmap string Object) (prefix : string) :
  (length (keys_with_prefix b prefix) <= MaxKeys)%nat ->
  first_page b prefix = keys_with_prefix b prefix.
Proof. intros H. unfold first_page. now apply take_ge. Qed.

Lemma apply_delete_requests (prefix : string) (b : gmap string Object) (k : string) :
  apply_all (delete_requests prefix b) b !! k =
  if decide (k ∈ first_page b prefix) then None else b !! k.
Proof. unfold delete_requests. apply lookup_apply_all_delete. Qed.

(** A namespace that fits one page is empty after the delete stage. *)
Lemma namespace_after_delete (prefix : string) (b : gmap string Object) :
  (length (keys_with_prefix b prefix) <= MaxKeys)%nat ->
  namespace (apply_all (delete_requests prefix b) b) prefix = ∅.
Proof.
  intros Hfit. apply set_eq. intros k. split; [|set_solver].
  unfold namespace at 1. rewrite elem_of_filter, elem_of_dom.
  intros [Hp [o Ho]]. rewrite apply_delete_requests, first_page_all in Ho by exact Hfit.
  destruct (decide _) as [|Hnin]; [discriminate|].
  exfalso. apply Hnin, elem_of_keys_with_prefix.
  unfold namespace. rewrite elem_of_filter, elem_of_dom. eauto.
Qed.

(** Keys outside the namespace are not touched by the delete stage. *)
Lemma delete_requests_other (prefix : string) (b : gmap string Object) (k : string) :
  ~ has_prefix prefix k ->
  apply_all (delete_requests prefix b) b !! k = b !! k.
Proof.
  intros Hk. rewrite apply_delete_requests.
  destruct (decide _) as [Hin|]; [|reflexivity].
  exfalso. apply Hk. unfold first_page in Hin. apply elem_of_take in Hin as (i & Hin & _).
  apply list_elem_of_lookup_2, elem_of_keys_with_prefix in Hin.
  unfold namespace in Hin. now apply elem_of_filter in Hin as [? _].
Qed.

(** A list of [PutObject] requests acts as a map laid over the bucket. *)
Lemma apply_all_puts (cs : list Command) (b : gmap string Object) :
  Forall (fun c => is_put c = true) cs ->
  apply_all cs b = apply_all cs ∅ ∪ b.
Proof.
  intros Hputs. revert b. induction Hputs as [|c cs Hc _ IH]; intros b.
  - simpl. now rewrite (left_id_L ∅ (∪)).
  - destruct c as [| |k body ct|]; try discriminate.
    change (apply_all (PutObjectCommand k body ct :: cs) b)
      with (apply_all cs (<[k := mkObject body (Some ct)]> b)).
    change (apply_all (PutObjectCommand k body ct :: cs) ∅)
      with (apply_all cs (<[k := mkObject body (Some ct)]> ∅)).
    rewrite IH, (IH (<[k := _]> ∅)).
    rewrite (insert_union_singleton_l b), insert_empty.
    now rewrite (assoc_L (∪)).
Qed.

(** Sending the same [PutObject] requests again changes nothing. *)
Lemma apply_all_puts_twice (cs : list Command) (b : gmap string Object) :
  Forall (fun c => is_put c = true) cs ->
  apply_all cs (apply_all cs b) = apply_all cs b.
Proof.
  intros Hputs. rewrite (apply_all_puts cs (apply_all cs b) Hputs).
  rewrite (apply_all_puts cs b Hputs).
  now rewrite (assoc_L (∪)), (idemp_L (∪)).
Qed.

Lemma dom_apply_all_puts (cs : list Command) (b : gmap string Object) :
  Forall (fun c => is_put c = true) cs ->
  dom (apply_all cs b) = list_to_set (map command_key cs) ∪ dom b.
Proof.
  intros Hputs. revert b. induction Hputs as [|c cs Hc _ IH]; intros b.
  - simpl. set_solver.
  - destruct c as [| |k body ct|]; try discriminate.
    change (apply_all (PutObjectCommand k body ct :: cs) b)
      with (apply_all cs (<[k := mkObject body (Some ct)]> b)).
    rewrite IH, dom_insert_L. simpl. set_solver.
Qed.

End BucketFacts.

(* ================================================================== *)
(** ** Facts about the walk of the output directory *)
(* ================================================================== *)

Module WalkFacts.
Import Js Refinement StringFacts StoreFacts.

Section WithEnv.
Variable env : Env.

Lemma puts_of_is_put (e : entry) :
  forall subdomain, Forall (fun c => is_put c = true) (puts_of env subdomain e).
Proof.
  induction e as [name content | name children IH] using entry_nested_ind;
    intros subdomain; simpl.
  - repeat constructor.
  - induction IH as [|x rest Hx _ IHrest]; simpl; [constructor|].
    apply Forall_app. split; [apply Hx | exact IHrest].
Qed.

Lemma puts_of_all_is_put (subdomain : string) (l : list entry) :
  Forall (fun c => is_put c = true) (puts_of_all env subdomain l).
Proof.
  unfold puts_of_all. induction l as [|x rest IH]; simpl; [constructor|].
  apply Forall_app. split; [apply puts_of_is_put | exact IH].
Qed.

(** One request per file. *)
Lemma length_puts_of (e : entry) :
  forall subdomain, length (puts_of env subdomain e) = count_files e.
Proof.
  induction e as [name content | name children IH] using entry_nested_ind;
    intros subdomain; simpl.
  - reflexivity.
  - induction IH as [|x rest Hx _ IHrest]; simpl; [reflexivity|].
    now rewrite length_app, Hx, IHrest.
Qed.

Lemma length_puts_of_all (subdomain : string) (l : list entry) :
  length (puts_of_all env subdomain l) = count_files_in l.
Proof.
  unfold puts_of_all, count_files_in. induction l as [|x rest IH]; simpl; [reflexivity|].
  now rewrite length_app, length_puts_of, IH.
Qed.

(** The key of each request is the namespace, a slash, and the path of
    the file relative to the uploaded directory. *)
Lemma keys_puts_of (e : entry) :
  forall subdomain,
    map command_key (puts_of env subdomain e) =
    map (fun p => subdomain ++ "/" ++ p) (rel_paths e).
Proof.
  induction e as [name content | name children IH] using entry_nested_ind;
    intros subdomain; simpl.
  - reflexivity.
  - rewrite map_map.
    induction IH as [|x rest Hx _ IHrest]; simpl; [reflexivity|].
    rewrite !map_app, Hx, IHrest. f_equal.
    apply map_ext. intros p. now rewrite append_assoc.
Qed.

Lemma keys_puts_of_all (subdomain : string) (l : list entry) :
  map command_key (puts_of_all env subdomain l) =
  map (fun p => subdomain ++ "/" ++ p) (rel_paths_in l).
Proof.
  unfold puts_of_all, rel_paths_in. induction l as [|x rest IH]; simpl; [reflexivity|].
  now rewrite !map_app, keys_puts_of, IH.
Qed.

Lemma keys_puts_of_all_prefix (subdomain : string) (l : list entry) (k : string) :
  k ∈ map command_key (puts_of_all env subdomain l) -> has_prefix (subdomain ++ "/") k.
Proof.
  rewrite keys_puts_of_all. intros (p & -> & _)%list_elem_of_fmap.
  unfold has_prefix. rewrite <- append_assoc, prefix_append. exact I.
Qed.

End WithEnv.
End WalkFacts.

(* ================================================================== *)
(** ** Facts about a whole run *)
(* ================================================================== *)

Module RunFacts.
Import Js Refinement StringFacts StoreFacts PublishFacts BucketFacts WalkFacts.

Lemma update_status_fresh (rs : list Build) (row : Build) (n : Z) (status : string) :
  Forall (fun r => id r < id row) rs ->
  rows (update_status (id row) status (mkBuilds (rs ++ [row]) n)) =
  (rs ++ [set_status status row])%list.
Proof.
  intros Hlt. unfold update_status. simpl. rewrite map_app. simpl.
  rewrite Z.eqb_refl. f_equal.
  induction Hlt as [|r rs Hr _ IH]; simpl; [reflexivity|].
  rewrite IH. destruct (Z.eqb_spec (id r) (id row)); [lia | reflexivity].
Qed.

Section WithEnv.
Variable env : Env.

Lemma startBuild_unfold (projectId : Z) (projectName repo_url : string) (w : World) :
  startBuild env projectId projectName repo_url w =
  try_catch
    (build_and_publish env (next_id (builds w)) projectName repo_url
       (tempFolder_of env projectName))
    (on_failure (next_id (builds w)))
    (try_entry env projectId projectName w).
Proof. reflexivity. Qed.

(** [publish] ends in one of the six ways of [publish_outcome]. *)
Lemma publish_ends (buildId : Z) (projectName repo_url tempFolder : string) (v : World) :
  publish_outcome env buildId projectName repo_url tempFolder v
    (publish env buildId projectName repo_url tempFolder v).1
    (publish env buildId projectName repo_url tempFolder v).2.
Proof.
  unfold publish. rewrite bind_lift.
  destruct (prepare env repo_url tempFolder) as [fw|e] eqn:Hprep;
    [|simpl; now apply prepare_failed].
  rewrite bind_unfold.
  destruct (send_all env _ v) as [[[]|e] v1] eqn:Hdel;
    [|simpl; eapply delete_failed; eassumption].
  rewrite bind_lift.
  destruct (readdirSync env _) as [entries|e] eqn:Hdir;
    [|simpl; eapply readdir_failed; eassumption].
  rewrite bind_unfold.
  destruct (send_all env _ v1) as [[[]|e] v2] eqn:Hup;
    [|simpl; eapply upload_failed; eassumption].
  rewrite bind_lift.
  destruct (rmSync env tempFolder) as [[]|e] eqn:Hrm;
    [|simpl; eapply cleanup_failed; eassumption].
  simpl. eapply published; eassumption.
Qed.

(** A run never throws; it ends as [publish] does, followed by the
    [catch] block when [publish] throws. *)
Lemma startBuild_outcome (projectId : Z) (projectName repo_url : string) (w : World) :
  let i := next_id (builds w) in
  let r := publish env i projectName repo_url (tempFolder_of env projectName)
             (try_entry env projectId projectName w) in
  let s := startBuild env projectId projectName repo_url w in
  s.1 = Normal tt /\
  match r.1 with
  | Normal _ => agree s.2 r.2
  | Throw e =>
      agree s.2 (db_update_status i "failed" r.2).2 /\
      last (console s.2) = Some [Text "❌ Build Failed"; Text e]
  end.
Proof.
  intros i r s. subst s r. rewrite startBuild_unfold. unfold try_catch. fold i.
  destruct (build_and_publish_publish env i projectName repo_url
              (tempFolder_of env projectName) _ _
              (agree_refl (try_entry env projectId projectName w))) as [Hr Ha].
  destruct (build_and_publish env i _ _ _ _) as [[[]|e] w4],
           (publish env i _ _ _ _) as [[[]|e'] v4]; simpl in *; try discriminate.
  - split; [reflexivity | exact Ha].
  - injection Hr as <-. split; [reflexivity|]. split.
    + destruct Ha as (? & ? & ? & ?). repeat split; simpl; congruence.
    + apply last_snoc.
Qed.

End WithEnv.
End RunFacts.

(* ================================================================== *)
(** ** Facts about the record store during a run *)
(* ================================================================== *)

Module RecordFacts.
Import Js Refinement StoreFacts PublishFacts RunFacts.

Section WithEnv.
Variable env : Env.

Lemma send_all_frame_eq (cs : list Command) (v v1 : World) (r : completion unit) :
  send_all env cs v = (r, v1) ->
  builds v1 = builds v /\ db_log v1 = db_log v /\ console v1 = console v.
Proof. intros H. pose proof (send_all_frame env cs v) as F. now rewrite H in F. Qed.

(** The record store sees one write from [publish]: the success status,
    and only when every stage went through. *)
Lemma publish_db (buildId : Z) (projectName repo_url tempFolder : string)
    (v v' : World) (r : completion unit) :
  publish_outcome env buildId projectName repo_url tempFolder v r v' ->
  match r with
  | Normal _ =>
      builds v' = update_status buildId "success" (builds v) /\
      db_log v' = (db_log v ++ [SetStatus buildId "success"])%list
  | Throw _ => builds v' = builds v /\ db_log v' = db_log v
  end.
Proof.
  intros H. destruct H;
    repeat match goal with
           | H : send_all env _ _ = _ |- _ =>
               apply send_all_frame_eq in H as (? & ? & ?)
           end; simpl; split; congruence.
Qed.

(** The two writes of a run; the status of the second one follows how
    the [try] block ended. *)
Lemma startBuild_record (projectId : Z) (projectName repo_url : string) (w : World) :
  let s := startBuild env projectId projectName repo_url w in
  let row := pending_row env projectId projectName w in
  let entry := try_entry env projectId projectName w in
  let status :=
    final_status (build_and_publish env (id row) projectName repo_url
                    (tempFolder_of env projectName) entry).1 in
  s.1 = Normal tt /\
  builds s.2 = update_status (id row) status (builds entry) /\
  db_log s.2 = (db_log w ++ [Insert row; SetStatus (id row) status])%list.
Proof.
  intros s row entry status. subst s status.
  change (id row) with (next_id (builds w)).
  destruct (build_and_publish_publish env (next_id (builds w)) projectName repo_url
              (tempFolder_of env projectName) entry entry (agree_refl entry)) as [-> _].
  destruct (startBuild_outcome env projectId projectName repo_url w) as [Hn Hs].
  pose proof (publish_ends env (next_id (builds w)) projectName repo_url
                (tempFolder_of env projectName) entry) as Hout.
  apply publish_db in Hout. fold entry in Hs.
  destruct (publish env _ _ _ _ entry) as [[[]|e] v']; simpl in Hs, Hout.
  - destruct Hs as (_ & _ & Hb & Hd), Hout as [Hb' Hd'].
    repeat split; [exact Hn | now rewrite Hb, Hb' |].
    rewrite Hd, Hd'. simpl. now rewrite <- app_assoc.
  - destruct Hs as [(_ & _ & Hb & Hd) _], Hout as [Hb' Hd'].
    repeat split; [exact Hn | |].
    + rewrite Hb. simpl. now rewrite Hb'.
    + rewrite Hd. simpl. rewrite Hd'. simpl. now rewrite <- app_assoc.
Qed.

Lemma startBuild_db (projectId : Z) (projectName repo_url : string) (w : World) :
  let s := startBuild env projectId projectName repo_url w in
  let row := pending_row env projectId projectName w in
  exists status,
    s.1 = Normal tt /\
    (status = "success" \/ status = "failed") /\
    builds s.2 =
      update_status (id row) status (builds (try_entry env projectId projectName w)) /\
    db_log s.2 = (db_log w ++ [Insert row; SetStatus (id row) status])%list.
Proof.
  intros s row.
  destruct (startBuild_record projectId projectName repo_url w) as (Hn & Hb & Hd).
  eexists. split; [exact Hn|]. split; [|split; [exact Hb | exact Hd]].
  destruct (build_and_publish env _ _ _ _ _).1; [now left | now right].
Qed.

Lemma find_fresh (rs : list Build) (row : Build) (n : Z) :
  Forall (fun r => id r < id row) rs ->
  Db.find (id row) (mkBuilds (rs ++ [row]) n) = Some row.
Proof.
  intros Hlt. unfold Db.find. simpl.
  induction Hlt as [|r rs Hr _ IH]; simpl.
  - now rewrite Z.eqb_refl.
  - destruct (Z.eqb_spec (id r) (id row)); [lia | exact IH].
Qed.

(** With a well-formed table, the record of the run is the last row and
    the row that its id finds. *)
Lemma startBuild_row (projectId : Z) (projectName repo_url : string) (w : World) :
  well_formed (builds w) ->
  let s := startBuild env projectId projectName repo_url w in
  let row := pending_row env projectId projectName w in
  let entry := try_entry env projectId projectName w in
  let status :=
    final_status (build_and_publish env (id row) projectName repo_url
                    (tempFolder_of env projectName) entry).1 in
  rows (builds s.2) = (rows (builds w) ++ [set_status status row])%list /\
  Db.find (id row) (builds s.2) = Some (set_status status row).
Proof.
  intros Hwf s row entry status.
  destruct (startBuild_record projectId projectName repo_url w) as (_ & Hb & _).
  fold s row entry status in Hb.
  assert (Hrows : rows (builds s.2) = (rows (builds w) ++ [set_status status row])%list).
  { rewrite Hb. apply (update_status_fresh _ row). exact Hwf. }
  split; [exact Hrows|]. unfold Db.find. rewrite Hrows.
  apply (find_fresh (rows (builds w)) (set_status status row) 0). exact Hwf.
Qed.

End WithEnv.

Lemma well_formed_after (t : Builds) (row : Build) (status : string) :
  well_formed t -> id row = next_id t ->
  well_formed (mkBuilds (rows t ++ [set_status status row]) (next_id t + 1)).
Proof.
  intros Hwf Hid. unfold well_formed in *. simpl. apply Forall_app. split.
  - eapply Forall_impl; [exact Hwf|]. simpl. intros; lia.
  - repeat constructor. simpl. lia.
Qed.

End RecordFacts.

(* ================================================================== *)
(** ** The build record through a run *)
(* ================================================================== *)

Module RecordProperties.
Import Js Refinement Examples StoreFacts PublishFacts RunFacts RecordFacts.

(** C5, as the code has it. The record of every run carries build number
    1; what grows from one run to the next is the id that the record
    store assigns. *)
Theorem build_number_is_one
    (env : Env) (projectId : Z) (projectName repo_url : string) (w : World) :
  let s := startBuild env projectId projectName repo_url w in
  exists r,
    last (rows (builds s.2)) = Some r /\
    id r = next_id (builds w) /\
    projectId = Db.projectId r /\
    build_number r = 1 /\
    next_id (builds s.2) = next_id (builds w) + 1.
Proof.
  intros s.
  destruct (startBuild_db env projectId projectName repo_url w)
    as (status & _ & _ & Hb & _).
  fold s in Hb. rewrite Hb. simpl. rewrite map_app. simpl. rewrite Z.eqb_refl.
  exists (set_status status (pending_row env projectId projectName w)).
  repeat split. apply last_snoc.
Qed.

(** C5 fails as stated: two runs for the same project, one after the
    other, leave two records with the same build number. *)
Lemma build_number_repeats :
  let w1 := (startBuild env_ok 7 "app" repo (world_with 0)).2 in
  let w2 := (startBuild env_ok 7 "app" repo w1).2 in
  exists r1 r2,
    rows (builds w2) = [r1; r2] /\
    Db.projectId r1 = Db.projectId r2 /\
    id r1 < id r2 /\
    ~ (build_number r1 < build_number r2).
Proof.
  eexists _, _. split; [vm_compute; reflexivity|].
  simpl. repeat split; lia.
Qed.

End RecordProperties.

(* ================================================================== *)
(** ** Failure of a stage *)
(* ================================================================== *)

Module FailureProperties.
Import Js Refinement Examples StoreFacts PublishFacts RunFacts RecordFacts.

Section WithEnv.
Variable env : Env.

(** [prepare] throws exactly when one of its stages fails, with the text
    of that stage. *)
Lemma prepare_fails_iff (repo_url tempFolder e : string) :
  prepare env repo_url tempFolder = Throw e <-> prepare_fails env repo_url tempFolder e.
Proof.
  unfold prepare, Executor.await. split.
  - destruct (clone env repo_url tempFolder) as [[]|e1] eqn:H1;
      [|intros [= ->]; now apply clone_fails].
    destruct (readFileSync env _) as [text|e2] eqn:H2;
      [|intros [= ->]; eapply manifest_read_fails; eassumption].
    destruct (JSON_parse env text) as [pkgJson|e3] eqn:H3;
      [|intros [= ->]; eapply manifest_parse_fails; eassumption].
    destruct (Detector.detectFramework _ _ pkgJson tempFolder) as [fw|e4] eqn:H4;
      [|intros [= ->]; eapply detection_fails; eassumption].
    destruct (Executor.execPromise (exec env) ("cd " ++ tempFolder ++ " && npm install"))
      as [out1|e5] eqn:H5; cbv beta iota;
      [|intros [= ->]; eapply install_fails; eassumption].
    destruct (Executor.execPromise (exec env)
                ("cd " ++ tempFolder ++ " && " ++ Detector.buildCommand fw))
      as [out2|e6] eqn:H6; cbv beta iota;
      [intros [=] | intros [= ->]; eapply build_fails; eassumption].
  - intros H. destruct H;
      repeat match goal with
             | H : _ = _ |- _ => rewrite H; clear H; cbv beta iota
             end; reflexivity.
Qed.

(** [publish] ends in no other way than [publish_outcome] says. *)
Lemma publish_outcome_sound (buildId : Z) (projectName repo_url tempFolder : string)
    (v v' : World) (r : completion unit) :
  publish_outcome env buildId projectName repo_url tempFolder v r v' ->
  publish env buildId projectName repo_url tempFolder v = (r, v').
Proof.
  intros H. unfold publish.
  destruct H as [e Hp | fw e v1 Hp Hd | fw e v1 Hp Hd Hr
                | fw entries e v1 v2 Hp Hd Hr Hu
                | fw entries e v1 v2 Hp Hd Hr Hu Hrm
                | fw entries v1 v2 Hp Hd Hr Hu Hrm];
    rewrite bind_lift, Hp; [reflexivity|..];
    rewrite bind_unfold, Hd; [reflexivity|..];
    rewrite bind_lift, Hr; [reflexivity|..];
    rewrite bind_unfold, Hu; [reflexivity|..];
    rewrite bind_lift, Hrm; reflexivity.
Qed.

(** Whichever stage fails first, the [try] block throws its text. *)
Lemma stage_failure_throws (buildId : Z) (projectName repo_url tempFolder e : string)
    (v v' : World) :
  publish_outcome env buildId projectName repo_url tempFolder v (Throw e) v' ->
  (build_and_publish env buildId projectName repo_url tempFolder v).1 = Throw e.
Proof.
  intros H%publish_outcome_sound.
  destruct (build_and_publish_publish env buildId projectName repo_url tempFolder v v
              (agree_refl v)) as [-> _].
  now rewrite H.
Qed.

(** A stage before the store fails: the [try] block throws its text. *)
Lemma prepare_failure_throws (buildId : Z) (projectName repo_url tempFolder e : string)
    (v : World) :
  prepare_fails env repo_url tempFolder e ->
  (build_and_publish env buildId projectName repo_url tempFolder v).1 = Throw e.
Proof.
  intros H%prepare_fails_iff.
  destruct (build_and_publish_publish env buildId projectName repo_url tempFolder v v
              (agree_refl v)) as [-> _].
  unfold publish. rewrite bind_lift, H. reflexivity.
Qed.

End WithEnv.




End FailureProperties.

(* ================================================================== *)
(** ** The artifact namespace through a run *)
(* ================================================================== *)

Module ArtifactProperties.
Import Js Refinement Examples StringFacts StoreFacts PublishFacts BucketFacts WalkFacts
       RunFacts RecordFacts.

Lemma lookup_apply_all_puts_other (cs : list Command) (b : gmap string Object) (k : string) :
  Forall (fun c => is_put c = true) cs ->
  k ∉ map command_key cs ->
  apply_all cs b !! k = b !! k.
Proof.
  intros Hputs Hk. rewrite (apply_all_puts cs b Hputs).
  apply lookup_union_r, not_elem_of_dom.
  rewrite (dom_apply_all_puts cs ∅ Hputs). set_solver.
Qed.

(** After a list of uploads under [prefix], the namespace holds the
    uploaded keys and the keys it held before. *)
Lemma namespace_apply_all_puts (cs : list Command) (b : gmap string Object)
    (prefix : string) :
  Forall (fun c => is_put c = true) cs ->
  (forall k, k ∈ map command_key cs -> has_prefix prefix k) ->
  namespace (apply_all cs b) prefix = list_to_set (map command_key cs) ∪ namespace b prefix.
Proof.
  intros Hputs Hpre. unfold namespace. rewrite (dom_apply_all_puts cs b Hputs).
  apply set_eq. intros k. rewrite elem_of_filter, !elem_of_union, elem_of_filter,
    elem_of_list_to_set.
  split; [tauto|]. intros [Hin|[? ?]]; [|tauto]. split; [now apply Hpre | now left].
Qed.

(** A key survives every request but its own deletion. *)
Lemma apply_all_keeps (cs : list Command) (b : gmap string Object) (k : string) :
  Forall (fun c => c <> DeleteObjectCommand k) cs ->
  is_Some (b !! k) -> is_Some (apply_all cs b !! k).
Proof.
  intros Hcs. revert b. induction Hcs as [|c cs Hc _ IH]; intros b Hk; [exact Hk|].
  change (apply_all (c :: cs) b) with (apply_all cs (R2.apply c b)).
  apply IH. destruct c as [p|k'|k' body ct|k']; simpl; try exact Hk.
  - rewrite lookup_delete_ne; [exact Hk | congruence].
  - destruct (decide (k' = k)) as [->|Hne].
    + rewrite lookup_insert_eq. eauto.
    + now rewrite lookup_insert_ne.
Qed.

Lemma NoDup_keys_with_prefix (b : gmap string Object) (prefix : string) :
  NoDup (keys_with_prefix b prefix).
Proof.
  unfold keys_with_prefix. rewrite merge_sort_Permutation.
  apply NoDup_filter, NoDup_elements.
Qed.

(** A namespace larger than one page has a key that the listing does not
    return. *)
Lemma key_beyond_first_page (b : gmap string Object) (prefix : string) :
  (MaxKeys < size (namespace b prefix))%nat ->
  exists k, k ∈ namespace b prefix /\ k ∉ first_page b prefix.
Proof.
  rewrite <- length_keys_with_prefix. intros Hlen.
  destruct (lookup_lt_is_Some_2 _ _ Hlen) as [k Hk].
  exists k. split.
  - apply elem_of_keys_with_prefix. eapply list_elem_of_lookup_2, Hk.
  - unfold first_page. intros (i & Hi & Hlt)%elem_of_take.
    pose proof (NoDup_lookup _ _ _ _ (NoDup_keys_with_prefix b prefix) Hi Hk). lia.
Qed.

Lemma elem_of_delete_requests (prefix : string) (b : gmap string Object) (k : string) :
  DeleteObjectCommand k ∈ delete_requests prefix b -> k ∈ first_page b prefix.
Proof.
  unfold delete_requests. intros [[=]|Hin]%elem_of_cons.
  apply list_elem_of_fmap in Hin as (k' & [= ->] & Hk'). exact Hk'.
Qed.

Section WithEnv.
Variable env : Env.

(** When [deleteFolderFromR2] returns and the namespace fitted on one
    page of the listing, the namespace is empty and no other key has
    changed. *)
Lemma delete_stage_empties_namespace (prefix : string) (w w' : World) :
  deleteFolderFromR2 env prefix w = (Normal tt, w') ->
  (size (namespace (bucket w) prefix) <= MaxKeys)%nat ->
  namespace (bucket w') prefix = ∅ /\
  (forall k, ~ has_prefix prefix k -> bucket w' !! k = bucket w !! k).
Proof.
  intros Hdel Hfit. rewrite <- length_keys_with_prefix in Hfit.
  destruct (deleteFolderFromR2_send_all env prefix w w (agree_refl w)) as [Hr (Hb & _)].
  destruct (send_all env _ w) as [[[]|e] v1] eqn:Hsend;
    rewrite Hdel in Hr, Hb; simpl in Hr, Hb; [|discriminate].
  apply send_all_normal in Hsend as [Hbv _]. rewrite Hb, Hbv.
  split; [now apply namespace_after_delete|].
  intros k Hk. now apply delete_requests_other.
Qed.

(** X13. Within a run every request of the delete stage is sent before
    every upload: however the run ends, the requests it has sent are first
    the listing and the deletes, then the uploads. *)
Lemma requests_in_order (projectId : Z) (projectName repo_url : string) (w : World) :
  let s := startBuild env projectId projectName repo_url w in
  exists dels puts,
    s3_log s.2 = (s3_log w ++ dels ++ puts)%list /\
    Forall (fun c => is_put c = false) dels /\
    Forall (fun c => is_put c = true) puts.
Proof.
  intros s.
  destruct (startBuild_outcome env projectId projectName repo_url w) as [_ Hs].
  pose proof (publish_ends env (next_id (builds w)) projectName repo_url
                (tempFolder_of env projectName) (try_entry env projectId projectName w))
    as Hout.
  fold s in Hs.
  assert (Hlog : s3_log s.2 =
                 s3_log (publish env (next_id (builds w)) projectName repo_url
                           (tempFolder_of env projectName)
                           (try_entry env projectId projectName w)).2).
  { destruct (publish env _ _ _ _ _) as [[[]|e] v']; simpl in Hs |- *.
    - apply Hs.
    - destruct Hs as [(_ & Hl & _) _]. exact Hl. }
  rewrite Hlog. clear Hlog Hs.
  set (entry := try_entry env projectId projectName w) in *.
  pose proof (delete_requests_no_put (projectName ++ "/") (bucket entry)) as Hnp.
  inversion Hout as [e Hp | fw e v1 Hp Hd | fw e v1 Hp Hd Hr
                    | fw entries e v1 v2 Hp Hd Hr Hu
                    | fw entries e v1 v2 Hp Hd Hr Hu Hrm
                    | fw entries v1 v2 Hp Hd Hr Hu Hrm]; subst.
  - exists [], []. rewrite !app_nil_r. repeat constructor.
  - apply send_all_throw in Hd as (done & c & rest & Hsplit & _ & Hl & _).
    rewrite Hsplit in Hnp. apply Forall_app in Hnp as [Hdone Hrest].
    apply Forall_cons in Hrest as [Hc _].
    exists (done ++ [c])%list, []. rewrite app_nil_r.
    repeat split; [exact Hl | | constructor].
    apply Forall_app. split; [exact Hdone | now constructor].
  - apply send_all_normal in Hd as [_ Hl].
    exists (delete_requests (projectName ++ "/") (bucket entry)), [].
    rewrite app_nil_r. repeat split; [exact Hl | exact Hnp | constructor].
  - apply send_all_normal in Hd as [_ Hl].
    apply send_all_throw in Hu as (done & c & rest & Hsplit & _ & Hl2 & _).
    pose proof (puts_of_all_is_put env projectName entries) as Hputs.
    rewrite Hsplit in Hputs. apply Forall_app in Hputs as [Hdone Hrest].
    apply Forall_cons in Hrest as [Hc _].
    exists (delete_requests (projectName ++ "/") (bucket entry)), (done ++ [c])%list.
    repeat split; [now rewrite Hl2, Hl, <- app_assoc | exact Hnp |].
    apply Forall_app. split; [exact Hdone | now constructor].
  - apply send_all_normal in Hd as [_ Hl]. apply send_all_normal in Hu as [_ Hl2].
    exists (delete_requests (projectName ++ "/") (bucket entry)),
           (puts_of_all env projectName entries).
    repeat split; [now rewrite Hl2, Hl, <- app_assoc | exact Hnp |].
    apply puts_of_all_is_put.
  - apply send_all_normal in Hd as [_ Hl]. apply send_all_normal in Hu as [_ Hl2].
    exists (delete_requests (projectName ++ "/") (bucket entry)),
           (puts_of_all env projectName entries).
    repeat split; [simpl; now rewrite Hl2, Hl, <- app_assoc | exact Hnp |].
    apply puts_of_all_is_put.
Qed.

(** When a run goes through and the old namespace fitted on one page of
    the listing, the namespace afterwards holds exactly the keys of the
    new build output, and the rest of the bucket is as before. *)
Lemma published_namespace (projectId : Z) (projectName repo_url : string) (w : World) :
  let i := next_id (builds w) in
  let tmp := tempFolder_of env projectName in
  let s := startBuild env projectId projectName repo_url w in
  (size (namespace (bucket w) (projectName ++ "/")) <= MaxKeys)%nat ->
  (build_and_publish env i projectName repo_url tmp
     (try_entry env projectId projectName w)).1 = Normal tt ->
  exists fw entries,
    prepare env repo_url tmp = Normal fw /\
    readdirSync env (path_join env tmp (Detector.outDir fw)) = Normal entries /\
    namespace (bucket s.2) (projectName ++ "/") =
      list_to_set (map (fun p => projectName ++ "/" ++ p) (rel_paths_in entries)) /\
    (forall k, ~ has_prefix (projectName ++ "/") k -> bucket s.2 !! k = bucket w !! k).
Proof.
  intros i tmp s Hfit Htry.
  set (entry := try_entry env projectId projectName w) in *.
  destruct (build_and_publish_publish env i projectName repo_url tmp entry entry
              (agree_refl entry)) as [Hr _].
  rewrite Htry in Hr. symmetry in Hr.
  destruct (startBuild_outcome env projectId projectName repo_url w) as [_ Hs].
  fold i tmp entry s in Hs.
  pose proof (publish_ends env i projectName repo_url tmp entry) as Hout.
  destruct (publish env i projectName repo_url tmp entry) as [c v'] eqn:Hpub.
  simpl in Hr, Hs, Hout. subst c. destruct Hs as (Hb & _).
  inversion Hout as [| | | | | fw entries v1 v2 Hp Hd Hrd Hu Hrm]; subst.
  apply send_all_normal in Hd as [Hb1 _]. apply send_all_normal in Hu as [Hb2 _].
  simpl in Hb. rewrite Hb2, Hb1 in Hb.
  pose proof (puts_of_all_is_put env projectName entries) as Hputs.
  rewrite <- length_keys_with_prefix in Hfit.
  exists fw, entries. repeat split; [exact Hp | exact Hrd | |].
  - rewrite Hb, namespace_apply_all_puts;
      [|exact Hputs | apply keys_puts_of_all_prefix].
    rewrite (namespace_after_delete _ (bucket entry) Hfit), keys_puts_of_all.
    now rewrite (right_id_L ∅ (∪)).
  - intros k Hk. rewrite Hb, lookup_apply_all_puts_other; [|exact Hputs|].
    + now apply delete_requests_other.
    + intros Hin. now apply Hk, (keys_puts_of_all_prefix env projectName entries).
Qed.

(** The bucket after a run, whatever its outcome: some requests of the
    delete stage and some uploads have been carried out, nothing else. *)
Lemma run_bucket (projectId : Z) (projectName repo_url : string) (w : World) :
  let s := startBuild env projectId projectName repo_url w in
  exists applied,
    bucket s.2 = apply_all applied (bucket w) /\
    Forall (fun c => c ∈ delete_requests (projectName ++ "/") (bucket w) \/ is_put c = true)
           applied.
Proof.
  intros s.
  destruct (startBuild_outcome env projectId projectName repo_url w) as [_ Hs].
  pose proof (publish_ends env (next_id (builds w)) projectName repo_url
                (tempFolder_of env projectName) (try_entry env projectId projectName w))
    as Hout.
  fold s in Hs.
  assert (Hbk : bucket s.2 =
                bucket (publish env (next_id (builds w)) projectName repo_url
                          (tempFolder_of env projectName)
                          (try_entry env projectId projectName w)).2).
  { destruct (publish env _ _ _ _ _) as [[[]|e] v']; simpl in Hs |- *.
    - apply Hs.
    - destruct Hs as [(Hb & _) _]. exact Hb. }
  rewrite Hbk. clear Hbk Hs.
  set (entry := try_entry env projectId projectName w) in *.
  assert (Hbw : bucket w = bucket entry) by reflexivity.
  rewrite Hbw. clear Hbw. clearbody entry.
  assert (Hdels : forall done c rest,
            delete_requests (projectName ++ "/") (bucket entry) = (done ++ c :: rest)%list ->
            Forall (fun c => c ∈ delete_requests (projectName ++ "/") (bucket entry)
                             \/ is_put c = true) done).
  { intros done c rest Hsplit. apply Forall_forall. intros x Hx. left.
    rewrite Hsplit. apply elem_of_app. now left. }
  assert (Hall : Forall (fun c => c ∈ delete_requests (projectName ++ "/") (bucket entry)
                                  \/ is_put c = true)
                        (delete_requests (projectName ++ "/") (bucket entry))).
  { apply Forall_forall. intros x Hx. now left. }
  assert (Hputs : forall l,
            Forall (fun c => is_put c = true) l ->
            Forall (fun c => c ∈ delete_requests (projectName ++ "/") (bucket entry)
                             \/ is_put c = true)
                   (delete_requests (projectName ++ "/") (bucket entry) ++ l)).
  { intros l Hl. apply Forall_app. split; [exact Hall|].
    eapply Forall_impl; [exact Hl|]. simpl. intros x Hx. now right. }
  destruct (publish env _ _ _ _ entry) as [r v']. simpl in Hout |- *.
  inversion Hout as [e Hp | fw e v1 Hp Hd | fw e v1 Hp Hd Hr
                    | fw entries e v1 v2 Hp Hd Hr Hu
                    | fw entries e v1 v2 Hp Hd Hr Hu Hrm
                    | fw entries v1 v2 Hp Hd Hr Hu Hrm]; subst.
  - exists []. split; [reflexivity | constructor].
  - apply send_all_throw in Hd as (done & c & rest & Hsplit & Hb & _).
    exists done. split; [exact Hb | eapply Hdels, Hsplit].
  - apply send_all_normal in Hd as [Hb _]. eexists. split; [exact Hb | exact Hall].
  - apply send_all_normal in Hd as [Hb _].
    apply send_all_throw in Hu as (done & c & rest & Hsplit & Hb2 & _).
    exists (delete_requests (projectName ++ "/") (bucket entry) ++ done)%list.
    split; [now rewrite apply_all_app, Hb2, Hb|].
    apply Hputs.
    pose proof (puts_of_all_is_put env projectName entries) as Hp2.
    rewrite Hsplit in Hp2. now apply Forall_app in Hp2 as [? _].
  - apply send_all_normal in Hd as [Hb _]. apply send_all_normal in Hu as [Hb2 _].
    exists (delete_requests (projectName ++ "/") (bucket entry) ++
            puts_of_all env projectName entries)%list.
    split; [now rewrite apply_all_app, Hb2, Hb|].
    apply Hputs, puts_of_all_is_put.
  - apply send_all_normal in Hd as [Hb _]. apply send_all_normal in Hu as [Hb2 _].
    exists (delete_requests (projectName ++ "/") (bucket entry) ++
            puts_of_all env projectName entries)%list.
    split; [simpl; now rewrite apply_all_app, Hb2, Hb|].
    apply Hputs, puts_of_all_is_put.
Qed.

(** A key of the old namespace that is not on the first page of the
    listing is still in the namespace after the run, however the run ends. *)
Lemma unlisted_key_survives (projectId : Z) (projectName repo_url : string) (w : World)
    (k : string) :
  let s := startBuild env projectId projectName repo_url w in
  k ∈ namespace (bucket w) (projectName ++ "/") ->
  k ∉ first_page (bucket w) (projectName ++ "/") ->
  k ∈ namespace (bucket s.2) (projectName ++ "/").
Proof.
  intros s Hin Hout. unfold namespace in *.
  apply elem_of_filter in Hin as [Hp Hdom]. apply elem_of_filter. split; [exact Hp|].
  destruct (run_bucket projectId projectName repo_url w) as (applied & Hb & Happ).
  fold s in Hb. rewrite Hb. apply elem_of_dom, apply_all_keeps; [|now apply elem_of_dom].
  eapply Forall_impl; [exact Happ|]. simpl.
  intros c [Hc|Hc] ->; [|discriminate]. now apply Hout, elem_of_delete_requests.
Qed.

(** Without faults, and with every call to the environment answering,
    the [try] block goes through. *)
Lemma run_goes_through (buildId : Z) (projectName repo_url tempFolder : string) (v : World)
    (fw : Detector.Framework) (entries : list entry) :
  (forall n, s3_fault env n = None) ->
  prepare env repo_url tempFolder = Normal fw ->
  readdirSync env (path_join env tempFolder (Detector.outDir fw)) = Normal entries ->
  rmSync env tempFolder = Normal tt ->
  (build_and_publish env buildId projectName repo_url tempFolder v).1 = Normal tt.
Proof.
  intros Hnone Hp Hr Hrm.
  destruct (build_and_publish_publish env buildId projectName repo_url tempFolder v v
              (agree_refl v)) as [-> _].
  unfold publish. rewrite bind_lift, Hp, bind_unfold, send_all_no_fault by exact Hnone.
  rewrite bind_lift, Hr, bind_unfold, send_all_no_fault by exact Hnone.
  rewrite bind_lift, Hrm. reflexivity.
Qed.

(** Without faults, a missing output directory stops the run after the
    delete stage: the [try] block throws, and the requests of the delete
    stage are all it has sent. *)
Lemma run_stops_at_readdir (projectId : Z) (projectName repo_url e : string) (w : World)
    (fw : Detector.Framework) :
  let i := next_id (builds w) in
  let tmp := tempFolder_of env projectName in
  let entry := try_entry env projectId projectName w in
  let s := startBuild env projectId projectName repo_url w in
  (forall n, s3_fault env n = None) ->
  prepare env repo_url tmp = Normal fw ->
  readdirSync env (path_join env tmp (Detector.outDir fw)) = Throw e ->
  (deleteFolderFromR2 env (projectName ++ "/") entry).1 = Normal tt /\
  (build_and_publish env i projectName repo_url tmp entry).1 = Throw e /\
  s3_log s.2 = (s3_log w ++ delete_requests (projectName ++ "/") (bucket w))%list.
Proof.
  intros i tmp entry s Hnone Hp Hr.
  assert (Hpub : publish env i projectName repo_url tmp entry =
                 (Throw e,
                  mkWorld (apply_all (delete_requests (projectName ++ "/") (bucket entry))
                             (bucket entry))
                          (s3_log entry ++ delete_requests (projectName ++ "/") (bucket entry))
                          (builds entry) (db_log entry) (console entry))).
  { unfold publish. rewrite bind_lift, Hp, bind_unfold, send_all_no_fault by exact Hnone.
    rewrite bind_lift, Hr. reflexivity. }
  split; [|split].
  - destruct (deleteFolderFromR2_send_all env (projectName ++ "/") entry entry
                (agree_refl entry)) as [-> _].
    now rewrite send_all_no_fault by exact Hnone.
  - destruct (build_and_publish_publish env i projectName repo_url tmp entry entry
                (agree_refl entry)) as [-> _].
    now rewrite Hpub.
  - destruct (startBuild_outcome env projectId projectName repo_url w) as [_ Hs].
    fold i tmp entry s in Hs. rewrite Hpub in Hs. simpl in Hs.
    destruct Hs as [(_ & Hl & _) _]. exact Hl.
Qed.

End WithEnv.

(** C9. Uploading a directory whose tree holds N files sends exactly N
    requests, all of them [PutObject], the key of each being the namespace,
    a slash and the path of the file relative to the directory; uploading
    the same tree again sends the same requests and leaves the bucket, keys
    and contents, as the first upload left it. *)
Theorem upload_sends_one_put_per_file
    (env : Env) (dirPath subdomain : string) (entries : list entry) (w : World) :
  readdirSync env dirPath = Normal entries ->
  (forall n, s3_fault env n = None) ->
  let first := uploadDirToR2 env dirPath subdomain w in
  let second := uploadDirToR2 env dirPath subdomain first.2 in
  exists puts,
    first.1 = Normal tt /\
    s3_log first.2 = (s3_log w ++ puts)%list /\
    length puts = count_files_in entries /\
    Forall (fun c => is_put c = true) puts /\
    map command_key puts = map (fun p => subdomain ++ "/" ++ p) (rel_paths_in entries) /\
    dom (bucket first.2) = list_to_set (map command_key puts) ∪ dom (bucket w) /\
    second.1 = Normal tt /\
    s3_log second.2 = (s3_log first.2 ++ puts)%list /\
    bucket second.2 = bucket first.2.
Proof.
  intros Hdir Hnone first second.
  assert (Hup : forall v, uploadDirToR2 env dirPath subdomain v =
                  (Normal tt,
                   mkWorld (apply_all (puts_of_all env subdomain entries) (bucket v))
                           (s3_log v ++ puts_of_all env subdomain entries)
                           (builds v) (db_log v) (console v))).
  { intros v. unfold uploadDirToR2. rewrite bind_lift, Hdir, upload_each_send_all.
    now apply send_all_no_fault. }
  subst second first.
  pose proof (puts_of_all_is_put env subdomain entries) as Hputs.
  exists (puts_of_all env subdomain entries).
  rewrite (Hup w). cbn [fst snd]. rewrite Hup. cbn [fst snd bucket s3_log].
  repeat split.
  - apply length_puts_of_all.
  - exact Hputs.
  - apply keys_puts_of_all.
  - now apply dom_apply_all_puts.
  - now apply apply_all_puts_twice.
Qed.

Lemma upload_sends_one_put_per_file_witness :
  let w := world_with 2 in
  let first := uploadDirToR2 env_ok "tmp/dist" "app" w in
  let second := uploadDirToR2 env_ok "tmp/dist" "app" first.2 in
  exists puts,
    first.1 = Normal tt /\
    s3_log first.2 = (s3_log w ++ puts)%list /\
    length puts = count_files_in site /\
    Forall (fun c => is_put c = true) puts /\
    map command_key puts = map (fun p => "app" ++ "/" ++ p) (rel_paths_in site) /\
    dom (bucket first.2) = list_to_set (map command_key puts) ∪ dom (bucket w) /\
    second.1 = Normal tt /\
    s3_log second.2 = (s3_log first.2 ++ puts)%list /\
    bucket second.2 = bucket first.2.
Proof.
  apply (upload_sends_one_put_per_file env_ok "tmp/dist" "app" site (world_with 2)).
  - reflexivity.
  - intros n. reflexivity.
Defined.

(** *** The bucket of the concrete runs *)

Lemma old_key_unfold (i : nat) :
  old_key i = String "a" (String "p" (String "p" (String "/" (String "o" ("ld-" ++ pretty i))))).
Proof. reflexivity. Qed.

Lemma old_key_prefix (i : nat) : has_prefix "app/" (old_key i).
Proof.
  change (old_key i) with ("app/" ++ ("old-" ++ pretty i)).
  unfold has_prefix. now rewrite prefix_append.
Qed.

Lemma old_key_inj : Inj (=) (=) old_key.
Proof. intros i j H. unfold old_key in H. now apply (inj _), (inj pretty) in H. Qed.

Lemma old_key_not_new (i : nat) : old_key i ∉ ["app/index.html"; "app/assets/app.js"].
Proof.
  rewrite old_key_unfold. intros [H|[H|H%elem_of_nil]%elem_of_cons]%elem_of_cons;
    [discriminate H | discriminate H | exact H].
Qed.

Lemma dom_old_bucket (n : nat) : dom (old_bucket n) = list_to_set (map old_key (seq 0 n)).
Proof.
  unfold old_bucket. rewrite dom_list_to_map_L. f_equal.
  rewrite <- list_fmap_compose. reflexivity.
Qed.

Lemma namespace_old_bucket (n : nat) :
  namespace (old_bucket n) "app/" = list_to_set (map old_key (seq 0 n)).
Proof.
  unfold namespace. rewrite dom_old_bucket. apply set_eq. intros k.
  rewrite elem_of_filter, elem_of_list_to_set. split; [tauto|].
  intros Hk. split; [|exact Hk].
  apply list_elem_of_fmap in Hk as (i & -> & _). apply old_key_prefix.
Qed.

Lemma size_namespace_old_bucket (n : nat) : size (namespace (old_bucket n) "app/") = n.
Proof.
  rewrite namespace_old_bucket, size_list_to_set.
  - now rewrite length_map, length_seq.
  - apply (NoDup_fmap_2 old_key), NoDup_seq.
Qed.

Lemma old_key_of_namespace (n : nat) (k : string) :
  k ∈ namespace (old_bucket n) "app/" -> exists i, k = old_key i.
Proof.
  rewrite namespace_old_bucket, elem_of_list_to_set.
  intros (i & -> & _)%list_elem_of_fmap. now exists i.
Qed.

(** A key of the earlier build outlives a run that goes through, as soon
    as the earlier build has more objects than one page of the listing. *)
Lemma old_key_outlives_run (n : nat) :
  (MaxKeys < n)%nat ->
  let w := world_with n in
  let s := startBuild env_ok 7 "app" repo w in
  size (namespace (bucket w) "app/") = n /\
  (build_and_publish env_ok 1 "app" repo (tempFolder_of env_ok "app")
     (try_entry env_ok 7 "app" w)).1 = Normal tt /\
  (exists r, Db.find 1 (builds s.2) = Some r /\ build_status r = "success") /\
  exists k, k ∈ namespace (bucket w) "app/" /\
            (k ∉ ["app/index.html"; "app/assets/app.js"]) /\
            k ∈ namespace (bucket s.2) "app/".
Proof.
  intros Hn w s.
  assert (Hsize : size (namespace (bucket w) "app/") = n)
    by apply size_namespace_old_bucket.
  assert (Htry : (build_and_publish env_ok 1 "app" repo (tempFolder_of env_ok "app")
                    (try_entry env_ok 7 "app" w)).1 = Normal tt).
  { apply (run_goes_through env_ok 1 "app" repo _ _ Detector.Unknown site);
      [intros m | | | ]; reflexivity. }
  split; [exact Hsize|]. split; [exact Htry|]. split.
  - destruct (startBuild_row env_ok 7 "app" repo w) as [_ Hfind]; [constructor|].
    fold s in Hfind. eexists. split; [exact Hfind|].
    change (id (pending_row env_ok 7 "app" w)) with 1.
    rewrite Htry. reflexivity.
  - destruct (key_beyond_first_page (bucket w) "app/") as (k & Hk & Hpage);
      [now rewrite Hsize|].
    exists k. split; [exact Hk|]. split.
    + destruct (old_key_of_namespace n k Hk) as [i ->]. apply old_key_not_new.
    + now apply (unlisted_key_survives env_ok 7 "app" repo w k).
Qed.

(** The same bucket, when the build leaves no output directory: the
    delete stage returns, no upload follows, and a key of the earlier build
    is still there. *)
Lemma old_key_outlives_failed_run (n : nat) :
  (MaxKeys < n)%nat ->
  let w := world_with n in
  let s := startBuild env_no_output 7 "app" repo w in
  (deleteFolderFromR2 env_no_output "app/" (try_entry env_no_output 7 "app" w)).1
    = Normal tt /\
  (build_and_publish env_no_output 1 "app" repo (tempFolder_of env_no_output "app")
     (try_entry env_no_output 7 "app" w)).1
    = Throw "ENOENT: no such file or directory, scandir" /\
  Forall (fun c => is_put c = false) (s3_log s.2) /\
  (exists r, Db.find 1 (builds s.2) = Some r /\ build_status r = "failed") /\
  exists k, k ∈ namespace (bucket w) "app/" /\ k ∈ namespace (bucket s.2) "app/".
Proof.
  intros Hn w s.
  destruct (run_stops_at_readdir env_no_output 7 "app" repo
              "ENOENT: no such file or directory, scandir" w Detector.Unknown)
    as (Hdel & Htry & Hlog); [intros m; reflexivity | reflexivity | reflexivity |].
  fold s in Hlog. change (next_id (builds w)) with 1 in Htry.
  split; [exact Hdel|]. split; [exact Htry|]. split; [|split].
  - rewrite Hlog. apply delete_requests_no_put.
  - destruct (startBuild_row env_no_output 7 "app" repo w) as [_ Hfind]; [constructor|].
    fold s in Hfind. eexists. split; [exact Hfind|].
    change (id (pending_row env_no_output 7 "app" w)) with 1.
    rewrite Htry. reflexivity.
  - destruct (key_beyond_first_page (bucket w) "app/") as (k & Hk & Hpage);
      [change (bucket w) with (old_bucket n); now rewrite (size_namespace_old_bucket n)|].
    exists k. split; [exact Hk|].
    now apply (unlisted_key_survives env_no_output 7 "app" repo w k).
Qed.

(** With three objects of an earlier build the run replaces them all. *)
Example small_namespace_replaced :
  elements (namespace (bucket (startBuild env_ok 7 "app" repo (world_with 3)).2) "app/")
  = ["app/index.html"; "app/assets/app.js"].
Proof. vm_compute. reflexivity. Qed.

(** C1, where the code departs from it. The namespace of project [app]
    holds 1001 objects of an earlier build; a run goes through every stage
    and marks its record success; the new build has two files; and
    afterwards the namespace still holds a key of the earlier build that
    is not a key of the new one. *)
Theorem stale_key_survives_successful_run :
  let w := world_with 1001 in
  let s := startBuild env_ok 7 "app" repo w in
  size (namespace (bucket w) "app/") = 1001%nat /\
  (build_and_publish env_ok 1 "app" repo (tempFolder_of env_ok "app")
     (try_entry env_ok 7 "app" w)).1 = Normal tt /\
  (exists r, Db.find 1 (builds s.2) = Some r /\ build_status r = "success") /\
  (exists k, k ∈ namespace (bucket w) "app/" /\
             (k ∉ ["app/index.html"; "app/assets/app.js"]) /\
             k ∈ namespace (bucket s.2) "app/") /\
  map (fun p => "app/" ++ p) (rel_paths_in site) = ["app/index.html"; "app/assets/app.js"].
Proof.
  destruct (old_key_outlives_run 1001) as (H1 & H2 & H3 & H4); [unfold MaxKeys; lia|].
  repeat (split; [assumption|]). reflexivity.
Qed.

(** C2, where the code departs from it. With the same 1001 objects and a
    build that leaves no output directory, the delete stage returns, the
    run stops before any upload and is marked failed, and the namespace is
    not empty: it still holds a key of the earlier build. *)
Theorem old_key_left_between_delete_and_upload :
  let w := world_with 1001 in
  let s := startBuild env_no_output 7 "app" repo w in
  (deleteFolderFromR2 env_no_output "app/" (try_entry env_no_output 7 "app" w)).1
    = Normal tt /\
  (build_and_publish env_no_output 1 "app" repo (tempFolder_of env_no_output "app")
     (try_entry env_no_output 7 "app" w)).1
    = Throw "ENOENT: no such file or directory, scandir" /\
  Forall (fun c => is_put c = false) (s3_log s.2) /\
  (exists r, Db.find 1 (builds s.2) = Some r /\ build_status r = "failed") /\
  namespace (bucket s.2) "app/" <> ∅.
Proof.
  destruct (old_key_outlives_failed_run 1001) as (H1 & H2 & H3 & H4 & k & _ & Hk);
    [unfold MaxKeys; lia|].
  repeat (split; [assumption|]). intros Hempty. rewrite Hempty in Hk.
  now apply not_elem_of_empty in Hk.
Qed.

End ArtifactProperties.

(* ================================================================== *)
(** ** The build executor *)
(* ================================================================== *)

Module ExecutorProperties.
Import Js Executor.

(** C6, as the code has it. The promise resolves with the captured
    standard output when [exec] reports no error. When it reports one, the
    promise is rejected with one text, the standard error when there is
    some and the message of the error otherwise; that text does not depend
    on the standard output, the exit code, the kill flag or the signal. *)
Theorem execPromise_settles (exec : string -> ExecCallback) (cmd : string) :
  let cb := exec cmd in
  match err cb with
  | None => execPromise exec cmd = Resolved (stdout cb)
  | Some e =>
      execPromise exec cmd =
        Rejected (if String.eqb (stderr cb) "" then message e else stderr cb) /\
      forall out' code' killed' signal',
        settle (mkExecCallback (Some (mkExecException (message e) code' killed' signal'))
                  out' (stderr cb))
        = execPromise exec cmd
  end.
Proof.
  intros cb. unfold execPromise, settle. fold cb.
  destruct (err cb) as [e|]; [|reflexivity].
  split; [|reflexivity].
  unfold or_str. now destruct (stderr cb).
Qed.

(** C6 fails as stated: two failing runs of a command that differ in
    what they printed and in their exit code are rejected with the very
    same value, so the rejection carries neither. *)
Lemma rejection_drops_stdout_and_exit_code :
  let failure (code : Z) :=
    mkExecException "Command failed: npm run build" (Some code) false None in
  let cb1 := mkExecCallback (Some (failure 1)) "compiled 3 of 7 files" "error TS2304" in
  let cb2 := mkExecCallback (Some (failure 2)) "" "error TS2304" in
  stdout cb1 <> stdout cb2 /\
  code (failure 1) <> code (failure 2) /\
  settle cb1 = Rejected "error TS2304" /\
  settle cb1 = settle cb2.
Proof. repeat split; discriminate. Qed.

End ExecutorProperties.

(* ================================================================== *)
(** ** The toolchain detector *)
(* ================================================================== *)

Module DetectorProperties.
Import Js Detector.

(** C10, as the code has it. Only the rule for [next] reads the
    development dependencies. So a manifest that declares [next] in
    neither group and has [vite], [react] and [vue] at most among its
    development dependencies, in a tree without [vite.config.js], gets the
    fallback toolchain; in the earlier revision the same holds when its
    two further rules do not match either. *)
Theorem dev_dependencies_only_reach_next
    (path_join : string -> string -> string) (existsSync : string -> bool)
    (pkgJson : json) (folder : string) (deps devDeps : option json) :
  get pkgJson "dependencies" = Normal deps ->
  get pkgJson "devDependencies" = Normal devDeps ->
  dep deps "next" = false ->
  dep devDeps "next" = false ->
  dep deps "vite" = false ->
  dep deps "react" = false ->
  dep deps "vue" = false ->
  existsSync (path_join folder "vite.config.js") = false ->
  detectFramework path_join existsSync pkgJson folder = Normal Unknown /\
  (dep deps "astro" && existsSync (path_join folder "astro.config.mjs") = false ->
   dep deps "svelte" && existsSync (path_join folder "svelte.config.js") = false ->
   detectFramework_rev2 path_join existsSync pkgJson folder = Normal Unknown).
Proof.
  intros Hd Hdd Hn Hdn Hv Hr Hu Hf. unfold detectFramework, detectFramework_rev2.
  rewrite Hd, Hdd, Hn, Hdn, Hv, Hr, Hu, Hf. simpl. split; [reflexivity|].
  intros -> ->. reflexivity.
Qed.

Lemma dev_dependencies_only_reach_next_witness :
  let devDeps : gmap string json := {["vite" := JStr "^5.0.0"; "react" := JStr "^18.2.0"]} in
  let pkgJson := JObj {["devDependencies" := JObj devDeps]} in
  let path_join := fun a b : string => a ++ "/" ++ b in
  detectFramework path_join (fun _ => false) pkgJson "tmp" = Normal Unknown /\
  (dep None "astro" && false = false ->
   dep None "svelte" && false = false ->
   detectFramework_rev2 path_join (fun _ => false) pkgJson "tmp" = Normal Unknown).
Proof.
  intros devDeps pkgJson path_join.
  apply (dev_dependencies_only_reach_next path_join (fun _ => false) pkgJson "tmp"
           None (Some (JObj devDeps))); reflexivity.
Defined.

(** C10 fails as stated: [vite] is declared among the development
    dependencies only and there is no [vite.config.js], yet the detector
    does not fall back, because [next] is declared too. *)
Lemma dev_only_vite_with_next_is_not_unknown :
  let devDeps : gmap string json := {["vite" := JStr "^5.0.0"; "next" := JStr "14.1.0"]} in
  let pkgJson := JObj {["devDependencies" := JObj devDeps]} in
  let path_join := fun a b : string => a ++ "/" ++ b in
  let existsSync := fun _ : string => false in
  dep (get_opt (Some pkgJson) "dependencies") "vite" = false /\
  dep (get_opt (Some pkgJson) "devDependencies") "vite" = true /\
  existsSync (path_join "tmp" "vite.config.js") = false /\
  detectFramework path_join existsSync pkgJson "tmp" = Normal NextJs /\
  detectFramework_rev2 path_join existsSync pkgJson "tmp" = Normal NextJs /\
  NextJs <> Unknown.
Proof. repeat split; try reflexivity. discriminate. Qed.

End DetectorProperties.

(* ================================================================== *)
(** ** The publish resolver *)
(* ================================================================== *)

Module ResolverProperties.
Import Js Pipeline Resolver StringFacts.

Lemma occurs_in_dot_cons (c : ascii) (s : string) :
  occurs_in "." (String c s) = false -> c <> "."%char /\ occurs_in "." s = false.
Proof.
  change (occurs_in "." (String c s))
    with (String.prefix "." (String c s) || occurs_in "." s).
  destruct (ascii_dec "." c) as [<-|Hne].
  - change (String "." s) with ("." ++ s). now rewrite prefix_append.
  - rewrite prefix_cons_ne by exact Hne. intros H. split; [congruence | exact H].
Qed.

Lemma split_head_cons (sep c : ascii) (s : string) :
  split_head sep (String c s) =
  if Ascii.eqb c sep then "" else String c (split_head sep s).
Proof. reflexivity. Qed.

(** The text before the first dot of a host is its leftmost label. *)
Lemma split_head_label (label rest : string) :
  occurs_in "." label = false ->
  split_head "." (label ++ "." ++ rest) = label.
Proof.
  induction label as [|c label IH]; intros Hfree.
  - reflexivity.
  - apply occurs_in_dot_cons in Hfree as [Hc Hfree].
    rewrite append_cons, split_head_cons, (proj2 (Ascii.eqb_neq c ".") Hc).
    now rewrite IH.
Qed.

Lemma split_head_no_dot (host : string) :
  occurs_in "." host = false -> split_head "." host = host.
Proof.
  induction host as [|c host IH]; intros Hfree; [reflexivity|].
  apply occurs_in_dot_cons in Hfree as [Hc Hfree].
  rewrite split_head_cons, (proj2 (Ascii.eqb_neq c ".") Hc). now rewrite IH.
Qed.

Lemma prefix_refl (s : string) : String.prefix s s = true.
Proof.
  induction s as [|c s IH]; [reflexivity|].
  simpl. destruct (ascii_dec c c); [exact IH | contradiction].
Qed.

Lemma substring_none (n : nat) (s : string) : String.substring n 0 s = "".
Proof.
  revert n. induction s as [|c s IH]; intros [|n]; simpl; try reflexivity. apply IH.
Qed.

Lemma replace_unfold (pat rep s : string) :
  replace pat rep s =
  if String.prefix pat s
  then rep ++ String.substring (String.length pat) (String.length s - String.length pat) s
  else match s with
       | EmptyString => EmptyString
       | String c r => String c (replace pat rep r)
       end.
Proof. destruct s; reflexivity. Qed.

Lemma replace_here (pat rep s : string) :
  String.prefix pat s = true ->
  replace pat rep s =
  rep ++ String.substring (String.length pat) (String.length s - String.length pat) s.
Proof. intros H. now rewrite replace_unfold, H. Qed.

Lemma replace_later (pat rep : string) (c : ascii) (s : string) :
  String.prefix pat (String c s) = false ->
  replace pat rep (String c s) = String c (replace pat rep s).
Proof. intros H. now rewrite replace_unfold, H. Qed.

(** Removing the apex suffix from a host made of one label and the apex
    leaves the label. *)
Lemma replace_apex_suffix (label root : string) :
  occurs_in "." label = false ->
  replace ("." ++ root) "" (label ++ "." ++ root) = label.
Proof.
  change ("." ++ root) with (String "." root).
  induction label as [|c label IH]; intros Hfree.
  - rewrite append_nil, replace_here by apply prefix_refl.
    now rewrite Nat.sub_diag, substring_none.
  - apply occurs_in_dot_cons in Hfree as [Hc Hfree].
    rewrite (append_cons c label), replace_later.
    + now rewrite IH.
    + apply prefix_cons_ne. congruence.
Qed.

(** [replace] removes the first occurrence wherever it is, so a port after
    the apex stays in the namespace. *)
Example subdomain_rev2_with_port :
  subdomain_rev2 "example.com" "myapp.example.com:8080" = "myapp:8080".
Proof. reflexivity. Qed.

Example subdomain_rev1_with_port :
  subdomain_rev1 "myapp.example.com:8080" = "myapp".
Proof. reflexivity. Qed.

Lemma reqPath_other (path : string) : path <> "/" -> reqPath path = path.
Proof. intros H. unfold reqPath. now rewrite (proj2 (String.eqb_neq path "/") H). Qed.

End ResolverProperties.

(* ================================================================== *)
(** ** The webhook adapter *)
(* ================================================================== *)

Module WebhookProperties.
Import Js Webhook Refinement Examples StoreFacts PublishFacts RunFacts RecordFacts.









End WebhookProperties.

(* ================================================================== *)
(** ** Facts about the build output and about single stages *)
(* ================================================================== *)

Module SiteFacts.
Import Js Refinement Site StringFacts StoreFacts PublishFacts BucketFacts WalkFacts.

Section WithEnv.
Variable env : Env.

Lemma puts_of_files (e : entry) :
  forall subdomain, puts_of env subdomain e = map (put_of env subdomain) (files e).
Proof.
  induction e as [name content|name children IH] using entry_nested_ind; intros subdomain.
  - reflexivity.
  - simpl. induction IH as [|x rest Hx _ IHrest]; [reflexivity|].
    simpl. rewrite !map_app, Hx, IHrest. f_equal.
    rewrite !map_map. apply map_ext. intros a. unfold put_of. simpl.
    now rewrite !append_assoc.
Qed.

Lemma puts_of_all_files (subdomain : string) (l : list entry) :
  puts_of_all env subdomain l = map (put_of env subdomain) (files_in l).
Proof.
  unfold puts_of_all, files_in. induction l as [|x rest IH]; [reflexivity|].
  simpl. now rewrite map_app, puts_of_files, IH.
Qed.

Lemma rel_paths_files (e : entry) : rel_paths e = map rel_path (files e).
Proof.
  induction e as [name content|name children IH] using entry_nested_ind.
  - reflexivity.
  - simpl. rewrite map_map. simpl.
    rewrite <- (map_map rel_path (fun p => name ++ "/" ++ p)). f_equal.
    induction IH as [|x rest Hx _ IHrest]; [reflexivity|].
    simpl. now rewrite map_app, Hx, IHrest.
Qed.

Lemma rel_paths_in_files (l : list entry) : rel_paths_in l = map rel_path (files_in l).
Proof.
  unfold rel_paths_in, files_in. induction l as [|x rest IH]; [reflexivity|].
  simpl. now rewrite map_app, rel_paths_files, IH.
Qed.

(** A bucket after uploads with distinct keys holds each uploaded object. *)
Lemma lookup_apply_all_put (cs : list Command) (b : gmap string Object)
    (k : string) (body : list Byte.byte) (ct : string) :
  Forall (fun c => is_put c = true) cs ->
  NoDup (map command_key cs) ->
  PutObjectCommand k body ct ∈ cs ->
  apply_all cs b !! k = Some (mkObject body (Some ct)).
Proof.
  intros Hputs. revert b. induction Hputs as [|c cs Hc Hcs IH]; intros b Hnd Hin.
  - now apply elem_of_nil in Hin.
  - change (apply_all (c :: cs) b) with (apply_all cs (R2.apply c b)).
    simpl in Hnd. apply NoDup_cons in Hnd as [Hfresh Hnd].
    apply elem_of_cons in Hin as [<-|Hin].
    + rewrite (apply_all_puts cs _ Hcs). simpl in Hfresh |- *.
      rewrite lookup_union_r.
      * apply lookup_insert_eq.
      * apply not_elem_of_dom. rewrite (dom_apply_all_puts cs ∅ Hcs). set_solver.
    + now apply IH.
Qed.

Lemma append_inj_l (a x y : string) : a ++ x = a ++ y -> x = y.
Proof.
  induction a as [|c a IH]; [now rewrite !append_nil|].
  rewrite !append_cons. intros [= H]. now apply IH.
Qed.

(** The uploads of a tree whose files have distinct paths put each file
    where its path says. *)
Lemma lookup_uploaded (subdomain : string) (l : list entry) (b : gmap string Object)
    (a : Artifact) :
  NoDup (rel_paths_in l) ->
  a ∈ files_in l ->
  apply_all (puts_of_all env subdomain l) b !! (subdomain ++ "/" ++ rel_path a)
  = Some (stored_as env a).
Proof.
  intros Hnd Hin.
  apply (lookup_apply_all_put _ b _ (file_content a)
           (or_default (mime_lookup env (file_name a)) "application/octet-stream")).
  - apply puts_of_all_is_put.
  - rewrite keys_puts_of_all. apply NoDup_fmap_2; [|exact Hnd].
    intros x y Hxy. cbv beta in Hxy.
    apply append_inj_l in Hxy. now apply append_inj_l in Hxy.
  - rewrite puts_of_all_files. apply list_elem_of_fmap. now exists a.
Qed.

(** The store part of a state decides what a list of requests does. *)
Lemma send_all_same_store (cs : list Command) (w v : World) :
  same_store w v ->
  (send_all env cs w).1 = (send_all env cs v).1 /\
  same_store (send_all env cs w).2 (send_all env cs v).2.
Proof.
  revert w v. induction cs as [|c cs IH]; intros w v [Hb Hl]; [now split|].
  change (send_all env (c :: cs)) with (s3_send env c ≫= fun _ => send_all env cs).
  rewrite !bind_unfold. unfold s3_send. rewrite Hl, Hb.
  destruct (s3_fault env (length (s3_log v))); [now split|].
  apply IH. now split.
Qed.

(** Requests go through exactly when none of them is one that fails. *)
Lemma send_all_normal_iff (cs : list Command) (w : World) :
  (send_all env cs w).1 = Normal tt <->
  forall j, (j < length cs)%nat -> s3_fault env (length (s3_log w) + j) = None.
Proof.
  revert w. induction cs as [|c cs IH]; intros w.
  - split; [intros _ j Hj; simpl in Hj; lia | reflexivity].
  - change (send_all env (c :: cs)) with (s3_send env c ≫= fun _ => send_all env cs).
    rewrite bind_unfold. unfold s3_send.
    destruct (s3_fault env (length (s3_log w))) as [e|] eqn:Hf.
    + split; [discriminate|]. intros H. specialize (H 0%nat). simpl in H.
      rewrite Nat.add_0_r, Hf in H. discriminate H; lia.
    + rewrite IH. cbn [s3_log]. rewrite length_app. simpl.
      split.
      * intros H [|j] Hj; [now rewrite Nat.add_0_r|].
        replace (length (s3_log w) + S j)%nat with (length (s3_log w) + 1 + j)%nat by lia.
        apply H. lia.
      * intros H j Hj.
        replace (length (s3_log w) + 1 + j)%nat with (length (s3_log w) + S j)%nat by lia.
        apply H. lia.
Qed.

(** What [deleteFolderFromR2] does to the store, as a list of requests. *)
Lemma deleteFolderFromR2_store (prefix : string) (w : World) :
  let r := deleteFolderFromR2 env prefix w in
  let q := send_all env (delete_requests prefix (bucket w)) w in
  r.1 = q.1 /\ bucket r.2 = bucket q.2 /\ s3_log r.2 = s3_log q.2 /\
  builds r.2 = builds w /\ db_log r.2 = db_log w.
Proof.
  intros r q.
  destruct (deleteFolderFromR2_send_all env prefix w w (agree_refl w))
    as (H1 & H2 & H3 & H4 & H5).
  destruct (send_all_frame env (delete_requests prefix (bucket w)) w) as (Hb & Hd & _).
  fold q in H1, H2, H3, H4, H5, Hb, Hd. fold r in H1, H2, H3, H4, H5.
  split; [exact H1|]. split; [exact H2|]. split; [exact H3|].
  split; congruence.
Qed.

(** What [uploadDirToR2] does to the store. *)
Lemma uploadDirToR2_store (dirPath subdomain : string) (w : World) :
  uploadDirToR2 env dirPath subdomain w =
  match readdirSync env dirPath with
  | Normal entries => send_all env (puts_of_all env subdomain entries) w
  | Throw e => (Throw e, w)
  end.
Proof.
  unfold uploadDirToR2. rewrite bind_lift.
  destruct (readdirSync env dirPath); [apply upload_each_send_all | reflexivity].
Qed.

(** However a list of requests ends, the bucket is what a first part of
    the list made of it, and that part and at most one more request (the
    one that failed) have been sent. *)
Lemma send_all_ends (cs : list Command) (w : World) :
  let r := send_all env cs w in
  exists done rest,
    cs = (done ++ rest)%list /\
    bucket r.2 = apply_all done (bucket w) /\
    (r.1 = Normal tt /\ rest = [] /\ s3_log r.2 = (s3_log w ++ done)%list \/
     exists e c rest', r.1 = Throw e /\ rest = c :: rest' /\
                       s3_log r.2 = (s3_log w ++ done ++ [c])%list).
Proof.
  intros r. subst r.
  destruct (send_all env cs w) as [[[]|e] w'] eqn:Hs.
  - apply send_all_normal in Hs as [Hb Hl]. exists cs, [].
    rewrite app_nil_r. split; [reflexivity|]. split; [exact Hb|]. now left.
  - apply send_all_throw in Hs as (done & c & rest & Hsplit & Hb & Hl & _).
    exists done, (c :: rest). split; [exact Hsplit|]. split; [exact Hb|].
    right. now exists e, c, rest.
Qed.

(** Uploads under a prefix only add: however they end, what has been
    sent is a first part of them, no key is lost, and keys that do not
    start with the prefix are as they were. *)
Lemma send_all_puts_add (cs : list Command) (prefix : string) (w : World) :
  Forall (fun c => is_put c = true) cs ->
  (forall k, k ∈ map command_key cs -> has_prefix prefix k) ->
  let r := send_all env cs w in
  (exists sent,
     s3_log r.2 = (s3_log w ++ sent)%list /\ Forall (fun c => is_put c = true) sent) /\
  dom (bucket w) ⊆ dom (bucket r.2) /\
  (forall k, ~ has_prefix prefix k -> bucket r.2 !! k = bucket w !! k).
Proof.
  intros Hputs Hkeys r.
  destruct (send_all_ends cs w) as (done & rest & Hsplit & Hb & Hend). fold r in Hb, Hend.
  rewrite Hsplit in Hputs. apply Forall_app in Hputs as [Hdone Hrest].
  split; [|split].
  - destruct Hend as [(_ & _ & Hl)|(e & c & rest' & _ & -> & Hl)].
    + now exists done.
    + exists (done ++ [c])%list. split; [exact Hl|].
      apply Forall_app. split; [exact Hdone|].
      apply Forall_cons in Hrest as [Hc _]. now constructor.
  - rewrite Hb, (dom_apply_all_puts done _ Hdone). set_solver.
  - intros k Hp. rewrite Hb, (apply_all_puts done _ Hdone).
    apply lookup_union_r, not_elem_of_dom.
    rewrite (dom_apply_all_puts done ∅ Hdone), dom_empty_L, (right_id_L ∅ (∪)).
    rewrite elem_of_list_to_set. intros Hk. apply Hp, Hkeys.
    rewrite Hsplit, map_app. apply elem_of_app. now left.
Qed.

End WithEnv.

Lemma keys_with_prefix_empty (b : gmap string Object) (prefix : string) :
  namespace b prefix = ∅ -> keys_with_prefix b prefix = [].
Proof.
  intros Hns. destruct (keys_with_prefix b prefix) as [|k ks] eqn:Hk; [reflexivity|].
  assert (Hin : k ∈ keys_with_prefix b prefix) by (rewrite Hk; now left).
  apply elem_of_keys_with_prefix in Hin. rewrite Hns in Hin.
  now apply not_elem_of_empty in Hin.
Qed.

Lemma first_page_subset (b : gmap string Object) (prefix k : string) :
  k ∈ first_page b prefix -> k ∈ namespace b prefix.
Proof.
  unfold first_page. intros Hin. apply elem_of_keys_with_prefix.
  apply elem_of_take in Hin as (i & Hi & _). eapply list_elem_of_lookup_2, Hi.
Qed.

Lemma NoDup_first_page (b : gmap string Object) (prefix : string) :
  NoDup (first_page b prefix).
Proof.
  unfold first_page. eapply sublist_NoDup; [|apply sublist_take].
  unfold keys_with_prefix.
  rewrite merge_sort_Permutation. apply NoDup_filter, NoDup_elements.
Qed.

Lemma length_first_page (b : gmap string Object) (prefix : string) :
  length (first_page b prefix) = (MaxKeys `min` size (namespace b prefix))%nat.
Proof. unfold first_page. now rewrite length_take, length_keys_with_prefix. Qed.

(** The namespace after the keys of the first page are gone. *)
Lemma namespace_without_first_page (b b' : gmap string Object) (prefix : string) :
  (forall k, b' !! k = if decide (k ∈ first_page b prefix) then None else b !! k) ->
  namespace b' prefix = namespace b prefix ∖ list_to_set (first_page b prefix).
Proof.
  intros Hb. apply set_eq. intros k. unfold namespace.
  rewrite elem_of_difference, !elem_of_filter, !elem_of_dom, elem_of_list_to_set, Hb.
  destruct (decide (k ∈ first_page b prefix)) as [Hin|Hout].
  - split; [intros [_ [? [=]]] | tauto].
  - tauto.
Qed.

End SiteFacts.

(* ================================================================== *)
(** ** Facts about the stages that replace the artifacts *)
(* ================================================================== *)

Module ReplaceFacts.
Import Js Refinement Site StringFacts StoreFacts PublishFacts BucketFacts WalkFacts
       RunFacts RecordFacts SiteFacts.

(** A key that no request of a list names is as it was. *)
Lemma lookup_apply_all_other (cs : list Command) (b : gmap string Object) (k : string) :
  k ∉ map command_key cs -> apply_all cs b !! k = b !! k.
Proof.
  revert b. induction cs as [|c cs IH]; intros b Hk; [reflexivity|].
  change (apply_all (c :: cs) b) with (apply_all cs (R2.apply c b)).
  simpl in Hk. apply not_elem_of_cons in Hk as [Hc Hk]. rewrite IH by exact Hk.
  destruct c as [p|k'|k' body ct|k']; simpl in Hc |- *; try reflexivity.
  - now apply lookup_delete_ne.
  - now apply lookup_insert_ne.
Qed.

(** The requests of the delete stage other than the listing name keys
    of the namespace. *)
Lemma delete_requests_keys (prefix : string) (b : gmap string Object) (k : string) :
  k ∈ map command_key (delete_requests prefix b) -> k = prefix \/ has_prefix prefix k.
Proof.
  unfold delete_requests. simpl. intros [->|Hin]%elem_of_cons; [now left|].
  right. rewrite map_map in Hin. simpl in Hin.
  apply list_elem_of_fmap in Hin as (k' & -> & Hk').
  apply first_page_subset in Hk'. now apply elem_of_filter in Hk' as [? _].
Qed.

Section WithEnv.
Variable env : Env.

Lemma publish_replace_artifacts (buildId : Z) (projectName repo_url tempFolder : string)
    (v : World) :
  publish env buildId projectName repo_url tempFolder v =
  (replace_artifacts env projectName repo_url tempFolder;;
   db_update_status buildId "success") v.
Proof.
  rewrite bind_unfold. unfold publish, replace_artifacts. rewrite !bind_lift.
  destruct (prepare env repo_url tempFolder) as [fw|e]; [|reflexivity].
  rewrite !bind_unfold.
  destruct (send_all env _ v) as [[[]|e] v1]; [|reflexivity].
  rewrite !bind_lift.
  destruct (readdirSync env _) as [entries|e]; [|reflexivity].
  rewrite !bind_unfold.
  destruct (send_all env _ v1) as [[[]|e] v2]; [|reflexivity].
  rewrite !bind_lift.
  destruct (rmSync env tempFolder) as [[]|e]; reflexivity.
Qed.

Lemma replace_artifacts_frame (projectName repo_url tempFolder : string) (v : World) :
  let r := replace_artifacts env projectName repo_url tempFolder v in
  builds r.2 = builds v /\ db_log r.2 = db_log v /\ console r.2 = console v.
Proof.
  intros r. subst r. unfold replace_artifacts. rewrite bind_lift.
  destruct (prepare env repo_url tempFolder) as [fw|e]; [|now repeat split].
  rewrite bind_unfold.
  destruct (send_all env _ v) as [[[]|e] v1] eqn:H1;
    apply send_all_frame_eq in H1 as (Hb1 & Hd1 & Hc1); [|now repeat split].
  rewrite bind_lift.
  destruct (readdirSync env _) as [entries|e]; [|now repeat split].
  rewrite bind_unfold.
  destruct (send_all env _ v1) as [[[]|e] v2] eqn:H2;
    apply send_all_frame_eq in H2 as (Hb2 & Hd2 & Hc2).
  - unfold lift. destruct (rmSync env tempFolder) as [[]|e];
      simpl; repeat split; congruence.
  - simpl; repeat split; congruence.
Qed.

Lemma replace_artifacts_same_store (projectName repo_url tempFolder : string)
    (w v : World) :
  same_store w v ->
  (replace_artifacts env projectName repo_url tempFolder w).1 =
  (replace_artifacts env projectName repo_url tempFolder v).1 /\
  same_store (replace_artifacts env projectName repo_url tempFolder w).2
             (replace_artifacts env projectName repo_url tempFolder v).2.
Proof.
  intros Hwv. unfold replace_artifacts. rewrite !bind_lift.
  destruct (prepare env repo_url tempFolder) as [fw|e]; [|now split].
  rewrite !bind_unfold. destruct Hwv as [Hb Hl]. rewrite Hb.
  destruct (send_all_same_store env (delete_requests (projectName ++ "/") (bucket v)) w v)
    as [Hr1 Hs1]; [now split|].
  destruct (send_all env _ w) as [r1 w1], (send_all env _ v) as [r1' v1].
  simpl in Hr1, Hs1. subst r1'. destruct r1 as [[]|e]; [|now split].
  rewrite !bind_lift.
  destruct (readdirSync env _) as [entries|e]; [|now split].
  rewrite !bind_unfold.
  destruct (send_all_same_store env (puts_of_all env projectName entries) w1 v1 Hs1)
    as [Hr2 Hs2].
  destruct (send_all env _ w1) as [r2 w2], (send_all env _ v1) as [r2' v2].
  simpl in Hr2, Hs2. subst r2'. destruct r2 as [[]|e]; [|now split].
  unfold lift. destruct (rmSync env tempFolder) as [[]|e]; now split.
Qed.

(** The bucket after the stages, however they end: a first part of the
    requests of the delete stage and of the uploads has been carried out. *)
Lemma replace_artifacts_bucket (projectName repo_url tempFolder : string) (v : World) :
  let r := replace_artifacts env projectName repo_url tempFolder v in
  exists applied,
    bucket r.2 = apply_all applied (bucket v) /\
    forall k, k ∈ map command_key applied ->
              k = projectName ++ "/" \/ has_prefix (projectName ++ "/") k.
Proof.
  intros r. subst r. unfold replace_artifacts. rewrite bind_lift.
  destruct (prepare env repo_url tempFolder) as [fw|e];
    [|exists []; split; [reflexivity | intros k Hk; now apply elem_of_nil in Hk]].
  rewrite bind_unfold.
  destruct (send_all_ends env (delete_requests (projectName ++ "/") (bucket v)) v)
    as (done & rest & Hsplit & Hb & Hend).
  assert (Hdone : forall k, k ∈ map command_key done ->
                    k = projectName ++ "/" \/ has_prefix (projectName ++ "/") k).
  { intros k Hk. apply (delete_requests_keys _ (bucket v)).
    rewrite Hsplit, map_app. apply elem_of_app. now left. }
  destruct (send_all env _ v) as [[[]|e] v1]; simpl in Hb; [|now exists done].
  rewrite bind_lift.
  destruct (readdirSync env _) as [entries|e]; [|now exists done].
  rewrite bind_unfold.
  destruct (send_all_ends env (puts_of_all env projectName entries) v1)
    as (done2 & rest2 & Hsplit2 & Hb2 & Hend2).
  assert (Hall : exists applied,
            bucket (send_all env (puts_of_all env projectName entries) v1).2 =
              apply_all applied (bucket v) /\
            forall k, k ∈ map command_key applied ->
                      k = projectName ++ "/" \/ has_prefix (projectName ++ "/") k).
  { exists (done ++ done2)%list. split; [now rewrite apply_all_app, Hb2, Hb|].
    intros k Hk. rewrite map_app in Hk. apply elem_of_app in Hk as [Hk|Hk]; [auto|].
    right. apply (keys_puts_of_all_prefix env projectName entries).
    rewrite Hsplit2, map_app. apply elem_of_app. now left. }
  destruct (send_all env _ v1) as [[[]|e] v2]; simpl in Hall; [|exact Hall].
  unfold lift. now destruct (rmSync env tempFolder) as [[]|e].
Qed.

(** Keys outside the namespace of the project are as they were. *)
Lemma replace_artifacts_other (projectName repo_url tempFolder : string) (v : World)
    (k : string) :
  ~ has_prefix (projectName ++ "/") k ->
  bucket (replace_artifacts env projectName repo_url tempFolder v).2 !! k = bucket v !! k.
Proof.
  intros Hk.
  destruct (replace_artifacts_bucket projectName repo_url tempFolder v)
    as (applied & -> & Hkeys).
  apply lookup_apply_all_other. intros Hin. apply Hkeys in Hin as [->|Hp]; [|auto].
  apply Hk. unfold has_prefix. now rewrite ResolverProperties.prefix_refl.
Qed.

(** The stages go through exactly when every call to the environment
    answers and none of the requests is one that fails. *)
Lemma replace_artifacts_normal_iff (projectName repo_url tempFolder : string) (v : World) :
  (replace_artifacts env projectName repo_url tempFolder v).1 = Normal tt <->
  exists fw entries,
    prepare env repo_url tempFolder = Normal fw /\
    readdirSync env (path_join env tempFolder (Detector.outDir fw)) = Normal entries /\
    rmSync env tempFolder = Normal tt /\
    forall j,
      (j < 1 + length (first_page (bucket v) (projectName ++ "/")) +
           count_files_in entries)%nat ->
      s3_fault env (length (s3_log v) + j) = None.
Proof.
  unfold replace_artifacts. rewrite bind_lift.
  destruct (prepare env repo_url tempFolder) as [fw|e];
    [|split; [discriminate | intros (? & ? & [=] & _)]].
  rewrite bind_unfold.
  pose proof (send_all_normal_iff env (delete_requests (projectName ++ "/") (bucket v)) v)
    as Hdel.
  assert (Hlen : length (delete_requests (projectName ++ "/") (bucket v)) =
                 (1 + length (first_page (bucket v) (projectName ++ "/")))%nat)
    by (unfold delete_requests; simpl; now rewrite length_map).
  rewrite Hlen in Hdel.
  destruct (send_all env _ v) as [[[]|e] v1] eqn:H1; simpl in Hdel.
  - apply send_all_normal in H1 as [_ Hl1]. rewrite bind_lift.
    destruct (readdirSync env (path_join env tempFolder (Detector.outDir fw)))
      as [entries|e] eqn:Hrd;
      [|split; [discriminate | intros (? & ? & [= <-] & Hrd' & _); congruence]].
    rewrite bind_unfold.
    pose proof (send_all_normal_iff env (puts_of_all env projectName entries) v1) as Hput.
    rewrite length_puts_of_all, Hl1, length_app, Hlen in Hput.
    destruct (send_all env _ v1) as [[[]|e] v2]; simpl in Hput.
    + unfold lift. cbn [fst]. split.
      * intros Hrm. exists fw, entries. split; [reflexivity|]. split; [exact Hrd|].
        split; [now destruct (rmSync env tempFolder) as [[]|]|].
        intros j Hj.
        destruct (decide (j < 1 + length (first_page (bucket v) (projectName ++ "/")))%nat)
          as [Hlt|Hge]; [now apply (proj1 Hdel)|].
        rewrite <- (proj1 Hput eq_refl
                      (j - (1 + length (first_page (bucket v) (projectName ++ "/"))))%nat)
          by lia.
        f_equal. lia.
      * intros (fw' & entries' & [= <-] & _ & -> & _). reflexivity.
    + split; [discriminate|].
      intros (fw' & entries' & [= <-] & Hrd' & _ & Hnone).
      rewrite Hrd in Hrd'. injection Hrd' as <-.
      assert (Hno : @Throw unit e = Normal tt); [|discriminate Hno].
      apply (proj2 Hput). intros j Hj.
      rewrite <- (Hnone (1 + length (first_page (bucket v) (projectName ++ "/")) + j)%nat)
        by lia.
      f_equal. lia.
  - split; [discriminate|].
    intros (fw' & entries' & [= <-] & _ & _ & Hnone).
    assert (Hno : @Throw unit e = Normal tt); [|discriminate Hno].
    apply (proj2 Hdel). intros j Hj. apply Hnone. lia.
Qed.

(** The store after the uploads, whether or not the temporary folder
    can be removed afterwards. *)
Lemma replace_artifacts_uploaded (projectName repo_url tempFolder : string) (v : World)
    (fw : Detector.Framework) (entries : list entry) :
  prepare env repo_url tempFolder = Normal fw ->
  readdirSync env (path_join env tempFolder (Detector.outDir fw)) = Normal entries ->
  (forall j,
     (j < 1 + length (first_page (bucket v) (projectName ++ "/")) +
          count_files_in entries)%nat ->
     s3_fault env (length (s3_log v) + j) = None) ->
  (replace_artifacts env projectName repo_url tempFolder v).1 = rmSync env tempFolder /\
  bucket (replace_artifacts env projectName repo_url tempFolder v).2 =
    apply_all (puts_of_all env projectName entries)
      (apply_all (delete_requests (projectName ++ "/") (bucket v)) (bucket v)).
Proof.
  intros Hp Hd Hnone. unfold replace_artifacts. rewrite bind_lift, Hp, bind_unfold.
  assert (Hlen : length (delete_requests (projectName ++ "/") (bucket v)) =
                 (1 + length (first_page (bucket v) (projectName ++ "/")))%nat)
    by (unfold delete_requests; simpl; now rewrite length_map).
  assert (H1 : (send_all env (delete_requests (projectName ++ "/") (bucket v)) v).1
               = Normal tt).
  { apply send_all_normal_iff. intros j Hj. apply Hnone. lia. }
  destruct (send_all env _ v) as [r1 v1] eqn:Hs1. simpl in H1. subst r1.
  apply send_all_normal in Hs1 as [Hb1 Hl1].
  rewrite bind_lift, Hd, bind_unfold.
  assert (H2 : (send_all env (puts_of_all env projectName entries) v1).1 = Normal tt).
  { apply send_all_normal_iff. intros j Hj. rewrite length_puts_of_all in Hj.
    rewrite Hl1, length_app, Hlen, <- Nat.add_assoc. apply Hnone. lia. }
  destruct (send_all env _ v1) as [r2 v2] eqn:Hs2. simpl in H2. subst r2.
  apply send_all_normal in Hs2 as [Hb2 _].
  unfold lift. cbn [fst snd]. split; [reflexivity | now rewrite Hb2, Hb1].
Qed.

(** A run and the stages it wraps: the run ends in the store the stages
    leave, and it is marked success exactly when they go through. *)
Lemma startBuild_replace_artifacts (projectId : Z) (projectName repo_url : string)
    (w : World) :
  let s := startBuild env projectId projectName repo_url w in
  let r := replace_artifacts env projectName repo_url (tempFolder_of env projectName) w in
  same_store s.2 r.2 /\
  final_status (build_and_publish env (next_id (builds w)) projectName repo_url
                  (tempFolder_of env projectName)
                  (try_entry env projectId projectName w)).1
  = final_status r.1.
Proof.
  intros s r. subst r.
  set (i := next_id (builds w)). set (tmp := tempFolder_of env projectName).
  set (entry := try_entry env projectId projectName w).
  destruct (startBuild_outcome env projectId projectName repo_url w) as [_ Hs].
  fold i tmp entry s in Hs.
  destruct (build_and_publish_publish env i projectName repo_url tmp entry entry
              (agree_refl entry)) as [Hbp _].
  rewrite Hbp. clear Hbp.
  rewrite publish_replace_artifacts, bind_unfold in Hs |- *.
  destruct (replace_artifacts_same_store projectName repo_url tmp entry w) as [H1 H2];
    [now split|].
  destruct (replace_artifacts env projectName repo_url tmp entry) as [[[]|e] v1];
    simpl in H1, H2, Hs |- *; rewrite <- H1.
  - split; [|reflexivity]. destruct Hs as (Hb & Hl & _), H2 as [Hb2 Hl2].
    split; simpl in Hb, Hl; congruence.
  - split; [|reflexivity]. destruct Hs as [(Hb & Hl & _) _], H2 as [Hb2 Hl2].
    split; simpl in Hb, Hl; congruence.
Qed.

End WithEnv.

End ReplaceFacts.

(* ================================================================== *)
(** ** More on the toolchain detector *)
(* ================================================================== *)

Module DetectorBehaviour.
Import Js Detector.

Section WithFs.
Variable path_join : string -> string -> string.
Variable existsSync : string -> bool.

Lemma get_normal (o : json) (k : string) :
  o <> JNull -> exists v, get o k = Normal v.
Proof. destruct o; simpl; eauto. congruence. Qed.

(** X1. The detector fails on one manifest only, the JSON value [null],
    with the [TypeError] of reading a property of [null]; on every other
    manifest, objects or not, both revisions return a toolchain. *)
Theorem detectFramework_fails_on_null_only (pkgJson : json) (folder : string) :
  (forall e,
     detectFramework path_join existsSync pkgJson folder = Throw e <->
     pkgJson = JNull /\
     e = "TypeError: Cannot read properties of null (reading 'dependencies')") /\
  (forall e,
     detectFramework_rev2 path_join existsSync pkgJson folder = Throw e <->
     pkgJson = JNull /\
     e = "TypeError: Cannot read properties of null (reading 'dependencies')") /\
  (pkgJson <> JNull ->
   exists fw fw2,
     detectFramework path_join existsSync pkgJson folder = Normal fw /\
     detectFramework_rev2 path_join existsSync pkgJson folder = Normal fw2).
Proof.
  unfold detectFramework, detectFramework_rev2.
  assert (Hcase : pkgJson = JNull \/ pkgJson <> JNull)
    by (destruct pkgJson; auto; right; discriminate).
  destruct Hcase as [->|Hne].
  - simpl. split; [|split].
    + intros e. split; [intros [= <-]; auto | intros [_ ->]; reflexivity].
    + intros e. split; [intros [= <-]; auto | intros [_ ->]; reflexivity].
    + intros H. now contradict H.
  - destruct (get_normal pkgJson "dependencies" Hne) as [deps ->].
    destruct (get_normal pkgJson "devDependencies" Hne) as [devDeps ->].
    split; [|split].
    + intros e. split; [|intros [? _]; contradiction].
      repeat match goal with |- context [if ?b then _ else _] => destruct b end;
        discriminate.
    + intros e. split; [|intros [? _]; contradiction].
      repeat match goal with |- context [if ?b then _ else _] => destruct b end;
        discriminate.
    + intros _.
      repeat match goal with |- context [if ?b then _ else _] => destruct b end;
        eauto.
Qed.

(** X2. Whatever the manifest and the tree, the build command of the
    detected toolchain is [npm run build], and its output directory is
    [.next] when [next] is declared in either dependency group and [dist]
    when it is not. *)
Theorem detected_toolchain_shape
    (pkgJson : json) (folder : string) (deps devDeps : option json) (fw : Framework) :
  get pkgJson "dependencies" = Normal deps ->
  get pkgJson "devDependencies" = Normal devDeps ->
  detectFramework path_join existsSync pkgJson folder = Normal fw \/
  detectFramework_rev2 path_join existsSync pkgJson folder = Normal fw ->
  buildCommand fw = "npm run build" /\
  (dep deps "next" || dep devDeps "next" = true -> fw = NextJs /\ outDir fw = ".next") /\
  (dep deps "next" || dep devDeps "next" = false -> outDir fw = "dist").
Proof.
  intros Hd Hdd. unfold detectFramework, detectFramework_rev2. rewrite Hd, Hdd.
  destruct (dep deps "next" || dep devDeps "next").
  - intros [[= <-]|[= <-]]; repeat split; discriminate.
  - intros [H|H];
      repeat match type of H with context [if ?b then _ else _] => destruct b end;
      injection H as <-; repeat split; discriminate.
Qed.

(** X3. The later revision only adds to the earlier one: where the
    earlier detector names a toolchain the later one names the same, and
    where the earlier one falls back the later one answers Astro, Svelte or
    the same fallback, always with output directory [dist]. *)
Theorem rev2_extends_detectFramework (pkgJson : json) (folder : string) (fw : Framework) :
  detectFramework path_join existsSync pkgJson folder = Normal fw ->
  (fw <> Unknown -> detectFramework_rev2 path_join existsSync pkgJson folder = Normal fw) /\
  (fw = Unknown ->
   exists fw2,
     detectFramework_rev2 path_join existsSync pkgJson folder = Normal fw2 /\
     (fw2 = Astro \/ fw2 = Svelte \/ fw2 = Unknown) /\ outDir fw2 = "dist").
Proof.
  unfold detectFramework, detectFramework_rev2.
  destruct (get pkgJson "dependencies") as [deps|e]; [|discriminate].
  destruct (get pkgJson "devDependencies") as [devDeps|e]; [|discriminate].
  destruct (dep deps "next" || dep devDeps "next");
    [intros [= <-]; split; [reflexivity | discriminate]|].
  destruct (dep deps "vite" || existsSync (path_join folder "vite.config.js"));
    [intros [= <-]; split; [reflexivity | discriminate]|].
  destruct (dep deps "react" && existsSync (path_join folder "public"));
    [intros [= <-]; split; [reflexivity | discriminate]|].
  destruct (dep deps "vue" && existsSync (path_join folder "vue.config.js"));
    [intros [= <-]; split; [reflexivity | discriminate]|].
  intros [= <-]. split; [congruence|]. intros _.
  destruct (dep deps "astro" && existsSync (path_join folder "astro.config.mjs"));
    [eexists; split; [reflexivity|]; auto|].
  destruct (dep deps "svelte" && existsSync (path_join folder "svelte.config.js"));
    eexists; (split; [reflexivity|]); auto.
Qed.

End WithFs.

Lemma detected_toolchain_shape_witness :
  let deps : gmap string json := {["next" := JStr "14.1.0"; "react" := JStr "^18.2.0"]} in
  let pkgJson := JObj {["dependencies" := JObj deps]} in
  buildCommand NextJs = "npm run build" /\
  (dep (Some (JObj deps)) "next" || dep None "next" = true ->
   NextJs = NextJs /\ outDir NextJs = ".next") /\
  (dep (Some (JObj deps)) "next" || dep None "next" = false -> outDir NextJs = "dist").
Proof.
  intros deps pkgJson.
  apply (detected_toolchain_shape (fun a b => a ++ "/" ++ b) (fun _ => true) pkgJson "tmp"
           (Some (JObj deps)) None NextJs); [reflexivity | reflexivity | left; reflexivity].
Defined.

Lemma rev2_extends_detectFramework_witness :
  let deps : gmap string json := {["astro" := JStr "^4.0.0"]} in
  let pkgJson := JObj {["dependencies" := JObj deps]} in
  let path_join := fun a b : string => a ++ "/" ++ b in
  let existsSync := fun p : string => String.eqb p "tmp/astro.config.mjs" in
  (Unknown <> Unknown -> detectFramework_rev2 path_join existsSync pkgJson "tmp" = Normal Unknown) /\
  (Unknown = Unknown ->
   exists fw2,
     detectFramework_rev2 path_join existsSync pkgJson "tmp" = Normal fw2 /\
     (fw2 = Astro \/ fw2 = Svelte \/ fw2 = Unknown) /\ outDir fw2 = "dist").
Proof.
  intros deps pkgJson path_join existsSync.
  apply (rev2_extends_detectFramework path_join existsSync pkgJson "tmp" Unknown).
  reflexivity.
Defined.

End DetectorBehaviour.

(* ================================================================== *)
(** ** The delete and upload stages on their own *)
(* ================================================================== *)

Module StageBehaviour.
Import Js Refinement Examples Site StringFacts StoreFacts PublishFacts BucketFacts WalkFacts
       SiteFacts.

(** X4. On a namespace that holds nothing, [deleteFolderFromR2] sends
    the listing and nothing else and leaves the bucket as it is; it logs
    that there is no previous build, unless the listing itself fails, in
    which case it throws what the store answered. *)
Theorem delete_on_empty_namespace (env : Env) (prefix : string) (w : World) :
  namespace (bucket w) prefix = ∅ ->
  let r := deleteFolderFromR2 env prefix w in
  bucket r.2 = bucket w /\
  s3_log r.2 = (s3_log w ++ [ListObjectsV2Command prefix])%list /\
  match s3_fault env (length (s3_log w)) with
  | None =>
      r.1 = Normal tt /\
      console r.2 =
        (console w ++ [[Text ("ℹ️ No previous build to delete for: " ++ prefix)]])%list
  | Some e => r.1 = Throw e /\ console r.2 = console w
  end.
Proof.
  intros Hns r. subst r.
  assert (Hlist : list_contents (bucket w) prefix = None).
  { unfold list_contents, first_page.
    now rewrite (keys_with_prefix_empty _ _ Hns), take_nil. }
  unfold deleteFolderFromR2. rewrite bind_unfold. unfold s3_list, s3_send.
  destruct (s3_fault env (length (s3_log w))) as [e|].
  - now split.
  - rewrite Hlist. now split.
Qed.

Lemma delete_on_empty_namespace_witness :
  let r := deleteFolderFromR2 env_ok "app/" (world_with 0) in
  bucket r.2 = ∅ /\
  s3_log r.2 = [ListObjectsV2Command "app/"] /\
  r.1 = Normal tt /\
  console r.2 = [[Text "ℹ️ No previous build to delete for: app/"]].
Proof.
  apply (delete_on_empty_namespace env_ok "app/" (world_with 0)).
  reflexivity.
Defined.

(** X5. When [deleteFolderFromR2] returns, it has sent one listing and
    one delete for each key of the first page, in the order of the listing;
    those keys are gone and every other key of the bucket holds what it
    held. The namespace has lost as many keys as one page holds, so it is
    empty exactly when it fitted on one page, and keys outside the
    namespace are untouched. *)
Theorem delete_removes_one_page (env : Env) (prefix : string) (w : World) :
  let r := deleteFolderFromR2 env prefix w in
  r.1 = Normal tt ->
  s3_log r.2 =
    (s3_log w ++ ListObjectsV2Command prefix ::
       map DeleteObjectCommand (first_page (bucket w) prefix))%list /\
  (forall k, bucket r.2 !! k =
             if decide (k ∈ first_page (bucket w) prefix) then None else bucket w !! k) /\
  size (namespace (bucket r.2) prefix) =
    (size (namespace (bucket w) prefix) - MaxKeys)%nat /\
  (namespace (bucket r.2) prefix = ∅ <->
   (size (namespace (bucket w) prefix) <= MaxKeys)%nat) /\
  (forall k, ~ has_prefix prefix k -> bucket r.2 !! k = bucket w !! k).
Proof.
  intros r Hr.
  destruct (deleteFolderFromR2_store env prefix w) as (H1 & Hb & Hl & _).
  fold r in H1, Hb, Hl. rewrite Hr in H1. symmetry in H1.
  destruct (send_all env (delete_requests prefix (bucket w)) w) as [c v] eqn:Hs.
  simpl in H1, Hb, Hl. subst c.
  apply send_all_normal in Hs as [Hbv Hlv].
  assert (Hlook : forall k, bucket r.2 !! k =
            if decide (k ∈ first_page (bucket w) prefix) then None else bucket w !! k).
  { intros k. rewrite Hb, Hbv. apply apply_delete_requests. }
  assert (Hsize : size (namespace (bucket r.2) prefix) =
                  (size (namespace (bucket w) prefix) - MaxKeys)%nat).
  { rewrite (namespace_without_first_page _ _ _ Hlook), size_difference.
    - rewrite size_list_to_set by apply NoDup_first_page.
      rewrite length_first_page. lia.
    - intros k Hk. apply elem_of_list_to_set in Hk. now apply first_page_subset. }
  split; [now rewrite Hl, Hlv|]. split; [exact Hlook|]. split; [exact Hsize|].
  split.
  - rewrite <- (leibniz_equiv_iff (namespace (bucket r.2) prefix) ∅), <- size_empty_iff, Hsize.
    lia.
  - intros k Hk. rewrite Hlook, decide_False; [reflexivity|].
    intros Hin. apply first_page_subset in Hin.
    apply elem_of_filter in Hin as [Hp _]. now apply Hk.
Qed.

Lemma delete_removes_one_page_witness :
  let w := world_with 3 in
  let r := deleteFolderFromR2 env_ok "app/" w in
  s3_log r.2 =
    (s3_log w ++ ListObjectsV2Command "app/" ::
       map DeleteObjectCommand (first_page (bucket w) "app/"))%list /\
  (forall k, bucket r.2 !! k =
             if decide (k ∈ first_page (bucket w) "app/") then None else bucket w !! k) /\
  size (namespace (bucket r.2) "app/") =
    (size (namespace (bucket w) "app/") - MaxKeys)%nat /\
  (namespace (bucket r.2) "app/" = ∅ <->
   (size (namespace (bucket w) "app/") <= MaxKeys)%nat) /\
  (forall k, ~ has_prefix "app/" k -> bucket r.2 !! k = bucket w !! k).
Proof.
  apply (delete_removes_one_page env_ok "app/" (world_with 3)).
  vm_compute. reflexivity.
Defined.

(** X6. [deleteFolderFromR2] does not undo anything when it throws: the
    keys of the first page fall into those already deleted and those kept,
    in the order of the listing; the deleted ones are gone, the kept ones
    are still in the namespace, and every other key holds what it held. *)
Theorem delete_failure_is_partial (env : Env) (prefix e : string) (w : World) :
  let r := deleteFolderFromR2 env prefix w in
  r.1 = Throw e ->
  exists deleted kept,
    first_page (bucket w) prefix = (deleted ++ kept)%list /\
    (forall k, bucket r.2 !! k =
               if decide (k ∈ deleted) then None else bucket w !! k) /\
    (forall k, k ∈ kept -> k ∈ namespace (bucket r.2) prefix) /\
    s3_fault env (length (s3_log r.2) - 1) = Some e.
Proof.
  intros r Hr.
  destruct (deleteFolderFromR2_store env prefix w) as (H1 & Hb & Hl & _).
  fold r in H1, Hb, Hl. rewrite Hr in H1. symmetry in H1.
  destruct (send_all env (delete_requests prefix (bucket w)) w) as [c v] eqn:Hs.
  simpl in H1, Hb, Hl. subst c.
  apply send_all_throw in Hs as (done & c & rest & Hsplit & Hbv & Hlv & Hf).
  assert (Hfault : s3_fault env (length (s3_log r.2) - 1) = Some e).
  { rewrite Hl, Hlv, !length_app. simpl.
    replace (length (s3_log w) + (length done + 1) - 1)%nat
      with (length (s3_log w) + length done)%nat by lia.
    exact Hf. }
  assert (Hkept : forall deleted kept,
            first_page (bucket w) prefix = (deleted ++ kept)%list ->
            (forall k, bucket r.2 !! k =
                       if decide (k ∈ deleted) then None else bucket w !! k) ->
            forall k, k ∈ kept -> k ∈ namespace (bucket r.2) prefix).
  { intros deleted kept Hpage Hlook k Hk.
    assert (Hin : k ∈ namespace (bucket w) prefix).
    { apply first_page_subset. rewrite Hpage. apply elem_of_app. now right. }
    apply elem_of_filter in Hin as [Hp Hdom]. apply elem_of_filter. split; [exact Hp|].
    apply elem_of_dom. rewrite Hlook, decide_False; [now apply elem_of_dom|].
    intros Hd. pose proof (NoDup_first_page (bucket w) prefix) as Hnd.
    rewrite Hpage in Hnd. apply NoDup_app in Hnd as (_ & Hdis & _).
    now apply (Hdis k). }
  unfold delete_requests in Hsplit.
  destruct done as [|d done].
  - exists [], (first_page (bucket w) prefix).
    assert (Hlook : forall k, bucket r.2 !! k =
              if decide (k ∈ []) then None else bucket w !! k).
    { intros k. rewrite Hb, Hbv, decide_False; [reflexivity | apply not_elem_of_nil]. }
    split; [reflexivity|]. split; [exact Hlook|]. split; [|exact Hfault].
    now apply (Hkept [] _).
  - simpl in Hsplit. injection Hsplit as <- Hmap.
    apply fmap_app_inv in Hmap as (deleted & kept & -> & Hkeep & Hpage).
    exists deleted, kept.
    assert (Hlook : forall k, bucket r.2 !! k =
              if decide (k ∈ deleted) then None else bucket w !! k).
    { intros k. rewrite Hb, Hbv.
      apply (lookup_apply_all_delete deleted (bucket w) k). }
    split; [exact Hpage|]. split; [exact Hlook|]. split; [|exact Hfault].
    now apply (Hkept deleted kept).
Qed.

Lemma delete_failure_is_partial_witness :
  let w := world_with 3 in
  let r := deleteFolderFromR2 (env_store_fails_at 2) "app/" w in
  exists deleted kept,
    first_page (bucket w) "app/" = (deleted ++ kept)%list /\
    (forall k, bucket r.2 !! k =
               if decide (k ∈ deleted) then None else bucket w !! k) /\
    (forall k, k ∈ kept -> k ∈ namespace (bucket r.2) "app/") /\
    s3_fault (env_store_fails_at 2) (length (s3_log r.2) - 1)
      = Some "InternalError: We encountered an internal error".
Proof.
  apply (delete_failure_is_partial (env_store_fails_at 2) "app/"
           "InternalError: We encountered an internal error" (world_with 3)).
  vm_compute. reflexivity.
Defined.

(** X7. [uploadDirToR2] only ever adds: however it ends, every request
    it has sent is an upload, every key the bucket held is still there,
    keys outside [subdomain/] hold what they held, and the record store is
    untouched. When the directory cannot be read it throws before sending
    anything. *)
Theorem upload_only_adds (env : Env) (dirPath subdomain : string) (w : World) :
  let r := uploadDirToR2 env dirPath subdomain w in
  (exists sent,
     s3_log r.2 = (s3_log w ++ sent)%list /\ Forall (fun c => is_put c = true) sent) /\
  dom (bucket w) ⊆ dom (bucket r.2) /\
  (forall k, ~ has_prefix (subdomain ++ "/") k -> bucket r.2 !! k = bucket w !! k) /\
  builds r.2 = builds w /\ db_log r.2 = db_log w /\
  match readdirSync env dirPath with
  | Throw e => r = (Throw e, w)
  | Normal _ => True
  end.
Proof.
  intros r. subst r. rewrite uploadDirToR2_store.
  destruct (readdirSync env dirPath) as [entries|e].
  - destruct (send_all_puts_add env (puts_of_all env subdomain entries)
                (subdomain ++ "/") w) as (Hlog & Hdom & Hother).
    { apply puts_of_all_is_put. }
    { apply keys_puts_of_all_prefix. }
    destruct (send_all_frame env (puts_of_all env subdomain entries) w) as (Hbd & Hdb & _).
    split; [exact Hlog|]. split; [exact Hdom|]. split; [exact Hother|].
    split; [exact Hbd|]. split; [exact Hdb | exact I].
  - split; [exists []; now rewrite app_nil_r|].
    split; [reflexivity|]. now repeat split.
Qed.

(** X8. What [uploadDirToR2] has stored when it returns: for a directory
    whose files have distinct paths, each file of the tree is in the bucket
    under [subdomain/] followed by its path, with its bytes and with the
    content type looked up from its name, [application/octet-stream] when
    the lookup finds none. *)
Theorem uploaded_files_are_stored
    (env : Env) (dirPath subdomain : string) (entries : list entry) (w : World)
    (a : Artifact) :
  let r := uploadDirToR2 env dirPath subdomain w in
  readdirSync env dirPath = Normal entries ->
  r.1 = Normal tt ->
  NoDup (rel_paths_in entries) ->
  a ∈ files_in entries ->
  bucket r.2 !! (subdomain ++ "/" ++ rel_path a) =
    Some (mkObject (file_content a)
            (Some (match mime_lookup env (file_name a) with
                   | Some (String c s) => String c s
                   | _ => "application/octet-stream"
                   end))).
Proof.
  intros r Hdir Hr Hnd Ha. subst r. rewrite uploadDirToR2_store, Hdir in Hr |- *.
  destruct (send_all env (puts_of_all env subdomain entries) w) as [c v] eqn:Hs.
  simpl in Hr |- *. subst c. apply send_all_normal in Hs as [Hb _].
  rewrite Hb, (lookup_uploaded env subdomain entries (bucket w) a Hnd Ha).
  unfold stored_as. now destruct (mime_lookup env (file_name a)) as [[|c s]|].
Qed.

Lemma uploaded_files_are_stored_witness :
  let r := uploadDirToR2 env_ok "tmp/dist" "app" (world_with 2) in
  let a := mkArtifact "assets/app.js" "app.js" [] in
  bucket r.2 !! "app/assets/app.js" = Some (mkObject [] (Some "application/octet-stream")).
Proof.
  apply (uploaded_files_are_stored env_ok "tmp/dist" "app" site (world_with 2)
           (mkArtifact "assets/app.js" "app.js" [])).
  - reflexivity.
  - vm_compute. reflexivity.
  - vm_compute. repeat constructor; set_solver.
  - vm_compute. set_solver.
Defined.

End StageBehaviour.

(* ================================================================== *)
(** ** A run as a whole *)
(* ================================================================== *)

Module RunBehaviour.
Import Js Refinement Examples Site StringFacts StoreFacts PublishFacts BucketFacts WalkFacts
       RunFacts RecordFacts SiteFacts ReplaceFacts.

(** X9. A run touches the namespace of its own project only: however
    it ends, every key that does not start with [projectName/] holds after
    the run what it held before. *)
Theorem run_leaves_other_projects_alone
    (env : Env) (projectId : Z) (projectName repo_url : string) (w : World) (k : string) :
  ~ has_prefix (projectName ++ "/") k ->
  bucket (startBuild env projectId projectName repo_url w).2 !! k = bucket w !! k.
Proof.
  intros Hk.
  destruct (startBuild_replace_artifacts env projectId projectName repo_url w)
    as [[Hb _] _].
  rewrite Hb. now apply replace_artifacts_other.
Qed.

Lemma run_leaves_other_projects_alone_witness :
  let b : gmap string Object :=
    {["app/old.html" := old_object; "blog/index.html" := old_object]} in
  let w := mkWorld b [] (mkBuilds [] 1) [] [] in
  bucket (startBuild env_ok 7 "app" repo w).2 !! "blog/index.html" = b !! "blog/index.html".
Proof.
  intros b w.
  apply (run_leaves_other_projects_alone env_ok 7 "app" repo w "blog/index.html").
  vm_compute. intros H. exact H.
Defined.

(** X11. What a run leaves in the bucket once its uploads have gone
    through, whether or not the temporary folder can be removed afterwards.
    When the old namespace fitted on one page of the listing and the files
    of the build output have distinct paths, the namespace afterwards holds
    exactly one key for each file, [projectName/] followed by its path, and
    under that key the bytes of the file with the content type looked up
    from its name. *)
Theorem run_publishes_build_output
    (env : Env) (projectId : Z) (projectName repo_url : string) (w : World)
    (fw : Detector.Framework) (entries : list entry) :
  let tmp := tempFolder_of env projectName in
  let s := startBuild env projectId projectName repo_url w in
  prepare env repo_url tmp = Normal fw ->
  readdirSync env (path_join env tmp (Detector.outDir fw)) = Normal entries ->
  (forall j,
     (j < 1 + length (first_page (bucket w) (projectName ++ "/")) +
          count_files_in entries)%nat ->
     s3_fault env (length (s3_log w) + j) = None) ->
  (size (namespace (bucket w) (projectName ++ "/")) <= MaxKeys)%nat ->
  NoDup (rel_paths_in entries) ->
  namespace (bucket s.2) (projectName ++ "/") =
    list_to_set (map (fun a => projectName ++ "/" ++ rel_path a) (files_in entries)) /\
  forall a, a ∈ files_in entries ->
    bucket s.2 !! (projectName ++ "/" ++ rel_path a) =
      Some (mkObject (file_content a)
              (Some (match mime_lookup env (file_name a) with
                     | Some (String c ct) => String c ct
                     | _ => "application/octet-stream"
                     end))).
Proof.
  intros tmp s Hp Hd Hnone Hfit Hnd.
  destruct (replace_artifacts_uploaded env projectName repo_url tmp w fw entries Hp Hd Hnone)
    as [_ Hb].
  destruct (startBuild_replace_artifacts env projectId projectName repo_url w)
    as [[Hbs _] _].
  fold s tmp in Hbs. rewrite Hbs, Hb. clear Hbs Hb.
  pose proof (puts_of_all_is_put env projectName entries) as Hputs.
  rewrite <- length_keys_with_prefix in Hfit.
  split.
  - rewrite ArtifactProperties.namespace_apply_all_puts;
      [|exact Hputs | apply keys_puts_of_all_prefix].
    rewrite (namespace_after_delete _ (bucket w) Hfit), keys_puts_of_all.
    rewrite (right_id_L ∅ (∪)), rel_paths_in_files, map_map. reflexivity.
  - intros a Ha. rewrite (lookup_uploaded env projectName entries _ a Hnd Ha).
    unfold stored_as. now destruct (mime_lookup env (file_name a)) as [[|c ct]|].
Qed.

Lemma run_publishes_build_output_witness :
  let s := startBuild env_ok 7 "app" repo (world_with 2) in
  namespace (bucket s.2) ("app" ++ "/") =
    list_to_set (map (fun a => "app" ++ "/" ++ rel_path a) (files_in site)) /\
  forall a, a ∈ files_in site ->
    bucket s.2 !! ("app" ++ "/" ++ rel_path a) =
      Some (mkObject (file_content a)
              (Some (match mime_lookup env_ok (file_name a) with
                     | Some (String c ct) => String c ct
                     | _ => "application/octet-stream"
                     end))).
Proof.
  apply (run_publishes_build_output env_ok 7 "app" repo (world_with 2)
           Detector.Unknown site).
  - reflexivity.
  - reflexivity.
  - intros j _. reflexivity.
  - change (size (namespace (old_bucket 2) "app/") <= MaxKeys)%nat.
    rewrite (ArtifactProperties.size_namespace_old_bucket 2). unfold MaxKeys. lia.
  - vm_compute. repeat constructor; set_solver.
Defined.



End RunBehaviour.


(* ================================================================== *)
(** ** More on the publish resolver *)
(* ================================================================== *)

Module ResolverBehaviour.
Import Js Pipeline Resolver Examples Site StringFacts StoreFacts WalkFacts SiteFacts
       ResolverProperties.

Lemma occurs_in_cons (pat : string) (c : ascii) (s : string) :
  occurs_in pat (String c s) = false ->
  String.prefix pat (String c s) = false /\ occurs_in pat s = false.
Proof.
  change (occurs_in pat (String c s))
    with (String.prefix pat (String c s) || occurs_in pat s).
  apply orb_false_elim.
Qed.

Lemma replace_absent (pat rep s : string) :
  occurs_in pat s = false -> replace pat rep s = s.
Proof.
  induction s as [|c s IH]; intros Hfree.
  - rewrite replace_unfold.
    change (occurs_in pat "") with (String.prefix pat "" || false) in Hfree.
    apply orb_false_elim in Hfree as [-> _]. reflexivity.
  - apply occurs_in_cons in Hfree as [Hhere Hlater].
    now rewrite replace_later, IH.
Qed.

Lemma or_default_some (h : string) : or_default (Some h) "" = h.
Proof. now destruct h. Qed.

Lemma split_head_free (s : string) : occurs_in "." (split_head "." s) = false.
Proof.
  induction s as [|c s IH]; [reflexivity|].
  rewrite split_head_cons. destruct (Ascii.eqb_spec c ".") as [->|Hne]; [reflexivity|].
  change (occurs_in "." (String c (split_head "." s)))
    with (String.prefix "." (String c (split_head "." s)) || occurs_in "." (split_head "." s)).
  rewrite IH, prefix_cons_ne by congruence. reflexivity.
Qed.

Lemma split_head_prefix (s : string) : String.prefix (split_head "." s) s = true.
Proof.
  induction s as [|c s IH]; [reflexivity|].
  rewrite split_head_cons. destruct (Ascii.eqb_spec c ".") as [->|Hne]; [reflexivity|].
  simpl. destruct (ascii_dec c c); [exact IH | contradiction].
Qed.

(** X17. A host that does not contain the apex domain after a dot is
    its own namespace in the second revision: nothing is removed from it,
    so the key is the whole host followed by the path. *)
Theorem foreign_host_is_its_own_namespace (root host path : string) :
  occurs_in ("." ++ root) host = false ->
  subdomain_rev2 root host = host /\
  key_of (subdomain_rev2 root) (Some host) path = host ++ reqPath path.
Proof.
  intros Hfree. unfold key_of, subdomain_rev2.
  rewrite or_default_some, replace_absent by exact Hfree. now split.
Qed.

Lemma foreign_host_is_its_own_namespace_witness :
  subdomain_rev2 domainRoot "localhost:3001" = "localhost:3001" /\
  key_of (subdomain_rev2 domainRoot) (Some "localhost:3001") "/" =
    "localhost:3001" ++ reqPath "/".
Proof.
  apply (foreign_host_is_its_own_namespace domainRoot "localhost:3001" "/").
  reflexivity.
Defined.

(** X18. The namespace of the first revision is the host up to its
    first dot: it starts the host, it holds no dot, and it is the whole
    host exactly when the host holds no dot. *)
Theorem rev1_namespace_is_first_label (host : string) :
  String.prefix (subdomain_rev1 host) host = true /\
  occurs_in "." (subdomain_rev1 host) = false /\
  (subdomain_rev1 host = host <-> occurs_in "." host = false).
Proof.
  unfold subdomain_rev1. split; [apply split_head_prefix|].
  split; [apply split_head_free|]. split.
  - intros H. rewrite <- H. apply split_head_free.
  - apply split_head_no_dot.
Qed.

Lemma serve_project_host (label path : string) (fault : option string)
    (b : gmap string Object) :
  occurs_in "." label = false ->
  serve_rev1 fault b (Some (label ++ "." ++ domainRoot)) path =
    serve (fun _ => label) fault b None path /\
  serve_rev2 fault b (Some (label ++ "." ++ domainRoot)) path =
    serve (fun _ => label) fault b None path.
Proof.
  intros Hfree. unfold serve_rev1, serve_rev2, serve, key_of, subdomain_rev1, subdomain_rev2.
  rewrite or_default_some, split_head_label, replace_apex_suffix by exact Hfree.
  now split.
Qed.

(** X20. A request reads the namespace of its host only: for a path
    that starts with a slash, two buckets that hold the same objects under
    the namespace followed by a slash give the same response, whatever else
    they hold. *)
Theorem serve_reads_own_namespace_only
    (subdomain_of : string -> string) (fault : option string)
    (b b' : gmap string Object) (host : option string) (rest : string) :
  let ns := subdomain_of (or_default host "") in
  (forall k, has_prefix (ns ++ "/") k -> b !! k = b' !! k) ->
  serve subdomain_of fault b host (String "/" rest) =
  serve subdomain_of fault b' host (String "/" rest).
Proof.
  intros ns Hsame. unfold serve, s3_get, key_of. fold ns.
  assert (Hkey : has_prefix (ns ++ "/") (ns ++ reqPath (String "/" rest))).
  { unfold has_prefix, reqPath.
    destruct (String.eqb (String "/" rest) "/").
    - change "/index.html" with ("/" ++ "index.html").
      now rewrite <- append_assoc, prefix_append.
    - change (String "/" rest) with ("/" ++ rest).
      now rewrite <- append_assoc, prefix_append. }
  now rewrite (Hsame _ Hkey).
Qed.

Lemma serve_reads_own_namespace_only_witness :
  let b : gmap string Object := {["app/index.html" := old_object]} in
  let b' : gmap string Object := <["blog/index.html" := mkObject [] None]> b in
  serve subdomain_rev1 None b (Some "app.example.com") (String "/" "") =
  serve subdomain_rev1 None b' (Some "app.example.com") (String "/" "").
Proof.
  intros b b'.
  apply (serve_reads_own_namespace_only subdomain_rev1 None b b'
           (Some "app.example.com") "").
  intros k Hk. subst b'.
  destruct (decide (k = "blog/index.html")) as [->|Hne]; [contradiction Hk|].
  now rewrite lookup_insert_ne by congruence.
Defined.

End ResolverBehaviour.

(* ================================================================== *)
(** ** Temporary folders and webhook records *)
(* ================================================================== *)

Module FolderBehaviour.
Import Js Refinement Examples Webhook StringFacts StoreFacts PublishFacts RunFacts
       RecordFacts SiteFacts WebhookProperties.

Lemma occurs_in_dash_cons (c : ascii) (s : string) :
  occurs_in "-" (String c s) = false <-> c <> "-"%char /\ occurs_in "-" s = false.
Proof.
  change (occurs_in "-" (String c s))
    with (String.prefix "-" (String c s) || occurs_in "-" s).
  destruct (ascii_dec "-" c) as [<-|Hne].
  - change (String "-" s) with ("-" ++ s). rewrite prefix_append. simpl.
    split; [discriminate | intros [H _]; now contradict H].
  - rewrite prefix_cons_ne by exact Hne. simpl.
    split; [intros H; split; [congruence | exact H] | intros [_ H]; exact H].
Qed.

Lemma pretty_N_char_no_dash (x : N) : pretty_N_char x <> "-"%char.
Proof. unfold pretty_N_char. repeat case_match; discriminate. Qed.

Lemma pretty_N_go_no_dash (x : N) :
  forall s, occurs_in "-" s = false -> occurs_in "-" (pretty_N_go x s) = false.
Proof.
  induction (N.lt_wf_0 x) as [x _ IH]. intros s Hs.
  assert (Hx : (x = 0 \/ 0 < x)%N) by lia. destruct Hx as [->|Hpos].
  - now rewrite pretty_N_go_0.
  - rewrite pretty_N_go_step by exact Hpos. apply IH.
    + now apply N.div_lt.
    + apply occurs_in_dash_cons. split; [apply pretty_N_char_no_dash | exact Hs].
Qed.

(** A number that is not negative prints without a dash. *)
Lemma pretty_Z_no_dash (n : Z) : 0 <= n -> occurs_in "-" (pretty n) = false.
Proof.
  intros Hn. destruct n as [|p|p]; [reflexivity | | lia].
  change (pretty (Z.pos p)) with (pretty (N.pos p)).
  unfold pretty, pretty_N. rewrite decide_False by discriminate.
  now apply pretty_N_go_no_dash.
Qed.

(** Two texts joined by a dash come apart again when the first holds
    no dash. *)
Lemma split_at_dash (a b n m : string) :
  occurs_in "-" a = false -> occurs_in "-" b = false ->
  a ++ "-" ++ n = b ++ "-" ++ m -> a = b /\ n = m.
Proof.
  revert b. induction a as [|c a IH]; intros [|c' b] Ha Hb.
  - rewrite !append_nil. intros H. split; [reflexivity|]. now apply append_inj_l in H.
  - rewrite append_nil, append_cons. change ("-" ++ n) with (String "-" n).
    intros [= <- _]. apply occurs_in_dash_cons in Hb as [Hb _]. now contradict Hb.
  - rewrite append_nil, append_cons. change ("-" ++ m) with (String "-" m).
    intros [= -> _]. apply occurs_in_dash_cons in Ha as [Ha _]. now contradict Ha.
  - rewrite !append_cons. intros [= <- H].
    apply occurs_in_dash_cons in Ha as [_ Ha]. apply occurs_in_dash_cons in Hb as [_ Hb].
    destruct (IH b Ha Hb H) as [-> ->]. now split.
Qed.

(** X22. The temporary folder of a run tells the run's clock and
    project apart from every other: two runs whose clocks are not negative
    get the same folder only when they start at the same millisecond for
    the same project name. *)
Theorem tempFolder_of_is_injective (env env' : Env) (projectName projectName' : string) :
  0 <= now env -> 0 <= now env' ->
  tempFolder_of env projectName = tempFolder_of env' projectName' ->
  now env = now env' /\ projectName = projectName'.
Proof.
  intros Hn Hn' Heq. unfold tempFolder_of in Heq.
  apply append_inj_l in Heq.
  apply split_at_dash in Heq as [Hnow Hname]; [|now apply pretty_Z_no_dash..].
  split; [now apply (inj pretty) | exact Hname].
Qed.

Lemma tempFolder_of_is_injective_witness :
  now env_ok = now env_no_output /\ "app" = "app".
Proof.
  apply (tempFolder_of_is_injective env_ok env_no_output "app" "app").
  - vm_compute. discriminate.
  - vm_compute. discriminate.
  - reflexivity.
Defined.

End FolderBehaviour.

(* ================================================================== *)
(** ** Facts about a run against a store that can reject *)
(* ================================================================== *)

Module FallibleFacts.
Import Js Refinement Site Fallible StringFacts StoreFacts PublishFacts BucketFacts WalkFacts
       RunFacts RecordFacts SiteFacts ReplaceFacts.

Lemma bind_ext {A B : Type} (m : M A) (f g : A -> M B) (w : World) :
  (forall a v, f a v = g a v) -> (m ≫= f) w = (m ≫= g) w.
Proof. intros H. rewrite !bind_unfold. destruct (m w) as [[a|e] v]; [apply H | reflexivity]. Qed.

Lemma db_update_status_agree_run (st : Store) (i : Z) (status : string) (w v : World) :
  agree w v ->
  agree_run (Fallible.db_update_status st i status w) (Fallible.db_update_status st i status v).
Proof.
  intros Hwv. unfold Fallible.db_update_status.
  destruct (rejects st (SetStatus i status)); [now split|].
  now apply db_update_status_agree.
Qed.

Section WithEnv.
Variable st : Store.
Variable env : Env.

(** The [try] block is the stages that replace the artifacts, followed by
    the update to success. *)
Lemma build_and_publish_replace (buildId : Z) (projectName repo_url tempFolder : string)
    (w v : World) :
  agree w v ->
  agree_run (Fallible.build_and_publish st env buildId projectName repo_url tempFolder w)
            ((replace_artifacts env projectName repo_url tempFolder;;
              Fallible.db_update_status st buildId "success") v).
Proof.
  intros Hwv. rewrite (bind_unfold (replace_artifacts env _ _ _)).
  unfold Fallible.build_and_publish, replace_artifacts, prepare.
  rewrite bind_console_log.
  set (w0 := mkWorld _ _ _ _ _).
  assert (H0 : agree w0 v) by (destruct Hwv as (? & ? & ? & ?); repeat split; assumption).
  clearbody w0. clear Hwv w.
  rewrite !bind_lift.
  destruct (clone env repo_url tempFolder) as [[]|e]; [|split; [reflexivity | exact H0]].
  cbv beta iota; try rewrite !bind_lift.
  destruct (readFileSync env _) as [text|e]; [|split; [reflexivity | exact H0]].
  cbv beta iota; try rewrite !bind_lift.
  destruct (JSON_parse env text) as [pkgJson|e]; [|split; [reflexivity | exact H0]].
  cbv beta iota; try rewrite !bind_lift.
  destruct (Detector.detectFramework _ _ pkgJson tempFolder) as [fw|e];
    [|split; [reflexivity | exact H0]].
  cbv beta iota; try rewrite !bind_lift.
  destruct (Executor.await _) as [out1|e]; [|split; [reflexivity | exact H0]].
  cbv beta iota; try rewrite !bind_lift.
  destruct (Executor.await _) as [out2|e]; [|split; [reflexivity | exact H0]].
  cbv beta iota; try rewrite !bind_lift; cbv beta iota.
  rewrite !bind_unfold.
  destruct (deleteFolderFromR2_send_all env (projectName ++ "/") w0 v H0) as [Hr1 H1].
  destruct (deleteFolderFromR2 env _ w0) as [r1 w1], (send_all env _ v) as [r1' v1].
  simpl in Hr1, H1. subst r1'. destruct r1 as [[]|e]; [|split; [reflexivity | exact H1]].
  cbv beta iota. rewrite (bind_unfold (uploadDirToR2 env _ _)), uploadDirToR2_store.
  rewrite !bind_lift.
  destruct (readdirSync env _) as [entries|e]; [|split; [reflexivity | exact H1]].
  rewrite !bind_unfold.
  destruct (send_all_agree env (puts_of_all env projectName entries) w1 v1 H1)
    as [Hr2 H2].
  destruct (send_all env _ w1) as [r2 w2], (send_all env _ v1) as [r2' v2].
  simpl in Hr2, H2. subst r2'. destruct r2 as [[]|e]; [|split; [reflexivity | exact H2]].
  rewrite bind_lift. unfold lift.
  destruct (rmSync env tempFolder) as [[]|e]; [|split; [reflexivity | exact H2]].
  rewrite bind_unfold.
  destruct (db_update_status_agree_run st buildId "success" w2 v2 H2) as [Hr3 H3].
  destruct (Fallible.db_update_status st buildId "success" w2) as [r3 w3],
           (Fallible.db_update_status st buildId "success" v2) as [r3' v3].
  simpl in Hr3, H3. subst r3'. destruct r3 as [[]|e]; [|split; [reflexivity | exact H3]].
  split; [reflexivity|]. destruct H3 as (? & ? & ? & ?). repeat split; assumption.
Qed.

(** How a run ends, in terms of the stages that replace the artifacts
    and of what the store answers to the three writes. *)
Lemma startBuild_ends (projectId : Z) (projectName repo_url : string) (w : World) :
  let i := next_id (builds w) in
  let row := new_row env projectId projectName "pending" w in
  let inserted := mkBuilds (rows (builds w) ++ [row]) (next_id (builds w) + 1) in
  let s := Fallible.startBuild st env projectId projectName repo_url w in
  let r := replace_artifacts env projectName repo_url (tempFolder_of env projectName) w in
  match rejects st (Insert row) with
  | Some e => s = (Throw e, w)
  | None =>
      same_store s.2 r.2 /\
      match r.1, rejects st (SetStatus i "success") with
      | Normal _, None =>
          s.1 = Normal tt /\
          builds s.2 = update_status i "success" inserted /\
          db_log s.2 = (db_log w ++ [Insert row; SetStatus i "success"])%list
      | _, _ =>
          match rejects st (SetStatus i "failed") with
          | None =>
              s.1 = Normal tt /\
              builds s.2 = update_status i "failed" inserted /\
              db_log s.2 = (db_log w ++ [Insert row; SetStatus i "failed"])%list
          | Some e =>
              s.1 = Throw e /\
              builds s.2 = inserted /\
              db_log s.2 = (db_log w ++ [Insert row])%list
          end
      end
  end.
Proof.
  intros i row inserted s r. subst s.
  unfold Fallible.startBuild. rewrite bind_unfold. unfold Fallible.db_insert.
  change (Db.insert (mkNewBuild projectId "pending" 1
                       ("https://" ++ projectName ++ BASE_URL env) "") (builds w))
    with (row, inserted).
  cbv beta iota.
  destruct (rejects st (Insert row)) as [e|]; [reflexivity|].
  rewrite !bind_console_log. cbn [bucket s3_log builds db_log console Db.id row new_row].
  fold i.
  set (entry := mkWorld _ _ _ _ _).
  assert (Hstore : same_store entry w) by (split; reflexivity).
  assert (Hbuilds : builds entry = inserted) by reflexivity.
  assert (Hlog : db_log entry = (db_log w ++ [Insert row])%list) by reflexivity.
  clearbody entry.
  unfold try_catch.
  destruct (build_and_publish_replace i projectName repo_url (tempFolder_of env projectName)
              entry entry (agree_refl entry)) as [Hr Ha].
  rewrite bind_unfold in Hr, Ha.
  destruct (replace_artifacts_same_store env projectName repo_url
              (tempFolder_of env projectName) entry w Hstore) as [Hr1 Hs1].
  destruct (replace_artifacts_frame env projectName repo_url
              (tempFolder_of env projectName) entry) as (Hfb & Hfd & _).
  fold r in Hr1, Hs1.
  destruct (replace_artifacts env projectName repo_url (tempFolder_of env projectName) entry)
    as [r1 v1].
  simpl in Hr1, Hs1, Hfb, Hfd. rewrite <- Hr1. clear Hr1.
  assert (Hcatch : forall e w4, agree w4 v1 ->
            let c := (console_log [Text "❌ Build Failed"; Text e];;
                      Fallible.db_update_status st i "failed") w4 in
            same_store c.2 r.2 /\
            match rejects st (SetStatus i "failed") with
            | None =>
                c.1 = Normal tt /\
                builds c.2 = update_status i "failed" inserted /\
                db_log c.2 = (db_log w ++ [Insert row; SetStatus i "failed"])%list
            | Some e' =>
                c.1 = Throw e' /\ builds c.2 = inserted /\
                db_log c.2 = (db_log w ++ [Insert row])%list
            end).
  { intros e w4 (Hb4 & Hl4 & Ht4 & Hd4) c. subst c. rewrite bind_console_log.
    unfold Fallible.db_update_status.
    destruct Hs1 as [Hsb Hsl].
    destruct (rejects st (SetStatus i "failed")) as [e'|]; simpl.
    - split; [split; simpl; congruence|]. split; [reflexivity|]. split; congruence.
    - split; [split; simpl; congruence|]. split; [reflexivity|].
      split; [congruence|]. rewrite Hd4, Hfd, Hlog, <- app_assoc. reflexivity. }
  destruct r1 as [[]|e1].
  - (* the stages went through *)
    unfold Fallible.db_update_status in Hr, Ha |- *.
    destruct (rejects st (SetStatus i "success")) as [e|].
    + destruct (Fallible.build_and_publish st env i _ _ _ entry) as [[[]|e'] w4];
        simpl in Hr, Ha; [discriminate|]. injection Hr as ->.
      destruct (Hcatch e w4 Ha) as [Hss Hm]. split; [exact Hss | exact Hm].
    + destruct (Fallible.build_and_publish st env i _ _ _ entry) as [[[]|e'] w4];
        simpl in Hr, Ha; [|discriminate].
      destruct Ha as (Hb4 & Hl4 & Ht4 & Hd4). destruct Hs1 as [Hsb Hsl].
      simpl in Hb4, Hl4, Ht4, Hd4 |- *.
      split; [split; simpl; congruence|]. split; [reflexivity|].
      split; [congruence|]. rewrite Hd4, Hfd, Hlog, <- app_assoc. reflexivity.
  - (* a stage threw *)
    destruct (Fallible.build_and_publish st env i _ _ _ entry) as [[[]|e'] w4];
      simpl in Hr, Ha; [discriminate|]. injection Hr as ->.
    destruct (Hcatch e1 w4 Ha) as [Hss Hm]. split; [exact Hss | exact Hm].
Qed.

End WithEnv.

(** The rows after a run: the rows before, and the row of the run when
    the store has accepted the insert. *)
Lemma startBuild_rows (st : Store) (env : Env) (projectId : Z)
    (projectName repo_url : string) (w : World) :
  well_formed (builds w) ->
  let s := Fallible.startBuild st env projectId projectName repo_url w in
  well_formed (builds s.2) /\
  match rejects st (Insert (new_row env projectId projectName "pending" w)) with
  | Some _ => rows (builds s.2) = rows (builds w)
  | None =>
      exists status,
        (status = "pending" \/ status = "success" \/ status = "failed") /\
        rows (builds s.2) =
          (rows (builds w) ++ [new_row env projectId projectName status w])%list /\
        next_id (builds s.2) = next_id (builds w) + 1
  end.
Proof.
  intros Hwf s.
  pose proof (startBuild_ends st env projectId projectName repo_url w) as Hends.
  cbv zeta in Hends. fold s in Hends.
  set (row := new_row env projectId projectName "pending" w) in *.
  destruct (rejects st (Insert row)) as [e|].
  - rewrite Hends. now split.
  - destruct Hends as [_ Hends].
    assert (Hupd : forall status,
              status = "pending" \/ status = "success" \/ status = "failed" ->
              builds s.2 = update_status (next_id (builds w)) status
                             (mkBuilds (rows (builds w) ++ [row]) (next_id (builds w) + 1)) ->
              well_formed (builds s.2) /\
              exists status',
                (status' = "pending" \/ status' = "success" \/ status' = "failed") /\
                rows (builds s.2) =
                  (rows (builds w) ++ [new_row env projectId projectName status' w])%list /\
                next_id (builds s.2) = next_id (builds w) + 1).
    { intros status Hst Hb.
      assert (Hrows : rows (builds s.2) =
                (rows (builds w) ++ [new_row env projectId projectName status w])%list).
      { rewrite Hb. apply (update_status_fresh (rows (builds w)) row). exact Hwf. }
      split.
      - pose proof (well_formed_after (builds w) row status Hwf eq_refl) as Hwf'.
        unfold well_formed in *. rewrite Hrows, Hb. exact Hwf'.
      - exists status. split; [exact Hst|]. split; [exact Hrows | now rewrite Hb]. }
    assert (Hkeep : builds s.2 = mkBuilds (rows (builds w) ++ [row]) (next_id (builds w) + 1) ->
              well_formed (builds s.2) /\
              exists status',
                (status' = "pending" \/ status' = "success" \/ status' = "failed") /\
                rows (builds s.2) =
                  (rows (builds w) ++ [new_row env projectId projectName status' w])%list /\
                next_id (builds s.2) = next_id (builds w) + 1).
    { intros Hb. rewrite Hb. split.
      - apply (well_formed_after (builds w) row "pending" Hwf eq_refl).
      - exists "pending". split; [now left|]. now split. }
    destruct (replace_artifacts env _ _ _ w).1 as [[]|e1];
      repeat match type of Hends with
             | context [match rejects ?a ?b with _ => _ end] => destruct (rejects a b)
             end;
      destruct Hends as (_ & Hb & _);
      first [ now apply Hkeep
            | apply (Hupd "success"); [now (right; left) | exact Hb]
            | apply (Hupd "failed"); [now (right; right) | exact Hb] ].
Qed.

(** Later runs leave the rows that are there as they are. *)
Lemma run_all_keeps (runs : list Run) (w : World) :
  well_formed (builds w) ->
  exists more, rows (builds (Fallible.run_all runs w)) = (rows (builds w) ++ more)%list.
Proof.
  revert w. induction runs as [|r runs IH]; intros w Hwf.
  - exists []. now rewrite app_nil_r.
  - destruct (startBuild_rows (run_store r) (run_env r) (run_projectId r)
                (run_projectName r) (run_repo_url r) w Hwf) as [Hwf' Hrows].
    destruct (IH _ Hwf') as [more Hmore]. simpl. rewrite Hmore.
    destruct (rejects _ _).
    + rewrite Hrows. now exists more.
    + destruct Hrows as (status & _ & -> & _). rewrite <- app_assoc. eauto.
Qed.

(** Against a store that accepts the three writes of a run, the run is
    the one of [Pipeline.startBuild]. *)
Lemma startBuild_accepted (st : Store) (env : Env) (projectId : Z)
    (projectName repo_url : string) (w : World) :
  let i := next_id (builds w) in
  rejects st (Insert (new_row env projectId projectName "pending" w)) = None ->
  rejects st (SetStatus i "success") = None ->
  rejects st (SetStatus i "failed") = None ->
  Fallible.startBuild st env projectId projectName repo_url w =
  Pipeline.startBuild env projectId projectName repo_url w.
Proof.
  intros i Hins Hsucc Hfail.
  unfold Fallible.startBuild, Pipeline.startBuild. rewrite !bind_unfold.
  unfold Fallible.db_insert, Pipeline.db_insert.
  change (Db.insert (mkNewBuild projectId "pending" 1
                       ("https://" ++ projectName ++ BASE_URL env) "") (builds w))
    with (new_row env projectId projectName "pending" w,
          mkBuilds (rows (builds w) ++ [new_row env projectId projectName "pending" w])
                   (next_id (builds w) + 1)).
  cbv beta iota. rewrite Hins.
  rewrite !bind_console_log. unfold try_catch.
  cbn [Db.id new_row]. fold i.
  set (entry := mkWorld _ _ _ _ _).
  assert (Htry : Fallible.build_and_publish st env i projectName repo_url
                   (tempFolder_of env projectName) entry =
                 Pipeline.build_and_publish env i projectName repo_url
                   (tempFolder_of env projectName) entry).
  { unfold Fallible.build_and_publish, Pipeline.build_and_publish.
    repeat (apply bind_ext; intros).
    rewrite !bind_unfold. unfold Fallible.db_update_status. rewrite Hsucc. reflexivity. }
  rewrite Htry.
  destruct (Pipeline.build_and_publish env _ _ _ _ entry) as [[[]|e] w4]; [reflexivity|].
  rewrite !bind_console_log. unfold Fallible.db_update_status. now rewrite Hfail.
Qed.

End FallibleFacts.

(* ================================================================== *)
(** ** The Build record of a run, against a store that can reject *)
(* ================================================================== *)

Module FallibleProperties.
Import Js Refinement Examples Site Fallible Webhook StringFacts StoreFacts PublishFacts
       RunFacts RecordFacts SiteFacts ReplaceFacts FallibleFacts.

(** C3, as the code has it. The insert of a run stands before the [try]:
    when the store rejects it, [startBuild] throws the answer of the store
    and has done nothing else, so there is no record. When the store
    accepts it, the record is created with status pending, the next id,
    build number 1, the address of the project and an empty log; after
    that the run applies at most one more write, which sets the status of
    this record to success or to failed, and it applies none exactly when
    the store rejects the update of the [catch] block, in which case
    [startBuild] throws and the record stays pending. A status once set
    to success or failed is not written again: the rows that were there
    before the run are as they were, and the row of the run stays as the run
    left it through every later run. *)
Theorem build_status_written_at_most_once
    (st : Store) (env : Env) (projectId : Z) (projectName repo_url : string) (w : World) :
  well_formed (builds w) ->
  let i := next_id (builds w) in
  let row := fun status : string =>
    mkBuild i projectId status 1 ("https://" ++ projectName ++ BASE_URL env) "" in
  let s := Fallible.startBuild st env projectId projectName repo_url w in
  match rejects st (Insert (row "pending")) with
  | Some e => s = (Throw e, w)
  | None =>
      exists final status,
        db_log s.2 = (db_log w ++ Insert (row "pending") :: final)%list /\
        rows (builds s.2) = (rows (builds w) ++ [row status])%list /\
        (final = [SetStatus i "success"] /\ status = "success" /\ s.1 = Normal tt \/
         final = [SetStatus i "failed"] /\ status = "failed" /\ s.1 = Normal tt \/
         final = [] /\ status = "pending" /\
         exists e, s.1 = Throw e /\ rejects st (SetStatus i "failed") = Some e) /\
        forall later : list Run,
          exists more,
            rows (builds (Fallible.run_all later s.2)) =
            (rows (builds w) ++ row status :: more)%list
  end.
Proof.
  intros Hwf i row s.
  pose proof (startBuild_ends st env projectId projectName repo_url w) as Hends.
  destruct (startBuild_rows st env projectId projectName repo_url w Hwf) as [Hwf' _].
  cbv zeta in Hends. fold s i in Hends, Hwf'.
  change (new_row env projectId projectName "pending" w) with (row "pending") in Hends.
  destruct (rejects st (Insert (row "pending"))) as [e|]; [exact Hends|].
  destruct Hends as [_ Hends].
  assert (Hlater : forall status,
            rows (builds s.2) = (rows (builds w) ++ [row status])%list ->
            forall later : list Run,
              exists more,
                rows (builds (Fallible.run_all later s.2)) =
                (rows (builds w) ++ row status :: more)%list).
  { intros status Hrows later.
    destruct (run_all_keeps later s.2 Hwf') as [more Hmore].
    exists more. now rewrite Hmore, Hrows, <- app_assoc. }
  assert (Hset : forall status,
            builds s.2 = update_status i status
                           (mkBuilds (rows (builds w) ++ [row "pending"])
                                     (next_id (builds w) + 1)) ->
            rows (builds s.2) = (rows (builds w) ++ [row status])%list).
  { intros status Hb. rewrite Hb.
    apply (update_status_fresh (rows (builds w)) (row "pending")). exact Hwf. }
  destruct (replace_artifacts env _ _ _ w).1 as [[]|e1];
    repeat match type of Hends with
           | context [match rejects ?a ?b with _ => _ end] =>
               let E := fresh "E" in destruct (rejects a b) eqn:E
           end;
    destruct Hends as (Hn & Hb & Hd).
  - exists [], "pending". rewrite Hd.
    assert (Hrows : rows (builds s.2) = (rows (builds w) ++ [row "pending"])%list)
      by now rewrite Hb.
    split; [reflexivity|]. split; [exact Hrows|]. split; [|now apply Hlater].
    right. right. repeat split. eauto.
  - exists [SetStatus i "failed"], "failed". rewrite Hd.
    split; [reflexivity|]. split; [now apply Hset|]. split; [|apply Hlater; now apply Hset].
    right. left. now repeat split.
  - exists [SetStatus i "success"], "success". rewrite Hd.
    split; [reflexivity|]. split; [now apply Hset|]. split; [|apply Hlater; now apply Hset].
    left. now repeat split.
  - exists [], "pending". rewrite Hd.
    assert (Hrows : rows (builds s.2) = (rows (builds w) ++ [row "pending"])%list)
      by now rewrite Hb.
    split; [reflexivity|]. split; [exact Hrows|]. split; [|now apply Hlater].
    right. right. repeat split. eauto.
  - exists [SetStatus i "failed"], "failed". rewrite Hd.
    split; [reflexivity|]. split; [now apply Hset|]. split; [|apply Hlater; now apply Hset].
    right. left. now repeat split.
Qed.

Lemma build_status_written_at_most_once_witness :
  let w := world_with 3 in
  let row := fun status : string =>
    mkBuild 1 7 status 1 ("https://" ++ "app" ++ BASE_URL env_ok) "" in
  let s := Fallible.startBuild store_ok env_ok 7 "app" repo w in
  exists final status,
    db_log s.2 = (db_log w ++ Insert (row "pending") :: final)%list /\
    rows (builds s.2) = (rows (builds w) ++ [row status])%list /\
    (final = [SetStatus 1 "success"] /\ status = "success" /\ s.1 = Normal tt \/
     final = [SetStatus 1 "failed"] /\ status = "failed" /\ s.1 = Normal tt \/
     final = [] /\ status = "pending" /\
     exists e, s.1 = Throw e /\ rejects store_ok (SetStatus 1 "failed") = Some e) /\
    forall later : list Run,
      exists more,
        rows (builds (Fallible.run_all later s.2)) =
        (rows (builds w) ++ row status :: more)%list.
Proof.
  apply (build_status_written_at_most_once store_ok env_ok 7 "app" repo (world_with 3)).
  constructor.
Defined.

(** C3 fails as stated. For a project name of 250 characters the address
    of the build is longer than the 255 characters of its column: the
    store rejects the insert, [startBuild] throws, and the run leaves no
    record and no write at all. And against a store that accepts the
    insert and then rejects the updates, the run publishes the site, throws
    out of its [catch] block, and leaves its record pending. *)
Lemma run_without_terminal_status :
  let s := Fallible.startBuild store_ok env_ok 7 long_name repo (world_with 0) in
  let s' := Fallible.startBuild store_updates_fail env_ok 7 "app" repo (world_with 0) in
  char_length ("https://" ++ long_name ++ BASE_URL env_ok) = 270%nat /\
  s.1 = Throw "error: value too long for type character varying(255)" /\
  rows (builds s.2) = [] /\
  db_log s.2 = [] /\
  s'.1 = Throw "NeonDbError: fetch failed" /\
  rows (builds s'.2) = [mkBuild 1 7 "pending" 1 "https://app.example.com" ""] /\
  db_log s'.2 = [Insert (mkBuild 1 7 "pending" 1 "https://app.example.com" "")] /\
  elements (namespace (bucket s'.2) "app/") = ["app/index.html"; "app/assets/app.js"].
Proof. vm_compute. repeat split. Qed.

(** X10. The status that a run leaves in its record, once the store has
    accepted the insert. The record ends as success exactly when the
    clone, the manifest, the detection, the install and the build go
    through, the tree of the output directory can be read, the temporary
    folder can be removed, none of the requests to the object store fails
    (one listing, one delete for each key of the first page, one upload
    for each file), and the store accepts the update to success. Otherwise
    it ends as failed when the store accepts the update of the [catch]
    block, and stays pending when it does not. *)
Theorem run_status
    (st : Store) (env : Env) (projectId : Z) (projectName repo_url : string) (w : World) :
  well_formed (builds w) ->
  let i := next_id (builds w) in
  let tmp := tempFolder_of env projectName in
  let row := fun status : string =>
    mkBuild i projectId status 1 ("https://" ++ projectName ++ BASE_URL env) "" in
  let s := Fallible.startBuild st env projectId projectName repo_url w in
  let published :=
    (exists fw entries,
       prepare env repo_url tmp = Normal fw /\
       readdirSync env (path_join env tmp (Detector.outDir fw)) = Normal entries /\
       rmSync env tmp = Normal tt /\
       forall j,
         (j < 1 + length (first_page (bucket w) (projectName ++ "/")) +
              count_files_in entries)%nat ->
         s3_fault env (length (s3_log w) + j) = None) /\
    rejects st (SetStatus i "success") = None in
  rejects st (Insert (row "pending")) = None ->
  exists status,
    Db.find i (builds s.2) = Some (row status) /\
    (status = "success" <-> published) /\
    (status = "failed" <-> ~ published /\ rejects st (SetStatus i "failed") = None) /\
    (status = "pending" <-> ~ published /\ rejects st (SetStatus i "failed") <> None).
Proof.
  intros Hwf i tmp row s published Hins.
  pose proof (startBuild_ends st env projectId projectName repo_url w) as Hends.
  cbv zeta in Hends. fold s i tmp in Hends.
  change (new_row env projectId projectName "pending" w) with (row "pending") in Hends.
  rewrite Hins in Hends. destruct Hends as [_ Hends].
  pose proof (replace_artifacts_normal_iff env projectName repo_url tmp w) as Hiff.
  assert (Hfind : forall status,
            rows (builds s.2) = (rows (builds w) ++ [row status])%list ->
            Db.find i (builds s.2) = Some (row status)).
  { intros status Hrows. unfold Db.find. rewrite Hrows.
    apply (find_fresh (rows (builds w)) (row status) 0). exact Hwf. }
  assert (Hset : forall status,
            builds s.2 = update_status i status
                           (mkBuilds (rows (builds w) ++ [row "pending"])
                                     (next_id (builds w) + 1)) ->
            Db.find i (builds s.2) = Some (row status)).
  { intros status Hb. apply Hfind. rewrite Hb.
    apply (update_status_fresh (rows (builds w)) (row "pending")). exact Hwf. }
  subst published.
  destruct (replace_artifacts env projectName repo_url tmp w).1 as [[]|e1] eqn:Hr1.
  - destruct (rejects st (SetStatus i "success")) as [e2|] eqn:Hs.
    + destruct (rejects st (SetStatus i "failed")) as [e3|] eqn:Hf;
        destruct Hends as (_ & Hb & _).
      * exists "pending". split; [apply Hfind; now rewrite Hb|].
        repeat split; try discriminate; try (intros [_ [=]]); try (intros [_ H]; congruence).
      * exists "failed". split; [now apply Hset|].
        repeat split; try discriminate; try (intros [_ [=]]); try (intros [_ H]; congruence).
    + destruct Hends as (_ & Hb & _). exists "success". split; [now apply Hset|].
      split; [split; [intros _; split; [now apply Hiff | reflexivity] | reflexivity]|].
      split; (split; [discriminate|]); intros [Hno _]; exfalso; apply Hno;
        (split; [now apply Hiff | reflexivity]).
  - assert (Hno : ~ ((exists fw entries,
                        prepare env repo_url tmp = Normal fw /\
                        readdirSync env (path_join env tmp (Detector.outDir fw))
                          = Normal entries /\
                        rmSync env tmp = Normal tt /\
                        forall j,
                          (j < 1 + length (first_page (bucket w) (projectName ++ "/")) +
                               count_files_in entries)%nat ->
                          s3_fault env (length (s3_log w) + j) = None) /\
                     rejects st (SetStatus i "success") = None)).
    { intros [Hst _]. apply Hiff in Hst. discriminate. }
    destruct (rejects st (SetStatus i "failed")) as [e3|] eqn:Hf;
      destruct Hends as (_ & Hb & _).
    + exists "pending". split; [apply Hfind; now rewrite Hb|].
      split; [split; [discriminate | intros H; now destruct (Hno H)]|].
      split; [split; [discriminate | intros [_ [=]]]|].
      split; [intros _; split; [exact Hno | discriminate] | reflexivity].
    + exists "failed". split; [now apply Hset|].
      split; [split; [discriminate | intros H; now destruct (Hno H)]|].
      split; [split; [intros _; split; [exact Hno | reflexivity] | reflexivity]|].
      split; [discriminate | intros [_ H]; congruence].
Qed.

Lemma run_status_witness :
  let s := Fallible.startBuild store_updates_fail env_ok 7 "app" repo (world_with 2) in
  let tmp := tempFolder_of env_ok "app" in
  let row := fun status : string =>
    mkBuild 1 7 status 1 ("https://" ++ "app" ++ BASE_URL env_ok) "" in
  let published :=
    (exists fw entries,
       prepare env_ok repo tmp = Normal fw /\
       readdirSync env_ok (path_join env_ok tmp (Detector.outDir fw)) = Normal entries /\
       rmSync env_ok tmp = Normal tt /\
       forall j,
         (j < 1 + length (first_page (bucket (world_with 2)) ("app" ++ "/")) +
              count_files_in entries)%nat ->
         s3_fault env_ok (length (s3_log (world_with 2)) + j) = None) /\
    rejects store_updates_fail (SetStatus 1 "success") = None in
  exists status,
    Db.find 1 (builds s.2) = Some (row status) /\
    (status = "success" <-> published) /\
    (status = "failed" <->
     ~ published /\ rejects store_updates_fail (SetStatus 1 "failed") = None) /\
    (status = "pending" <->
     ~ published /\ rejects store_updates_fail (SetStatus 1 "failed") <> None).
Proof.
  apply (run_status store_updates_fail env_ok 7 "app" repo (world_with 2)).
  - constructor.
  - reflexivity.
Defined.

(** X23. A webhook whose select returns a project adds at most one row
    to [builds], for the project that the select returns first. When the
    store rejects the insert, no row is added. When it accepts it, exactly
    one row is added: it has the next id, the id of that project, build
    number 1, the address of the project and an empty log, and its status
    ends as success, failed or pending; the rows that were there are as
    they were. The response says that the build started in both cases. *)
Theorem webhook_adds_one_build_record
    (st : Store) (env : Env) (repo_url : string) (w : World)
    (p0 : Project) (others : list Project) :
  well_formed (builds w) ->
  select_by_repo_url repo_url (projects st) = p0 :: others ->
  let r := Fallible.post_webhook st env repo_url w in
  let i := next_id (builds w) in
  let row := fun status : string =>
    mkBuild i (project_id p0) status 1
      ("https://" ++ project_name p0 ++ BASE_URL env) "" in
  r.1 = Normal (mkJsonResponse true "Build started") /\
  match rejects st (Insert (row "pending")) with
  | Some _ => rows (builds r.2) = rows (builds w)
  | None =>
      exists status,
        (status = "pending" \/ status = "success" \/ status = "failed") /\
        rows (builds r.2) = (rows (builds w) ++ [row status])%list /\
        next_id (builds r.2) = i + 1
  end.
Proof.
  intros Hwf Hsel r i row.
  set (w1 := mkWorld (bucket w) (s3_log w) (builds w) (db_log w)
               ((console w ++ [[Text "📩 Webhook received"]]) ++
                [[Text "🚀 Starting build for project:"; Text (project_name p0)]])).
  assert (Hpost : r = (Normal (mkJsonResponse true "Build started"),
                       (Fallible.startBuild st env (project_id p0) (project_name p0)
                          repo_url w1).2)).
  { subst r. unfold Fallible.post_webhook, handler.
    rewrite bind_console_log, Hsel, bind_console_log. simpl.
    unfold Fallible.run_task. simpl. fold w1.
    rewrite bind_unfold.
    now destruct (Fallible.startBuild st env _ _ _ w1) as [[[]|e] w2]. }
  rewrite Hpost. split; [reflexivity|].
  destruct (startBuild_rows st env (project_id p0) (project_name p0) repo_url w1 Hwf)
    as [_ Hrows].
  exact Hrows.
Qed.

Lemma webhook_adds_one_build_record_witness :
  let r := Fallible.post_webhook store_ok env_ok repo (world_with 0) in
  let row := fun status : string =>
    mkBuild 1 (project_id acme) status 1
      ("https://" ++ project_name acme ++ BASE_URL env_ok) "" in
  r.1 = Normal (mkJsonResponse true "Build started") /\
  exists status,
    (status = "pending" \/ status = "success" \/ status = "failed") /\
    rows (builds r.2) = (rows (builds (world_with 0)) ++ [row status])%list /\
    next_id (builds r.2) = 1 + 1.
Proof.
  apply (webhook_adds_one_build_record store_ok env_ok repo (world_with 0) acme []).
  - constructor.
  - reflexivity.
Defined.

End FallibleProperties.

(* ================================================================== *)
(** ** The manual deploy *)
(* ================================================================== *)

Module DeployBehaviour.
Import Js Refinement Examples Site Fallible Deploy StringFacts StoreFacts PublishFacts
       BucketFacts WalkFacts RunFacts RecordFacts SiteFacts ReplaceFacts FallibleFacts.

Section WithEnv.
Variable env : Env.

(** The [try] block of the handler is the stages that replace the
    artifacts, followed by the response. *)
Lemma build_and_upload_replace (repositoryUrl applicationName folder : string)
    (w v : World) :
  agree w v ->
  agree_run (build_and_upload env repositoryUrl applicationName folder w)
            ((replace_artifacts env applicationName repositoryUrl folder;;
              mret (mkDeployResponse true "Deployment successful"
                      (Some ("https://" ++ applicationName ++ BASE_URL env)) None)) v).
Proof.
  intros Hwv. rewrite (bind_unfold (replace_artifacts env _ _ _)).
  unfold build_and_upload, replace_artifacts, prepare.
  rewrite !bind_lift.
  destruct (clone env repositoryUrl folder) as [[]|e]; [|split; [reflexivity | exact Hwv]].
  cbv beta iota; try rewrite !bind_lift.
  destruct (readFileSync env _) as [text|e]; [|split; [reflexivity | exact Hwv]].
  cbv beta iota; try rewrite !bind_lift.
  destruct (JSON_parse env text) as [pkgJson|e]; [|split; [reflexivity | exact Hwv]].
  cbv beta iota; try rewrite !bind_lift.
  destruct (Detector.detectFramework _ _ pkgJson folder) as [fw|e];
    [|split; [reflexivity | exact Hwv]].
  cbv beta iota; try rewrite !bind_lift.
  destruct (Executor.await _) as [out1|e]; [|split; [reflexivity | exact Hwv]].
  cbv beta iota; try rewrite !bind_lift.
  destruct (Executor.await _) as [out2|e]; [|split; [reflexivity | exact Hwv]].
  cbv beta iota; try rewrite !bind_lift; cbv beta iota.
  rewrite !bind_unfold.
  destruct (deleteFolderFromR2_send_all env (applicationName ++ "/") w v Hwv) as [Hr1 H1].
  destruct (deleteFolderFromR2 env _ w) as [r1 w1], (send_all env _ v) as [r1' v1].
  simpl in Hr1, H1. subst r1'. destruct r1 as [[]|e]; [|split; [reflexivity | exact H1]].
  cbv beta iota. rewrite (bind_unfold (uploadDirToR2 env _ _)), uploadDirToR2_store.
  rewrite !bind_lift.
  destruct (readdirSync env _) as [entries|e]; [|split; [reflexivity | exact H1]].
  rewrite !bind_unfold.
  destruct (send_all_agree env (puts_of_all env applicationName entries) w1 v1 H1)
    as [Hr2 H2].
  destruct (send_all env _ w1) as [r2 w2], (send_all env _ v1) as [r2' v2].
  simpl in Hr2, H2. subst r2'. destruct r2 as [[]|e]; [|split; [reflexivity | exact H2]].
  rewrite bind_lift. unfold lift.
  destruct (rmSync env folder) as [[]|e]; split; try reflexivity; exact H2.
Qed.

(** How the handler ends on a body with its two fields, in terms of
    those stages. *)
Lemma deploy_replace (repositoryUrl applicationName : string) (w : World) :
  let d := deploy env (Fields repositoryUrl applicationName) w in
  let r := replace_artifacts env applicationName repositoryUrl
             (tempFolder_of env applicationName) w in
  agree d.2 r.2 /\
  d.1 = Normal (match r.1 with
                | Normal _ =>
                    mkDeployResponse true "Deployment successful"
                      (Some ("https://" ++ applicationName ++ BASE_URL env)) None
                | Throw e => mkDeployResponse false "Deployment failed" None (Some e)
                end).
Proof.
  intros d r. subst d r. unfold deploy, deploy_fields, try_catch.
  change ("./tmp/" ++ pretty (now env) ++ "-" ++ applicationName)
    with (tempFolder_of env applicationName).
  destruct (build_and_upload_replace repositoryUrl applicationName
              (tempFolder_of env applicationName) w w (agree_refl w)) as [Hr Ha].
  rewrite bind_unfold in Hr, Ha.
  destruct (build_and_upload env _ _ _ w) as [[resp|e] w1],
           (replace_artifacts env _ _ _ w) as [[[]|e'] v1];
    simpl in Hr, Ha |- *; try discriminate.
  - injection Hr as ->. now split.
  - injection Hr as ->. now split.
Qed.

End WithEnv.


(** X15. A manual deploy with a body that carries the two fields does
    to the bucket what a webhook build of the same project does, as long
    as the record store accepts the insert of the build: from the same
    state and in the same environment both send the same requests and
    leave the same bucket, and the build sets its record to success exactly
    when the deploy answers with success and the store accepts that update.
    When the store rejects the insert, the build throws before it has sent
    anything, while the deploy goes on as before. *)
Theorem deploy_publishes_as_a_build_does
    (st : Store) (env : Env) (projectId : Z) (repositoryUrl applicationName : string)
    (w : World) :
  let d := deploy env (Fields repositoryUrl applicationName) w in
  let s := Fallible.startBuild st env projectId applicationName repositoryUrl w in
  let i := next_id (builds w) in
  match rejects st (Insert (mkBuild i projectId "pending" 1
                              ("https://" ++ applicationName ++ BASE_URL env) "")) with
  | Some e => s = (Throw e, w)
  | None =>
      bucket d.2 = bucket s.2 /\
      s3_log d.2 = s3_log s.2 /\
      exists response,
        d.1 = Normal response /\
        (last (db_log s.2) = Some (SetStatus i "success") <->
         success response = true /\ rejects st (SetStatus i "success") = None)
  end.
Proof.
  intros d s i.
  destruct (deploy_replace env repositoryUrl applicationName w) as [(Hb & Hl & _) Hr].
  pose proof (startBuild_ends st env projectId applicationName repositoryUrl w) as Hends.
  cbv zeta in Hends. fold d in Hb, Hl, Hr. fold s i in Hends.
  change (new_row env projectId applicationName "pending" w)
    with (mkBuild i projectId "pending" 1
            ("https://" ++ applicationName ++ BASE_URL env) "") in Hends.
  destruct (rejects st (Insert _)) as [e|]; [exact Hends|].
  destruct Hends as [[Hbs Hls] Hends].
  split; [congruence|]. split; [congruence|].
  eexists. split; [exact Hr|].
  destruct (replace_artifacts env _ _ _ w).1 as [[]|e1];
    repeat match type of Hends with
           | context [match rejects ?a ?b with _ => _ end] =>
               let E := fresh "E" in destruct (rejects a b) eqn:E
           end;
    destruct Hends as (_ & _ & Hd); rewrite Hd;
    first [ change (db_log w ++ [?a; ?b])%list with (db_log w ++ [a] ++ [b])%list;
            rewrite app_assoc
          | idtac ];
    rewrite last_snoc; cbn [success];
    (split; [intros [=] | intros [H1 H2]; try discriminate H1; try discriminate H2]);
    try (split; reflexivity); try reflexivity.
Qed.

(** X16. The first revision of the manual deploy has no delete stage:
    whatever the body and however the handler ends, every request it has
    sent is an upload, every key the bucket held is still there, and the
    [builds] table is untouched. It throws, before anything else, when the
    body is not JSON or is the JSON value null; for a body that carries the
    two fields it never throws, keys outside the namespace of the
    application hold what they held, and its failure response carries no
    error text. *)
Theorem deploy_rev1_never_deletes
    (env : Env) (r2_settings : list string) (body : RequestBody) (w : World) :
  let d := deploy_rev1 env r2_settings body w in
  (exists sent,
     s3_log d.2 = (s3_log w ++ sent)%list /\ Forall (fun c => is_put c = true) sent) /\
  dom (bucket w) ⊆ dom (bucket d.2) /\
  builds d.2 = builds w /\
  match body with
  | NotJson e => d = (Throw e, w)
  | NullBody => d = (Throw destructure_null, w)
  | Fields repositoryUrl applicationName =>
      (forall k, ~ has_prefix (applicationName ++ "/") k ->
                 bucket d.2 !! k = bucket w !! k) /\
      (d.1 = Normal (mkDeployResponse true "Deployment successful"
                       (Some ("http://" ++ applicationName ++ BASE_URL env)) None) \/
       d.1 = Normal (mkDeployResponse false "Deployment failed" None None))
  end.
Proof.
  intros d. subst d.
  assert (Hsent : exists sent, s3_log w = (s3_log w ++ sent)%list /\
                               Forall (fun c => is_put c = true) sent)
    by (exists []; now rewrite app_nil_r).
  destruct body as [e| |repositoryUrl applicationName];
    [now repeat split | now repeat split |].
  unfold deploy_rev1. rewrite bind_console_log.
  set (w0 := mkWorld _ _ _ _ _).
  unfold try_catch, build_and_upload_rev1.
  rewrite bind_lift.
  destruct (clone env repositoryUrl _) as [[]|e]; [|simpl; repeat split; auto].
  rewrite bind_lift.
  destruct (Executor.await _) as [out|e]; [|simpl; repeat split; auto].
  rewrite bind_unfold, uploadDirToR2_store.
  destruct (readdirSync env _) as [entries|e]; [|simpl; repeat split; auto].
  clear Hsent.
  destruct (send_all_puts_add env (puts_of_all env applicationName entries)
              (applicationName ++ "/") w0) as (Hlog & Hdom & Hother).
  { apply puts_of_all_is_put. }
  { apply keys_puts_of_all_prefix. }
  destruct (send_all_frame env (puts_of_all env applicationName entries) w0)
    as (Hbd & _).
  destruct (send_all env _ w0) as [[[]|e] w1]; simpl in Hlog, Hdom, Hother, Hbd.
  - rewrite bind_lift. destruct (rmSync env _) as [[]|e]; simpl; repeat split; auto.
  - simpl. repeat split; auto.
Qed.

End DeployBehaviour.

(* ================================================================== *)
(** ** The resolver on every host *)
(* ================================================================== *)

Module RouteProperties.
Import Js Pipeline Resolver Routes Examples Site StringFacts StoreFacts WalkFacts SiteFacts
       ResolverProperties ResolverBehaviour.

(** The text before the first dot, and what follows it. *)
Lemma split_head_rest (s : string) :
  split_head "." s = s \/ exists rest, s = split_head "." s ++ "." ++ rest.
Proof.
  induction s as [|c s IH]; [now left|].
  rewrite split_head_cons. destruct (Ascii.eqb_spec c ".") as [->|Hne].
  - right. exists s. reflexivity.
  - destruct IH as [IH|[rest IH]].
    + left. now rewrite IH.
    + right. exists rest. rewrite append_cons. now rewrite <- IH.
Qed.

Lemma prefix_split (p s : string) :
  String.prefix p s = true -> exists c, s = p ++ c.
Proof.
  revert s. induction p as [|x p IH]; intros s Hp.
  - exists s. reflexivity.
  - destruct s as [|y s]; [discriminate Hp|].
    apply prefix_cons_inv in Hp as [-> Hp].
    destruct (IH s Hp) as [c ->]. exists c. now rewrite append_cons.
Qed.

(** [replace] removes the first occurrence of the pattern: the one with
    the shortest text before it. *)
Lemma replace_first (pat a c s : string) :
  s = a ++ pat ++ c ->
  (forall a' c', s = a' ++ pat ++ c' -> (String.length a <= String.length a')%nat) ->
  replace pat "" s = a ++ c.
Proof.
  revert s. induction a as [|x a IH]; intros s -> Hfirst.
  - rewrite !append_nil, replace_here by apply prefix_append.
    rewrite append_nil, substring_skip, length_append.
    replace (String.length pat + String.length c - String.length pat)%nat
      with (String.length c) by lia.
    apply substring_all.
  - rewrite !append_cons. rewrite replace_later.
    + f_equal. apply IH; [reflexivity|].
      intros a' c' Heq.
      specialize (Hfirst (String x a') c'). rewrite !append_cons, Heq in Hfirst.
      specialize (Hfirst eq_refl). simpl in Hfirst. lia.
    + destruct (String.prefix pat (String x (a ++ pat ++ c))) eqn:Hp; [|reflexivity].
      apply prefix_split in Hp as [c' Hc'].
      specialize (Hfirst "" c'). rewrite append_nil, append_cons in Hfirst.
      specialize (Hfirst Hc'). simpl in Hfirst. lia.
Qed.

(** The response of the handler of [GET *] for a namespace, when the
    request to the store does not fail. *)
Lemma serve_lookup (subdomain_of : string -> string) (b : gmap string Object)
    (host : option string) (path : string) :
  serve subdomain_of None b host path =
  match b !! (subdomain_of (or_default host "") ++ reqPath path) with
  | Some o =>
      ObjectResponse (Body o)
        (match ContentType o with
         | Some (String c ct) => String c ct
         | _ => "text/html"
         end)
  | None => TextResponse "Not Found" 404
  end.
Proof.
  unfold serve, s3_get, key_of.
  destruct (b !! _) as [o|]; [|reflexivity].
  now destruct (ContentType o) as [[|c ct]|].
Qed.

(** C7, as the code has it, for every host and every path. The path is
    rewritten to [/index.html] when it is [/] and kept otherwise, and the
    key is the namespace followed by the path. In the first revision the
    namespace is the host up to its first dot: it holds no dot, and the
    host is that text alone or that text, a dot and a rest. In the second
    revision the namespace is the host without the first occurrence of the
    dot and apex domain, wherever that occurrence is, and the host itself
    when there is none; for a host made of a label without a dot and the
    apex, that is the label. The response carries the stored body and
    content type, [text/html] when none is stored; when the key is absent,
    or the request to the store fails, it is [Not Found] with status 404,
    whatever else the bucket holds. The second revision answers the path
    [/health] by an earlier route and does not resolve it. *)
Theorem serve_resolves_key
    (b : gmap string Object) (host : option string) (path : string) :
  let h := or_default host "" in
  let apex := "." ++ domainRoot in
  let ns1 := subdomain_rev1 h in
  let ns2 := subdomain_rev2 domainRoot h in
  let found := fun key : string =>
    match b !! key with
    | Some o =>
        ObjectResponse (Body o)
          (match ContentType o with
           | Some (String c ct) => String c ct
           | _ => "text/html"
           end)
    | None => TextResponse "Not Found" 404
    end in
  (path = "/" -> reqPath path = "/index.html") /\
  (path <> "/" -> reqPath path = path) /\
  occurs_in "." ns1 = false /\
  (h = ns1 \/ exists rest, h = ns1 ++ "." ++ rest) /\
  (occurs_in apex h = false -> ns2 = h) /\
  (forall a c,
     h = a ++ apex ++ c ->
     (forall a' c', h = a' ++ apex ++ c' -> (String.length a <= String.length a')%nat) ->
     ns2 = a ++ c) /\
  (forall label, occurs_in "." label = false -> h = label ++ apex -> ns2 = label) /\
  get_rev1 None b host path = Served (found (ns1 ++ reqPath path)) /\
  get_rev2 None b host path =
    (if String.eqb path "/health" then HealthReply
     else Served (found (ns2 ++ reqPath path))) /\
  (forall e,
     get_rev1 (Some e) b host path = Served (TextResponse "Not Found" 404) /\
     get_rev2 (Some e) b host path =
       (if String.eqb path "/health" then HealthReply
        else Served (TextResponse "Not Found" 404))).
Proof.
  intros h apex ns1 ns2 found.
  split; [intros ->; reflexivity|]. split; [apply reqPath_other|].
  split; [apply split_head_free|].
  split; [destruct (split_head_rest h) as [H|[rest H]]; [left | right; exists rest];
          now symmetry|].
  split; [intros Hfree; now apply replace_absent|].
  split; [intros a c Hh Hfirst; now apply (replace_first apex a c h)|].
  split.
  { intros label Hfree Hh. subst ns2. rewrite Hh. now apply replace_apex_suffix. }
  split; [unfold get_rev1, serve_rev1; now rewrite serve_lookup|].
  split.
  { unfold get_rev2, serve_rev2. destruct (String.eqb path "/health"); [reflexivity|].
    now rewrite serve_lookup. }
  intros e. unfold get_rev1, get_rev2. split; [reflexivity|].
  now destruct (String.eqb path "/health").
Qed.

(** C7 fails as stated. The server listens on port 3001. For the host
    of project [myapp] with that port, the second revision does not strip
    a suffix: it removes the apex from the middle and keeps the port, looks
    up [myapp:3001/index.html], and answers 404 although
    [myapp/index.html] is stored and the first revision serves it. For the
    host of the example, [myapp.example.com], whose apex is not the one of
    the code, the first revision looks up [myapp/index.html] and the second
    [myapp.example.com/index.html]. And the second does not resolve the
    path [/health] at all. *)
Lemma port_stays_in_namespace :
  let b : gmap string Object := {["myapp/index.html" := mkObject [] (Some "text/html")]} in
  let host := Some "myapp.devploy-backend.avijit.site:3001" in
  get_rev1 None b host "/" = Served (ObjectResponse [] "text/html") /\
  key_of (subdomain_rev2 domainRoot) host "/" = "myapp:3001/index.html" /\
  get_rev2 None b host "/" = Served (TextResponse "Not Found" 404) /\
  key_of subdomain_rev1 (Some "myapp.example.com") "/" = "myapp/index.html" /\
  key_of (subdomain_rev2 domainRoot) (Some "myapp.example.com") "/"
    = "myapp.example.com/index.html" /\
  get_rev2 None b (Some "myapp.devploy-backend.avijit.site") "/health" = HealthReply.
Proof. vm_compute. repeat split. Qed.

(** X19. On the host of a project, one label without a dot followed by
    the apex domain, the two revisions answer alike for every path but
    [/health], whatever the bucket holds and whether or not the store
    fails. On [/health] they differ: the second revision answers by its
    earlier route, the first looks up the key of the label and [/health]. *)
Theorem revisions_agree_on_project_hosts
    (label path : string) (fault : option string) (b : gmap string Object) :
  occurs_in "." label = false ->
  let host := Some (label ++ "." ++ domainRoot) in
  (path <> "/health" -> get_rev1 fault b host path = get_rev2 fault b host path) /\
  get_rev2 fault b host "/health" = HealthReply /\
  get_rev1 None b host "/health" =
    Served (match b !! (label ++ "/health") with
            | Some o =>
                ObjectResponse (Body o)
                  (match ContentType o with
                   | Some (String c ct) => String c ct
                   | _ => "text/html"
                   end)
            | None => TextResponse "Not Found" 404
            end).
Proof.
  intros Hfree host. subst host. unfold get_rev1, get_rev2.
  split; [|split; [reflexivity|]].
  - intros Hpath. rewrite (proj2 (String.eqb_neq path "/health") Hpath).
    destruct (serve_project_host label path fault b Hfree) as [-> ->]. reflexivity.
  - destruct (serve_project_host label "/health" None b Hfree) as [-> _].
    now rewrite serve_lookup.
Qed.

Lemma revisions_agree_on_project_hosts_witness :
  let host := Some ("app" ++ "." ++ domainRoot) in
  ("/old-0" <> "/health" ->
   get_rev1 None (old_bucket 1) host "/old-0" = get_rev2 None (old_bucket 1) host "/old-0") /\
  get_rev2 None (old_bucket 1) host "/health" = HealthReply /\
  get_rev1 None (old_bucket 1) host "/health" =
    Served (match old_bucket 1 !! ("app" ++ "/health") with
            | Some o =>
                ObjectResponse (Body o)
                  (match ContentType o with
                   | Some (String c ct) => String c ct
                   | _ => "text/html"
                   end)
            | None => TextResponse "Not Found" 404
            end).
Proof.
  apply (revisions_agree_on_project_hosts "app" "/old-0" None (old_bucket 1)).
  reflexivity.
Defined.

(** X21. What has been uploaded is what is served, but for one path.
    After [uploadDirToR2] has returned for a project whose name holds no
    dot and a directory whose files have distinct paths, a [GET] on the
    host of the project for the path of a file, or for [/] when the file is
    the top-level [index.html], is answered in the first revision with the
    bytes of that file and the content type that was looked up from its
    name, and in the second revision likewise unless the path is
    [/health], which its earlier route answers: a top-level file named
    [health] is stored and never served. *)
Theorem uploaded_site_is_served
    (env : Env) (dirPath label path : string) (entries : list entry) (w : World)
    (a : Artifact) :
  let r := uploadDirToR2 env dirPath label w in
  let host := Some (label ++ "." ++ domainRoot) in
  let response :=
    ObjectResponse (file_content a)
      (match mime_lookup env (file_name a) with
       | Some (String c ct) => String c ct
       | _ => "application/octet-stream"
       end) in
  readdirSync env dirPath = Normal entries ->
  r.1 = Normal tt ->
  NoDup (rel_paths_in entries) ->
  a ∈ files_in entries ->
  occurs_in "." label = false ->
  reqPath path = "/" ++ rel_path a ->
  get_rev1 None (bucket r.2) host path = Served response /\
  get_rev2 None (bucket r.2) host path =
    (if String.eqb path "/health" then HealthReply else Served response).
Proof.
  intros r host response Hdir Hr Hnd Ha Hfree Hpath. subst r host response.
  rewrite uploadDirToR2_store, Hdir in Hr |- *.
  destruct (send_all env (puts_of_all env label entries) w) as [c v] eqn:Hs.
  simpl in Hr |- *. subst c. apply send_all_normal in Hs as [Hb _].
  unfold get_rev1, get_rev2.
  destruct (serve_project_host label path None (bucket v) Hfree) as [-> ->].
  assert (Hserve : serve (fun _ => label) None (bucket v) None path =
                   ObjectResponse (file_content a)
                     (match mime_lookup env (file_name a) with
                      | Some (String c ct) => String c ct
                      | _ => "application/octet-stream"
                      end)).
  { unfold serve, s3_get, key_of. rewrite Hpath.
    rewrite Hb, (lookup_uploaded env label entries (bucket w) a Hnd Ha).
    unfold stored_as. simpl.
    now destruct (mime_lookup env (file_name a)) as [[|c ct]|]. }
  rewrite Hserve. split; [reflexivity|]. now destruct (String.eqb path "/health").
Qed.

Lemma uploaded_site_is_served_witness :
  let r := uploadDirToR2 env_ok "tmp/dist" "app" (world_with 0) in
  let host := Some ("app" ++ "." ++ domainRoot) in
  get_rev1 None (bucket r.2) host "/" =
    Served (ObjectResponse [] "application/octet-stream") /\
  get_rev2 None (bucket r.2) host "/" =
    (if String.eqb "/" "/health" then HealthReply
     else Served (ObjectResponse [] "application/octet-stream")).
Proof.
  apply (uploaded_site_is_served env_ok "tmp/dist" "app" "/" site (world_with 0)
           (mkArtifact "index.html" "index.html" [])).
  - reflexivity.
  - vm_compute. reflexivity.
  - vm_compute. repeat constructor; set_solver.
  - vm_compute. set_solver.
  - reflexivity.
  - reflexivity.
Defined.

End RouteProperties.
